(** * MediaHarvest downloader: detection, download coordination, backend

    A shallow embedding of the TypeScript/JavaScript sources of the
    repository and the properties of its specification:

    - [JS]: the few pieces of the JavaScript runtime the code relies on
      (string methods, truthiness, property lookup on a plain object,
      non-global [String.prototype.match] with a backtracking matcher);
    - [Browser]: promises as a state-and-exception monad over a log of
      observable browser effects, the network being an oracle;
    - [MediaDetectionService], [DownloadService], [MediaGrid]: the client;
    - [Server]: the Express handler of [POST /api/download-youtube].

    A character of a [string] stands for one UTF-16 code unit below 256. *)

From Stdlib Require Import String Ascii List Arith Lia Bool DecimalString.
From stdpp Require Import base strings list gmap.

Local Open Scope string_scope.
Local Open Scope list_scope.

(* ================================================================== *)
(** ** JavaScript runtime                                              *)
(* ================================================================== *)

Module JS.

(** [s.includes(sub)] *)
Fixpoint includes (s sub : string) : bool :=
  String.prefix sub s ||
  match s with
  | EmptyString => false
  | String _ s' => includes s' sub
  end.

(** [s.split(sep)] for a non-empty separator [sep]. [skip] counts the
    characters of a separator just found that are still to be dropped. *)
Fixpoint split_go (sep : string) (skip : nat) (s : string) : list string :=
  match s with
  | EmptyString => [EmptyString]
  | String c s' =>
      match skip with
      | S k => split_go sep k s'
      | O =>
          if String.prefix sep s
          then EmptyString :: split_go sep (String.length sep - 1) s'
          else match split_go sep 0 s' with
               | h :: t => String c h :: t
               | [] => [String c EmptyString]
               end
      end
  end.

Definition split (s sep : string) : list string := split_go sep 0 s.

(** [arr[0]] and [arr.pop()] on the (never empty) result of [split]. *)
Definition first (l : list string) : string := hd EmptyString l.
Definition pop (l : list string) : string := List.last l EmptyString.

(** Template-literal rendering of a non-negative integer. *)
Definition show (n : nat) : string :=
  NilEmpty.string_of_uint (Nat.to_uint n).

(** [encodeURIComponent]: unreserved characters are kept, every other
    code unit is written as the percent-escaped bytes of its UTF-8 form. *)
Definition in_range (lo hi c : ascii) : bool :=
  Nat.leb (nat_of_ascii lo) (nat_of_ascii c)
  && Nat.leb (nat_of_ascii c) (nat_of_ascii hi).

Definition unreserved (c : ascii) : bool :=
  in_range "a" "z" c || in_range "A" "Z" c || in_range "0" "9" c
  || existsb (Ascii.eqb c) (list_ascii_of_string "-_.!~*'()").

Definition hex_digit (n : nat) : ascii :=
  match get n "0123456789ABCDEF" with
  | Some d => d
  | None => "0"%char
  end.

Definition percent (byte : nat) : string :=
  String "%" (String (hex_digit (byte / 16))
                     (String (hex_digit (byte mod 16)) EmptyString)).

Definition encode_unit (c : ascii) : string :=
  let n := nat_of_ascii c in
  if unreserved c then String c EmptyString
  else if Nat.ltb n 128 then percent n
  else percent (192 + n / 64) +:+ percent (128 + n mod 64).

Fixpoint encodeURIComponent (s : string) : string :=
  match s with
  | EmptyString => EmptyString
  | String c s' => encode_unit c +:+ encodeURIComponent s'
  end.

(** Truthiness of a string, and [a || b] on strings. *)
Definition truthy (s : string) : bool := negb (String.eqb s EmptyString).
Definition or_else (a b : string) : string := if truthy a then a else b.

(** [o || b] where [o] is [string | null | undefined] and [b] a string. *)
Definition opt_or_else (o : option string) (b : string) : string :=
  match o with
  | Some a => or_else a b
  | None => b
  end.

(** [a || b] where both are [string | null]; [if (o)] on such a value. *)
Definition or_null (a b : option string) : option string :=
  match a with
  | Some s => if truthy s then a else b
  | None => b
  end.

Definition truthy_opt (o : option string) : bool :=
  match o with
  | Some s => truthy s
  | None => false
  end.

(** [arr.findIndex(p)]; [None] stands for the result -1. *)
Fixpoint findIndex {A} (p : A -> bool) (l : list A) : option nat :=
  match l with
  | [] => None
  | x :: l' => if p x then Some 0 else option_map S (findIndex p l')
  end.

(** [index === arr.findIndex(p)] *)
Definition is_index (index : nat) (found : option nat) : bool :=
  match found with
  | Some j => Nat.eqb index j
  | None => false
  end.

(** [arr.filter((item, index) => f item index)] *)
Fixpoint filter_from {A} (f : A -> nat -> bool) (index : nat) (l : list A)
  : list A :=
  match l with
  | [] => []
  | x :: l' =>
      if f x index then x :: filter_from f (S index) l'
      else filter_from f (S index) l'
  end.

Definition filter_indexed {A} (f : A -> nat -> bool) (l : list A) : list A :=
  filter_from f 0 l.

(** *** Regular expressions

    The fragment of the regular-expression syntax that the sources use:
    literals, character classes, greedy quantifiers over a class,
    sequence, ordered alternation, numbered capture groups and the two
    anchors. *)

Definition charset := ascii -> bool.

Inductive regex : Type :=
| RLit (lit : string)             (* a literal run of characters *)
| RSet (cs : charset)             (* one character of a class *)
| RStar (cs : charset)            (* C*  (greedy) *)
| RPlus (cs : charset)            (* C+  (greedy) *)
| ROpt (cs : charset)             (* C?  (greedy) *)
| RSeq (r1 r2 : regex)
| RAlt (r1 r2 : regex)            (* r1|r2, r1 tried first *)
| RGroup (n : nat) (r : regex)    (* the n-th capturing group *)
| RBol                            (* ^ without the m flag *)
| REol                            (* $ without the m flag *)
| REmpty
| RFail.

Fixpoint rseq (l : list regex) : regex :=
  match l with
  | [] => REmpty
  | r :: l' => RSeq r (rseq l')
  end.

Fixpoint ralt (l : list regex) : regex :=
  match l with
  | [] => RFail
  | r :: l' => RAlt r (ralt l')
  end.

Definition chars (s : string) : list ascii := list_ascii_of_string s.

Definition one_of (s : string) : charset :=
  fun c => existsb (Ascii.eqb c) (chars s).
Definition none_of (s : string) : charset :=
  fun c => negb (one_of s c).

(** [.] : anything but a line terminator. *)
Definition dot : charset :=
  fun c => negb (Ascii.eqb c "010" || Ascii.eqb c "013").

(** [\w] *)
Definition word : charset :=
  fun c => in_range "a" "z" c || in_range "A" "Z" c || in_range "0" "9" c
           || Ascii.eqb c "_".

(** [\s] *)
Definition space : charset :=
  fun c => in_range "009" "013" c || Ascii.eqb c " " || Ascii.eqb c "160".

Definition dquote : ascii := "034"%char.
Definition squote : ascii := "039"%char.

(** Result of a match: the text of each group that took part. *)
Definition captures := gmap nat string.

Definition cont := nat -> string -> captures -> option captures.

(** Greedy [C*]: as many characters as possible, giving one back at a
    time while the continuation fails. *)
Fixpoint star (cs : charset) (pos : nat) (s : string) (c : captures)
         (k : cont) : option captures :=
  match s with
  | String a s' =>
      if cs a then
        match star cs (S pos) s' c k with
        | Some r => Some r
        | None => k pos s c
        end
      else k pos s c
  | EmptyString => k pos s c
  end.

(** The backtracking matcher, in continuation-passing style: [pos] is
    the index of the first character of [s] in the whole input. *)
Fixpoint matches (r : regex) (pos : nat) (s : string) (c : captures)
         (k : cont) : option captures :=
  match r with
  | RLit lit =>
      if String.prefix lit s
      then k (pos + String.length lit)
             (substring (String.length lit)
                        (String.length s - String.length lit) s) c
      else None
  | RSet cs =>
      match s with
      | String a s' => if cs a then k (S pos) s' c else None
      | EmptyString => None
      end
  | RStar cs => star cs pos s c k
  | RPlus cs =>
      match s with
      | String a s' => if cs a then star cs (S pos) s' c k else None
      | EmptyString => None
      end
  | ROpt cs =>
      match s with
      | String a s' =>
          if cs a then
            match k (S pos) s' c with
            | Some r => Some r
            | None => k pos s c
            end
          else k pos s c
      | EmptyString => k pos s c
      end
  | RSeq r1 r2 =>
      matches r1 pos s c (fun pos' s' c' => matches r2 pos' s' c' k)
  | RAlt r1 r2 =>
      match matches r1 pos s c k with
      | Some r => Some r
      | None => matches r2 pos s c k
      end
  | RGroup n r1 =>
      matches r1 pos s c
              (fun pos' s' c' => k pos' s' (<[n := substring 0 (pos' - pos) s]> c'))
  | RBol => if Nat.eqb pos 0 then k pos s c else None
  | REol => match s with EmptyString => k pos s c | _ => None end
  | REmpty => k pos s c
  | RFail => None
  end.

Definition accept : cont := fun _ _ c => Some c.

(** Leftmost match: start positions are tried from left to right. *)
Fixpoint search (r : regex) (pos : nat) (s : string) : option captures :=
  match matches r pos s ∅ accept with
  | Some c => Some c
  | None =>
      match s with
      | EmptyString => None
      | String _ s' => search r (S pos) s'
      end
  end.

(** [s.match(r)] for a regular expression without the g flag;
    [group m n] is [m[n]] for [n >= 1]. *)
Definition str_match (s : string) (r : regex) : option captures :=
  search r 0 s.

Definition group (m : captures) (n : nat) : option string := m !! n.

(** *** Property lookup on an object literal

    [o[key]] consults the own properties of [o] and then
    [Object.prototype], whose members are function objects (and, for
    [__proto__], the prototype itself). *)

Inductive value : Type :=
| VStr (s : string)
| VObject (name : string).

Definition object_prototype : list string :=
  [ "constructor"; "hasOwnProperty"; "isPrototypeOf";
    "propertyIsEnumerable"; "toLocaleString"; "toString"; "valueOf";
    "__proto__"; "__defineGetter__"; "__defineSetter__";
    "__lookupGetter__"; "__lookupSetter__" ].

Definition property (own : gmap string string) (key : string) : option value :=
  match own !! key with
  | Some s => Some (VStr s)
  | None =>
      if existsb (String.eqb key) object_prototype
      then Some (VObject key)
      else None
  end.

Definition value_truthy (v : option value) : bool :=
  match v with
  | Some (VStr s) => truthy s
  | Some (VObject _) => true
  | None => false
  end.

End JS.

(* ================================================================== *)
(** ** Data model                                                      *)
(* ================================================================== *)

Inductive MediaType : Type := image | video | audio | other.

Definition MediaType_eqb (a b : MediaType) : bool :=
  match a, b with
  | image, image | video, video | audio, audio | other, other => true
  | _, _ => false
  end.

Record MediaItem : Type := mkMediaItem {
  url : string;
  type : MediaType;
  filename : string;
  size : option string;
  dimensions : option string;
  thumbnail : option string
}.

(* ================================================================== *)
(** ** Browser: promises over a log of effects                         *)
(* ================================================================== *)

Module Browser.

(** A JavaScript [Error]; only its message is observed. *)
Record Error : Type := mkError { message : string }.

(** How a promise settles. *)
Inductive result (A : Type) : Type :=
| Fulfilled (a : A)
| Rejected (e : Error).
Arguments Fulfilled {A} a.
Arguments Rejected {A} e.

Definition Blob := string.
Definition Json := gmap string string.   (* an object with string fields *)

Inductive body : Type :=
| NoBody
| JsonBody (fields : list (string * string)).

Record Request : Type := mkRequest {
  req_url : string;
  req_method : string;
  req_body : body;
  req_no_cors : bool
}.

Definition GET (u : string) : Request := mkRequest u "GET" NoBody false.

Record Response : Type := mkResponse {
  ok : bool;
  status : nat;
  statusText : string;
  content_type : option string;   (* headers.get('content-type') *)
  json : result Json;             (* await response.json() *)
  blob : result Blob;             (* await response.blob() *)
  text : result string            (* await response.text() *)
}.

(** The parsed page, as far as the detector queries it. *)
Record HTMLImageElement : Type := mkImg {
  img_src : option string;        (* getAttribute('src') *)
  img_data_src : option string;   (* getAttribute('data-src') *)
  naturalWidth : nat;
  naturalHeight : nat
}.

Record HTMLVideoElement : Type := mkVideo {
  video_src : option string;
  video_sources : list (option string)  (* src of each nested <source> *)
}.

Record Document : Type := mkDocument {
  imgs : list HTMLImageElement;        (* querySelectorAll('img') *)
  videos : list HTMLVideoElement;      (* querySelectorAll('video') *)
  iframes : list (option string);      (* src of each iframe *)
  audios : list (option string);       (* src of each audio *)
  styled : list (option string);       (* style of each [style*=background] *)
  stray_sources : list (option string) (* src of each source element that is
                                          not inside a video, but inside an
                                          audio or a picture element: the code
                                          has no query for them *)
}.

(** What a run leaves behind. Console output is recorded for the
    progress lines of the strategy loop only. *)
Inductive event : Type :=
| Fetch (r : Request)
| SaveAs (b : Blob) (name : string)
| ConsoleLog (msg : string)
| AnchorClick (href download : string)
| WindowOpen (href target : string)
| Toast (title description : string)
| Sleep (ms : nat).

(** The world outside the program. The first argument of an oracle is
    the number of events that happened before the call. *)
Record Env : Type := mkEnv {
  network : nat -> Request -> result Response;
  anchor_click : nat -> string -> string -> option Error;
  parseFromString : string -> Document;
  URL_href : string -> string -> option string;  (* new URL(u, base).href *)
  URL_pathname : string -> option string         (* new URL(u).pathname *)
}.

(** An asynchronous computation started at time [t] settles and has
    produced some events. *)
Definition M (A : Type) : Type := nat -> result A * list event.

Definition ret {A} (a : A) : M A := fun _ => (Fulfilled a, []).

Definition throw {A} (e : Error) : M A := fun _ => (Rejected e, []).

Definition bind {A B} (m : M A) (k : A -> M B) : M B :=
  fun t =>
    match m t with
    | (Fulfilled a, evs) =>
        let (r, evs') := k a (t + length evs) in (r, evs ++ evs')
    | (Rejected e, evs) => (Rejected e, evs)
    end.

(** [try { m } catch (e) { h e }] *)
Definition try_catch {A} (m : M A) (h : Error -> M A) : M A :=
  fun t =>
    match m t with
    | (Fulfilled a, evs) => (Fulfilled a, evs)
    | (Rejected e, evs) =>
        let (r, evs') := h e (t + length evs) in (r, evs ++ evs')
    end.

Definition emit (ev : event) : M unit := fun _ => (Fulfilled tt, [ev]).

(** Awaiting something that has already settled. *)
Definition await {A} (r : result A) : M A := fun _ => (r, []).

Declare Scope js_scope.
Delimit Scope js_scope with js.
Notation "x <- m ;; k" := (bind m (fun x => k))
  (at level 100, m at next level, right associativity) : js_scope.
Notation "m ;; k" := (bind m (fun _ => k))
  (at level 100, right associativity) : js_scope.

Section Primitives.
Variable env : Env.

Definition fetch (r : Request) : M Response :=
  fun t => (network env t r, [Fetch r]).

Definition saveAs (b : Blob) (name : string) : M unit :=
  emit (SaveAs b name).

Definition console_log (msg : string) : M unit := emit (ConsoleLog msg).

(** [window.open] hands the page to the browser and returns a window
    or [null]; it does not report failure by throwing. *)
Definition window_open (href target : string) : M unit :=
  emit (WindowOpen href target).

(** Creating the anchor, clicking it and removing it again. *)
Definition anchor_download (href download : string) : M unit :=
  fun t =>
    match anchor_click env t href download with
    | None => (Fulfilled tt, [AnchorClick href download])
    | Some e => (Rejected e, [])
    end.

Definition toast (title description : string) : M unit :=
  emit (Toast title description).

Definition sleep (ms : nat) : M unit := emit (Sleep ms).
End Primitives.

(** *** Promises that run side by side

    An async function that is called runs at once, up to the first
    point at which it has to wait: in this program, a request that it has
    sent or a pause. Which of the waiting promises goes on next is up to
    the order in which the answers arrive. That order is a [schedule]:
    the indices of the promises, in the order in which their events
    happen. *)

Definition waits (ev : event) : bool :=
  match ev with
  | Fetch _ | Sleep _ => true
  | _ => false
  end.

(** The place in the schedule of the [k]-th event of promise [i]; the
    length of the schedule when there is no such event. *)
Fixpoint place (schedule : list nat) (i k : nat) : nat :=
  match schedule with
  | [] => 0
  | j :: rest =>
      if Nat.eqb j i then
        match k with
        | O => 0
        | S k' => S (place rest i k')
        end
      else S (place rest i k)
  end.

(** The world as it answers a promise whose [k]-th event is the
    [(when k)]-th event of the whole run. *)
Definition remap (when : nat -> nat) (env : Env) : Env :=
  mkEnv (fun k => network env (when k))
        (fun k => anchor_click env (when k))
        (parseFromString env) (URL_href env) (URL_pathname env).

(** The events of the promises, merged in the order of the schedule. *)
Fixpoint interleave (schedule : list nat) (evss : list (list event))
  : list event :=
  match schedule with
  | [] => []
  | i :: rest =>
      match evss !! i with
      | Some (ev :: evs) => ev :: interleave rest (<[i := evs]> evss)
      | _ => interleave rest evss
      end
  end.

(** The events with which a promise starts: those up to its first wait. *)
Fixpoint first_segment (evs : list event) : list event :=
  match evs with
  | [] => []
  | ev :: evs' => if waits ev then [ev] else ev :: first_segment evs'
  end.

(** The schedule takes every event of every promise, each one once and
    in the order of its promise. *)
Fixpoint follows (schedule : list nat) (evss : list (list event)) : bool :=
  match schedule with
  | [] => forallb (fun evs => Nat.eqb (length evs) 0) evss
  | i :: rest =>
      match evss !! i with
      | Some (ev :: evs) => follows rest (<[i := evs]> evss)
      | _ => false
      end
  end.

(** Calling the async functions one after the other, as [map] does,
    starts each of them: each runs up to its first wait before the next
    is called, and before any of them goes on. *)
Definition starts (evss : list (list event)) : list nat :=
  concat (imap (fun i evs => replicate (length (first_segment evs)) i) evss).

(** What holds of every schedule that the event loop can produce for
    promises with the given events, all of them started before the join:
    it begins with their starts, and it takes every event. *)
Definition possible (schedule : list nat) (evss : list (list event)) : bool :=
  follows schedule evss
  && bool_decide (take (length (starts evss)) schedule = starts evss).

(** A schedule that is always there: after the starts, the promises go
    on in turn, each to its end. *)
Definition in_turn (evss : list (list event)) : list nat :=
  starts evss
  ++ concat (imap (fun i evs =>
                     replicate (length evs - length (first_segment evs)) i)
                  evss).

(** [Promise.allSettled] over promises that were started one after the
    other: they run side by side, the status of each is recorded, none
    rejects the join. A promise is given as the computation that it is
    in each world, so that it can be run in the world as it answers at
    the places that the schedule gives to its events. *)
Definition allSettled {A} (env : Env) (schedule : list nat)
           (ps : list (Env -> M A)) : M (list (result A)) :=
  fun t =>
    let runs :=
      imap (fun i p => p (remap (fun k => t + place schedule i k) env) 0) ps in
    (Fulfilled (map fst runs), interleave schedule (map snd runs)).

End Browser.

(* ================================================================== *)
(** ** Video-ID acceptance shared by the two extractors                *)
(* ================================================================== *)

(** [m && m[n] && (m[n].length === 11 || m[n].length === 10)], giving
    [m[n]] when the test passes. *)
Definition accepted (m : option JS.captures) (n : nat) : option string :=
  match m with
  | Some c =>
      match JS.group c n with
      | Some id =>
          if JS.truthy id
             && (Nat.eqb (String.length id) 11 || Nat.eqb (String.length id) 10)
          then Some id
          else None
      | None => None
      end
  | None => None
  end.

(** [for (const pattern of patterns) { const match = cleanUrl.match(pattern);
    if (...) return match[1]; }]; [None] when the loop runs to its end. *)
Fixpoint first_accepted (patterns : list JS.regex) (cleanUrl : string)
  : option string :=
  match patterns with
  | [] => None
  | pattern :: rest =>
      match accepted (JS.str_match cleanUrl pattern) 1 with
      | Some id => Some id
      | None => first_accepted rest cleanUrl
      end
  end.

(** [url.split('#')[0].split('?si=')[0]] *)
Definition cleanUrl (url : string) : string :=
  JS.first (JS.split (JS.first (JS.split url "#")) "?si=").

(* ================================================================== *)
(** ** services/MediaDetectionService                                  *)
(* ================================================================== *)

Module MediaDetectionService.
Import JS Browser.
Local Open Scope js_scope.

Definition CORS_PROXY : string := "https://api.allorigins.win/raw?url=".

Definition patterns : list regex :=
  [ rseq [RLit "youtu.be/"; RGroup 1 (RPlus (none_of "/"))];
    rseq [RLit "youtube.com/watch?v="; RGroup 1 (RPlus (none_of "/&"))];
    rseq [RLit "youtube.com/embed/"; RGroup 1 (RPlus (none_of "/"))];
    rseq [RLit "youtube.com/v/"; RGroup 1 (RPlus (none_of "/"))] ].

(** Returns [string | null]. *)
Definition extractYouTubeId (url : string) : option string :=
  first_accepted patterns (cleanUrl url).

Definition handleYouTubeUrl (url : string) : list MediaItem :=
  let videoId := extractYouTubeId url in
  let filename :=
    match videoId with
    | Some id => if truthy id then "youtube_" +:+ id else "youtube_video"
    | None => "youtube_video"
    end in
  [ {| url := url;
       type := video;
       filename := filename +:+ ".mp4";
       size := None;
       dimensions := None;
       thumbnail :=
         match videoId with
         | Some id =>
             if truthy id
             then Some ("https://img.youtube.com/vi/" +:+ id
                        +:+ "/maxresdefault.jpg")
             else None
         | None => None
         end |} ].

Definition getSampleMediaItems : list MediaItem :=
  [ {| url := "https://images.unsplash.com/photo-1649972904349-6e44c42644a7";
       type := image;
       filename := "sample-image-1.jpg";
       size := Some "2.4 MB";
       dimensions := Some "1920x1080";
       thumbnail := Some "https://images.unsplash.com/photo-1649972904349-6e44c42644a7?w=400" |};
    {| url := "https://images.unsplash.com/photo-1488590528505-98d2b5aba04b";
       type := image;
       filename := "sample-image-2.jpg";
       size := Some "1.8 MB";
       dimensions := Some "1600x900";
       thumbnail := Some "https://images.unsplash.com/photo-1488590528505-98d2b5aba04b?w=400" |};
    {| url := "https://sample-videos.com/zip/10/mp4/SampleVideo_1280x720_1mb.mp4";
       type := video;
       filename := "sample-video.mp4";
       size := Some "1.0 MB";
       dimensions := Some "1280x720";
       thumbnail := None |};
    {| url := "https://www.soundjay.com/misc/sounds/bell-ringing-05.wav";
       type := audio;
       filename := "sample-audio.wav";
       size := Some "0.5 MB";
       dimensions := None;
       thumbnail := None |};
    {| url := "https://images.unsplash.com/photo-1516245834210-c4c142787335";
       type := image;
       filename := "sample-image-3.jpg";
       size := Some "3.2 MB";
       dimensions := Some "1800x1200";
       thumbnail := Some "https://images.unsplash.com/photo-1516245834210-c4c142787335?w=400" |} ].

(** [/\.([^.]+)$/] *)
Definition extension_pattern : regex :=
  rseq [RLit "."; RGroup 1 (RPlus (none_of ".")); REol].

Definition quotes : string := String squote (String dquote EmptyString).

(** [/background-image:\s*url\(Q?([^Q]+)Q?\)/], where Q stands for the
    class of the single and the double quote character. *)
Definition background_pattern : regex :=
  rseq [RLit "background-image:"; RStar space; RLit "url(";
        ROpt (one_of quotes); RGroup 1 (RPlus (none_of quotes));
        ROpt (one_of quotes); RLit ")"].

Section Detection.
Variable env : Env.

Definition resolveUrl (url baseUrl : string) : string :=
  match URL_href env url baseUrl with
  | Some href => href
  | None => url
  end.

Definition extractFilename (url : string) : string :=
  match URL_pathname env url with
  | Some pathname =>
      let filename := first (split (pop (split pathname "/")) ".") in
      or_else filename "file"
  | None => "file"
  end.

(** Returns [string | null]. *)
Definition getFileExtension (url : string) : option string :=
  match URL_pathname env url with
  | Some pathname =>
      match str_match pathname extension_pattern with
      | Some m => group m 1
      | None => None
      end
  | None => None
  end.

Definition extractImages (doc : Document) (baseUrl : string)
  : list MediaItem :=
  flat_map
    (fun img =>
       match or_null (img_src img) (img_data_src img) with
       | Some src =>
           if truthy src then
             let absoluteUrl := resolveUrl src baseUrl in
             let filename := or_else (extractFilename absoluteUrl) "image" in
             [ {| url := absoluteUrl;
                  type := image;
                  filename :=
                    filename +:+ "."
                    +:+ opt_or_else (getFileExtension absoluteUrl) "jpg";
                  size := None;
                  dimensions :=
                    if negb (Nat.eqb (naturalWidth img) 0)
                       && negb (Nat.eqb (naturalHeight img) 0)
                    then Some (show (naturalWidth img) +:+ "x"
                               +:+ show (naturalHeight img))
                    else None;
                  thumbnail := Some absoluteUrl |} ]
           else []
       | None => []
       end)
    (imgs doc).

Definition video_item (src baseUrl : string) : MediaItem :=
  let absoluteUrl := resolveUrl src baseUrl in
  {| url := absoluteUrl;
     type := video;
     filename :=
       or_else (extractFilename absoluteUrl) "video" +:+ "."
       +:+ opt_or_else (getFileExtension absoluteUrl) "mp4";
     size := None;
     dimensions := None;
     thumbnail := None |}.

(** [if (src) { videos.push(...) }] for a [video] or [source] element. *)
Definition push_video (src : option string) (baseUrl : string)
  : list MediaItem :=
  match src with
  | Some s => if truthy s then [video_item s baseUrl] else []
  | None => []
  end.

Definition extractVideos (doc : Document) (baseUrl : string)
  : list MediaItem :=
  flat_map
    (fun v =>
       push_video (video_src v) baseUrl
       ++ flat_map (fun src => push_video src baseUrl) (video_sources v))
    (videos doc)
  ++ flat_map
       (fun src =>
          match src with
          | Some s =>
              if truthy s
                 && (includes s "youtube.com" || includes s "vimeo.com")
              then [ {| url := s;
                        type := video;
                        filename :=
                          or_else (extractFilename s) "embedded-video"
                          +:+ ".mp4";
                        size := None;
                        dimensions := None;
                        thumbnail := None |} ]
              else []
          | None => []
          end)
       (iframes doc).

Definition extractAudio (doc : Document) (baseUrl : string)
  : list MediaItem :=
  flat_map
    (fun src =>
       match src with
       | Some s =>
           if truthy s then
             let absoluteUrl := resolveUrl s baseUrl in
             [ {| url := absoluteUrl;
                  type := audio;
                  filename :=
                    or_else (extractFilename absoluteUrl) "audio" +:+ "."
                    +:+ opt_or_else (getFileExtension absoluteUrl) "mp3";
                  size := None;
                  dimensions := None;
                  thumbnail := None |} ]
           else []
       | None => []
       end)
    (audios doc).

Definition extractCSSMedia (doc : Document) (baseUrl : string)
  : list MediaItem :=
  flat_map
    (fun attr =>
       let style := opt_or_else attr "" in
       match str_match style background_pattern with
       | Some bgImageMatch =>
           let url := resolveUrl (default "" (group bgImageMatch 1)) baseUrl in
           [ {| url := url;
                type := image;
                filename :=
                  or_else (extractFilename url) "background" +:+ "."
                  +:+ opt_or_else (getFileExtension url) "jpg";
                size := None;
                dimensions := None;
                thumbnail := Some url |} ]
       | None => []
       end)
    (styled doc).

(** [mediaItems.filter((item, index, self) =>
      index === self.findIndex(t => t.url === item.url))] *)
Definition uniqueMedia (mediaItems : list MediaItem) : list MediaItem :=
  filter_indexed
    (fun item index =>
       is_index index
         (findIndex (fun t => String.eqb (url t) (url item)) mediaItems))
    mediaItems.

Definition detectMedia (url : string) : M (list MediaItem) :=
  if includes url "youtube.com" || includes url "youtu.be" then
    ret (handleYouTubeUrl url)
  else
    try_catch
      (let proxyUrl := CORS_PROXY +:+ encodeURIComponent url in
       response <- fetch env (GET proxyUrl) ;;
       (if negb (ok response)
        then throw (mkError ("Failed to fetch webpage: "
                             +:+ show (status response)))
        else ret tt) ;;
       htmlContent <-
         (if match content_type response with
             | Some ct => includes ct "application/json"
             | None => false
             end
          then data <- await (json response) ;;
               ret (default "undefined" (data !! "contents"))
          else await (text response)) ;;
       let doc := parseFromString env htmlContent in
       let images := extractImages doc url in
       let videos := extractVideos doc url in
       let audio := extractAudio doc url in
       let cssMedia := extractCSSMedia doc url in
       let mediaItems := images ++ videos ++ audio ++ cssMedia in
       ret (uniqueMedia mediaItems))
      (fun error => ret getSampleMediaItems).

End Detection.

End MediaDetectionService.

(* ================================================================== *)
(** ** services/DownloadService                                        *)
(* ================================================================== *)

(** The version of the service that downloads embedded video through a
    chain of strategies. *)
Module DownloadService.
Import JS Browser.
Local Open Scope js_scope.

Definition patterns : list regex :=
  [ (* Standard URL patterns *)
    rseq [RLit "youtu.be/"; RGroup 1 (RPlus (none_of "/"))];
    rseq [RLit "youtube.com/watch?v="; RGroup 1 (RPlus (none_of "/&"))];
    rseq [RLit "youtube.com/embed/"; RGroup 1 (RPlus (none_of "/"))];
    rseq [RLit "youtube.com/v/"; RGroup 1 (RPlus (none_of "/"))];
    (* Shortened URL patterns *)
    rseq [RLit "youtube.com/shorts/"; RGroup 1 (RPlus (none_of "/"))];
    (* With additional parameters *)
    rseq [RLit "youtube.com/watch?"; RStar dot; RLit "v=";
          RGroup 1 (RPlus (none_of "/&"))];
    (* Mobile URLs *)
    rseq [RLit "m.youtube.com/watch?v="; RGroup 1 (RPlus (none_of "/&"))];
    (* Embedded URLs *)
    rseq [RLit "youtube.com/embed/"; RGroup 1 (RPlus (none_of "/"))];
    rseq [RLit "youtube-nocookie.com/embed/"; RGroup 1 (RPlus (none_of "/"))];
    (* Live stream URLs *)
    rseq [RLit "youtube.com/live/"; RGroup 1 (RPlus (none_of "/"))];
    (* Channel URLs with video ID *)
    rseq [RLit "youtube.com/c/"; RPlus (none_of "/"); RLit "/videos/";
          RGroup 1 (RPlus (none_of "/"))] ].

(** The fallback pattern; the dot of its first alternative is not
    escaped in the source. *)
Definition regExp : regex :=
  rseq [ RBol; RStar dot;
         RGroup 1
           (ralt [ rseq [RLit "youtu"; RSet dot; RLit "be/"];
                   RLit "v/";
                   rseq [RLit "u/"; RSet word; RLit "/"];
                   RLit "embed/";
                   RLit "watch?v=";
                   RLit "&v=";
                   RLit "/videos/";
                   RLit "/embed/";
                   RLit "/v/";
                   RLit "/e/";
                   RLit "watch?v=";
                   RLit "?v=";
                   RLit "&v=";
                   RLit "embed?v=";
                   RLit "/v/";
                   RLit "/e/";
                   RLit "watch?v=";
                   RLit "?v=";
                   RLit "&v=" ]);
         RGroup 2 (RStar (none_of "#&?"));
         RStar dot ].

(** Returns the ID or throws. *)
Definition extractYouTubeId (url : string) : result string :=
  let cleanUrl := cleanUrl url in
  match first_accepted patterns cleanUrl with
  | Some id => Fulfilled id
  | None =>
      let fallbackMatch := str_match cleanUrl regExp in
      let result :=
        match accepted fallbackMatch 2 with
        | Some id => id
        | None => ""
        end in
      if negb (truthy result)
      then Rejected (mkError ("Could not extract YouTube ID from URL: " +:+ url))
      else Fulfilled result
  end.

Definition trying (n : nat) : string :=
  "Trying YouTube download service " +:+ show n +:+ "...".
Definition succeeded (n : nat) : string :=
  "Successfully downloaded via service " +:+ show n.
Definition failed (n : nat) : string :=
  "Service " +:+ show n +:+ " failed:".

Definition install_hint : string :=
  "All YouTube download services failed. To use yt-dlp backend, please install yt-dlp (pip install yt-dlp) and run the server with 'npm run dev:full'. Last error: ".

(** [lastError?.message] inside a template literal. *)
Definition message_of (lastError : option Error) : string :=
  match lastError with
  | Some e => message e
  | None => "undefined"
  end.

(** The loop over [downloadServices] from index [i] on, and the throw
    that follows it. *)
Fixpoint try_services (services : list (M unit)) (i : nat)
         (lastError : option Error) : M unit :=
  match services with
  | [] => throw (mkError (install_hint +:+ message_of lastError))
  | service :: rest =>
      caught <-
        try_catch
          (console_log (trying (i + 1)) ;;
           service ;;
           console_log (succeeded (i + 1)) ;;
           ret None)
          (fun error =>
             console_log (failed (i + 1)) ;;
             ret (Some error)) ;;
      match caught with
      | None => ret tt
      | Some error => try_services rest (S i) (Some error)
      end
  end.

Section Download.
Variable env : Env.

Definition createDownloadLink (url filename : string) : M unit :=
  try_catch
    (anchor_download env url filename)
    (fun error => window_open url "_blank").

Definition downloadDirectMedia (item : MediaItem) : M unit :=
  try_catch
    (let proxyUrl :=
       "https://api.allorigins.win/raw?url=" +:+ encodeURIComponent (url item) in
     response <- fetch env (GET proxyUrl) ;;
     (if negb (ok response)
      then throw (mkError ("HTTP error! status: " +:+ show (status response)))
      else ret tt) ;;
     blob <- await (blob response) ;;
     saveAs blob (filename item))
    (fun error =>
       try_catch
         (response <- fetch env (mkRequest (url item) "GET" NoBody true) ;;
          blob <- await (blob response) ;;
          saveAs blob (filename item))
         (fun fallbackError =>
            createDownloadLink (url item) (filename item))).

Definition downloadBlobVideo (item : MediaItem) : M unit :=
  try_catch
    (response <- fetch env (GET (url item)) ;;
     blob <- await (blob response) ;;
     saveAs blob (filename item))
    (fun error => throw error).

(** Service 1: the local yt-dlp backend. *)
Definition service1 (item : MediaItem) : M unit :=
  response <-
    fetch env (mkRequest "/api/download-youtube" "POST"
                         (JsonBody [("url", url item);
                                    ("filename", filename item)])
                         false) ;;
  (if negb (ok response) then
     errorData <-
       try_catch (await (json response))
                 (fun _ => ret ({[ "error" := "Unknown error" ]} : Json)) ;;
     throw (mkError ("Backend download failed: "
                     +:+ opt_or_else (errorData !! "error")
                                     (statusText response)))
   else ret tt) ;;
  blob <- await (blob response) ;;
  saveAs blob (filename item).

(** Services 2 and 3 differ in the endpoint and in the field of the
    answer that carries the download address. *)
Definition web_service (endpoint field : string) (item : MediaItem)
  : M unit :=
  response <- fetch env (GET (endpoint +:+ encodeURIComponent (url item))) ;;
  (if negb (ok response)
   then throw (mkError ("Service failed: " +:+ show (status response)))
   else ret tt) ;;
  result <- await (json response) ;;
  if truthy_opt (result !! field) then
    videoResponse <- fetch env (GET (default "" (result !! field))) ;;
    (if negb (ok videoResponse)
     then throw (mkError "Failed to download video file")
     else ret tt) ;;
    blob <- await (blob videoResponse) ;;
    saveAs blob (filename item)
  else throw (mkError "No download URL provided").

Definition service2 : MediaItem -> M unit :=
  web_service "https://youtube-mp4-downloader.vercel.app/api/download?url="
              "downloadUrl".

Definition service3 : MediaItem -> M unit :=
  web_service "https://api.vevioz.com/api/button/mp4/mp4-720?url=" "url".

Definition downloadServices (item : MediaItem) : list (M unit) :=
  [service1 item; service2 item; service3 item].

Definition downloadYouTubeVideo (item : MediaItem) (videoId : string)
  : M unit :=
  try_services (downloadServices item) 0 None.

Definition downloadEmbeddedVideo (item : MediaItem) : M unit :=
  if includes (url item) "youtube.com" || includes (url item) "youtu.be"
  then
    videoId <- await (extractYouTubeId (url item)) ;;
    try_catch
      (downloadYouTubeVideo item videoId)
      (fun error => throw (mkError "Failed to download YouTube video"))
  else
    try_catch
      (downloadDirectMedia item)
      (fun error => throw (mkError "Failed to download embedded video")).

Definition downloadMedia (item : MediaItem) : M unit :=
  try_catch
    (if MediaType_eqb (type item) video && includes (url item) "blob:"
     then downloadBlobVideo item
     else if includes (url item) "youtube.com"
             || includes (url item) "youtu.be"
             || includes (url item) "vimeo.com"
     then downloadEmbeddedVideo item
     else downloadDirectMedia item)
    (fun error => throw (mkError ("Failed to download " +:+ filename item))).

End Download.

(** The statuses that [Promise.allSettled] collects in [downloadAll].
    [items.map(item => this.downloadMedia(item))] starts the downloads
    one after the other; each is given as the download that it is in
    each world. *)
Definition settleAll (env : Env) (schedule : list nat)
           (items : list MediaItem) : M (list (result unit)) :=
  let downloadPromises :=
    map (fun item world => downloadMedia world item) items in
  allSettled env schedule downloadPromises.

Definition downloadAll (env : Env) (schedule : list nat)
           (items : list MediaItem) : M unit :=
  try_catch
    (settleAll env schedule items ;; ret tt)
    (fun error => throw error).

End DownloadService.

(* ================================================================== *)
(** ** components/MediaGrid                                            *)
(* ================================================================== *)

Module MediaGrid.
Import JS Browser.
Local Open Scope js_scope.

(** [for (const x of l) { await body x }] *)
Fixpoint for_of {A} (l : list A) (body : A -> M unit) : M unit :=
  match l with
  | [] => ret tt
  | x :: l' => body x ;; for_of l' body
  end.

(** The handlers of one render: [items] are the props, the two sets the
    state values that the closures captured. State setters and timers
    only schedule later renders and are left out. *)
Section Component.
Variable env : Env.
Variable items : list MediaItem.
Variables downloadingItems downloadedItems : gset string.

Definition has (s : gset string) (x : string) : bool := bool_decide (x ∈ s).

Definition handleDownload (item : MediaItem) : M unit :=
  let itemId := url item in
  if has downloadingItems itemId || has downloadedItems itemId then ret tt
  else
    try_catch
      (DownloadService.downloadMedia env item ;;
       toast "Download Complete"
             (filename item +:+ " has been downloaded successfully"))
      (fun error =>
         toast "Download Failed" ("Could not download " +:+ filename item)).

Definition nonDownloadedItems : list MediaItem :=
  List.filter
    (fun item => negb (has downloadingItems (url item))
                 && negb (has downloadedItems (url item)))
    items.

Definition handleDownloadAll : M unit :=
  if Nat.eqb (length nonDownloadedItems) 0 then
    toast "Nothing to Download" "All items have already been downloaded"
  else
    toast "Bulk Download Started"
          ("Downloading " +:+ show (length nonDownloadedItems) +:+ " items...") ;;
    for_of nonDownloadedItems
           (fun item => handleDownload item ;; sleep 200).

End Component.

End MediaGrid.

(* ================================================================== *)
(** ** server: POST /api/download-youtube                              *)
(* ================================================================== *)

(** The version of the server that takes a [quality] parameter. *)
Module Server.
Import JS.

(** Quality format mappings *)
Definition qualityFormats : gmap string string :=
  list_to_map
    [ ("maximum", "bestvideo[height>=2160]+bestaudio/bestvideo[height>=1440]+bestaudio/bestvideo[height>=1080]+bestaudio/bestvideo+bestaudio/best");
      ("high", "bestvideo[height<=1080][ext=mp4]+bestaudio[ext=m4a]/best[height<=1080][ext=mp4]/bestvideo[height<=1080]+bestaudio/best");
      ("medium", "bestvideo[height<=720][ext=mp4]+bestaudio[ext=m4a]/best[height<=720][ext=mp4]/bestvideo[height<=720]+bestaudio/best");
      ("low", "bestvideo[height<=480][ext=mp4]+bestaudio[ext=m4a]/best[height<=480][ext=mp4]/bestvideo[height<=480]+bestaudio/best");
      ("audio", "bestaudio[ext=m4a]/bestaudio[ext=mp3]/bestaudio") ].

(** [req.body], with string-valued or absent fields. *)
Record Body : Type := mkBody {
  body_url : option string;
  body_filename : option string;
  body_quality : option string
}.

Inductive response : Type :=
| Json (status : nat) (error : string) (details : option string)
| File (name path : string).       (* the produced file, piped to [res] *)

(** What a child process emits once [spawn] has returned: [close] with
    the exit code and what it wrote, or, when it could not be started,
    [error] and after it [close] with the number of the error. *)
Inductive child_event : Type :=
| Close (code : nat) (stderr stdout : string)
| ProcessError (message : string) (code : nat).

(** [spawn] either throws at the call or hands back a child. *)
Inductive spawned : Type :=
| Throws (message : string)
| Child (ev : child_event).

Inductive stream_event : Type :=
| End
| StreamError (headersSent : bool).

(** The operating system under the server. The calls of [fs] return
    their result on the left, or the message of what they throw on the
    right; [rmSync], which returns nothing, gives the message of what it
    throws, if it throws. *)
Record OS : Type := mkOS {
  spawn : string -> list value -> spawned;
  mkdtempSync : string -> string + string;
  readdirSync : string -> list string + string;
  statSync : string -> nat + string;        (* the size of the file *)
  rmSync : string -> option string;
  createReadStream : string -> stream_event
}.

Record State : Type := mkState {
  dirs : gset string;                       (* temporary directories on disk *)
  processes : list (string * list value);   (* command lines given to spawn *)
  sent : list response;
  uncaught : list string   (* what was thrown out of a listener: nothing
                              catches it, and the server process ends *)
}.

Definition respond (r : response) (st : State) : State :=
  mkState (dirs st) (processes st) (sent st ++ [r]) (uncaught st).

Definition removed (dir : string) (st : State) : State :=
  mkState (dirs st ∖ {[dir]}) (processes st) (sent st) (uncaught st).

Definition created (dir : string) (st : State) : State :=
  mkState ({[dir]} ∪ dirs st) (processes st) (sent st) (uncaught st).

Definition started (file : string) (args : list value) (st : State) : State :=
  mkState (dirs st) (processes st ++ [(file, args)]) (sent st) (uncaught st).

Definition thrown (message : string) (st : State) : State :=
  mkState (dirs st) (processes st) (sent st) (uncaught st ++ [message]).

(** Code that runs in a listener: it changes the state, and returns or
    throws. *)
Definition Listener (A : Type) : Type := State -> (A + string) * State.

Definition pure {A} (a : A) : Listener A := fun st => (inl a, st).

Definition and_then {A B} (l : Listener A) (k : A -> Listener B) : Listener B :=
  fun st =>
    match l st with
    | (inl a, st) => k a st
    | (inr message, st) => (inr message, st)
    end.

Declare Scope node_scope.
Delimit Scope node_scope with node.
Notation "x <- l ;; k" := (and_then l (fun x => k))
  (at level 100, l at next level, right associativity) : node_scope.
Notation "l ;; k" := (and_then l (fun _ => k))
  (at level 100, right associativity) : node_scope.
Local Open Scope node_scope.

(** The result of a call that returns or throws. *)
Definition call {A} (r : A + string) : Listener A := fun st => (r, st).

Definition effect (f : State -> State) : Listener unit :=
  fun st => (inl tt, f st).

(** A listener that an event has run. What it throws is uncaught. *)
Definition emitted (l : Listener unit) (st : State) : State :=
  match l st with
  | (inl _, st) => st
  | (inr message, st) => thrown message st
  end.

(** The characters that [res.setHeader] accepts in a value: the tab and
    what is not a control character. (It refuses the characters beyond
    U+00FF too; the strings of this development hold none.) *)
Definition header_char (c : ascii) : bool :=
  Ascii.eqb c "009"
  || (Nat.leb 32 (nat_of_ascii c) && negb (Ascii.eqb c "127")).

Definition header_value (value : string) : bool :=
  forallb header_char (chars value).

(** The value of [Content-Disposition]: the name between double quotes
    after [attachment; filename=]. *)
Definition content_disposition (finalFilename : string) : string :=
  "attachment; filename="
  +:+ String dquote (finalFilename +:+ String dquote EmptyString).

(** [res.setHeader(name, value)]: it throws when the request has been
    answered already, and when the value holds a character that a header
    cannot carry. *)
Definition setHeader (headersSent : bool) (value : string) : Listener unit :=
  if headersSent then call (inr "ERR_HTTP_HEADERS_SENT")
  else if negb (header_value value) then call (inr "ERR_INVALID_CHAR")
  else pure tt.

(** [res.status(...).json(...)]: it throws when the request has been
    answered already. *)
Definition json (headersSent : bool) (status : nat) (error : string)
           (details : option string) : Listener unit :=
  if headersSent then call (inr "ERR_HTTP_HEADERS_SENT")
  else effect (respond (Json status error details)).

Section Handler.
Variable os : OS.

(** [fs.readdirSync(dir)]: a directory that is no longer there cannot be
    listed. *)
Definition fs_readdirSync (dir : string) : Listener (list string) :=
  fun st =>
    if bool_decide (dir ∈ dirs st) then (readdirSync os dir, st)
    else (inr ("ENOENT: no such file or directory, scandir '" +:+ dir +:+ "'"),
          st).

(** [fs.rmSync(dir, { recursive: true, force: true })]: with [force], a
    directory that is not there is no error; other failures are thrown. *)
Definition fs_rmSync (dir : string) : Listener unit :=
  fun st =>
    match rmSync os dir with
    | Some message => (inr message, st)
    | None => (inl tt, removed dir st)
    end.

(** Resolves to a boolean; [None] when the promise rejects because
    [spawn] threw inside the executor. A [close] that follows [error]
    finds the promise resolved. *)
Definition checkYtDlp (st : State) : option bool * State :=
  let st := started "yt-dlp" [VStr "--version"] st in
  match spawn os "yt-dlp" [VStr "--version"] with
  | Child (Close code _ _) => (Some (Nat.eqb code 0), st)
  | Child (ProcessError _ _) => (Some false, st)
  | Throws _ => (None, st)
  end.

Definition ytDlpArgs (format : value) (outputTemplate quality url : string)
  : list value :=
  let args :=
    [ VStr "--format"; format;
      VStr "--output"; VStr outputTemplate;
      VStr "--no-playlist";
      VStr "--restrict-filenames";
      VStr "--embed-metadata" ] in
  let args :=
    if negb (String.eqb quality "audio")
    then (take 2 args ++ [VStr "--merge-output-format"; VStr "mp4"]
          ++ drop 2 args)
         ++ [VStr "--write-thumbnail"; VStr "--embed-thumbnail"]
    else args in
  args ++ [VStr url].

(** The listeners of the stream that is piped to the answer. When it
    ends the answer has been sent; when it fails, [headersSent] tells
    whether part of it has. They run after the [close] listener has
    returned; what they throw is as uncaught as what it throws. *)
Definition piped (tempDir finalFilename downloadedFile : string)
  : Listener unit :=
  match createReadStream os downloadedFile with
  | End =>
      effect (respond (File finalFilename downloadedFile)) ;;
      (* Clean up after sending *)
      fs_rmSync tempDir
  | StreamError headersSent =>
      (if headersSent
       then effect (respond (File finalFilename downloadedFile))
       else pure tt) ;;
      fs_rmSync tempDir ;;
      if negb headersSent
      then json false 500 "Failed to send file" None
      else pure tt
  end.

(** The [close] listener of the download process. [headersSent] tells
    whether the request has been answered before the listener runs. *)
Definition on_close (tempDir : string) (filename : option string)
           (code : nat) (stderr stdout : string) (headersSent : bool)
  : Listener unit :=
  if Nat.eqb code 0 then
    (* Find the downloaded file *)
    files <- fs_readdirSync tempDir ;;
    match files with
    | file0 :: _ =>
        let downloadedFile := tempDir +:+ "/" +:+ file0 in
        stats <- call (statSync os downloadedFile) ;;
        (* Send file as download *)
        let finalFilename := opt_or_else filename file0 in
        setHeader headersSent (content_disposition finalFilename) ;;
        piped tempDir finalFilename downloadedFile
    | [] =>
        fs_rmSync tempDir ;;
        json headersSent 500 "No file was downloaded" None
    end
  else
    fs_rmSync tempDir ;;
    json headersSent 500 ("yt-dlp failed with code " +:+ show code)
         (Some (or_else stderr stdout)).

(** The [error] listener of the download process. *)
Definition on_error (tempDir message : string) : Listener unit :=
  fs_rmSync tempDir ;;
  json false 500 "Failed to start yt-dlp" (Some message).

(** The body of the [try] block: [inl] carries the message of an
    exception thrown out of it. The listeners run after the block has
    been left. A process that could not be started emits [error] and
    after it [close], having written nothing; the [close] listener runs
    if the [error] listener has not ended the server. *)
Definition download (url : string) (filename : option string)
           (quality : string) (format : value) (st : State)
  : (string + unit) * State :=
  match mkdtempSync os "ytdl-" with
  | inr message => (inl message, st)
  | inl tempDir =>
      let st := created tempDir st in
      let outputTemplate := tempDir +:+ "/" +:+ "%(title)s.%(ext)s" in
      let args := ytDlpArgs format outputTemplate quality url in
      let st := started "yt-dlp" args st in
      match spawn os "yt-dlp" args with
      | Throws message => (inl message, st)
      | Child (Close code stderr stdout) =>
          (inr tt,
           emitted (on_close tempDir filename code stderr stdout false) st)
      | Child (ProcessError message code) =>
          (inr tt,
           emitted (on_error tempDir message ;;
                    on_close tempDir filename code "" "" true) st)
      end
  end.

(** The handler once the request has passed validation. A rejected
    version check leaves the request unanswered. *)
Definition serve (url : string) (filename : option string)
           (quality : string) (format : value) (st : State) : State :=
  (* Check if yt-dlp is available *)
  match checkYtDlp st with
  | (None, st) => st
  | (Some false, st) =>
      respond (Json 500 "yt-dlp is not installed. Please install it with: pip install yt-dlp" None) st
  | (Some true, st) =>
      match download url filename quality format st with
      | (inl message, st) =>
          respond (Json 500 "Internal server error" (Some message)) st
      | (inr _, st) => st
      end
  end.

Definition handler (body : Body) (st : State) : State :=
  let url := body_url body in
  let filename := body_filename body in
  let quality := default "high" (body_quality body) in
  if negb (truthy_opt url) then
    respond (Json 400 "URL is required" None) st
  else
    (* Validate quality option *)
    match property qualityFormats quality with
    | Some format =>
        if negb (value_truthy (Some format)) then
          respond (Json 400 "Invalid quality option" None) st
        else serve (default "" url) filename quality format st
    | None => respond (Json 400 "Invalid quality option" None) st
    end.

End Handler.

End Server.

(* ================================================================== *)
(** ** Vocabulary of the properties                                    *)
(* ================================================================== *)

Module Props.
Import JS Browser.

(** The strategies of the chain that a run announced, in order. *)
Definition announced (ev : event) : option nat :=
  match ev with
  | ConsoleLog msg =>
      if String.eqb msg (DownloadService.trying 1) then Some 1
      else if String.eqb msg (DownloadService.trying 2) then Some 2
      else if String.eqb msg (DownloadService.trying 3) then Some 3
      else None
  | _ => None
  end.

Definition attempted (evs : list event) : list nat := omap announced evs.

(** Events of the network and of the file-saving primitive. *)
Definition transfer (ev : event) : Prop :=
  match ev with
  | Fetch _ | SaveAs _ _ => True
  | _ => False
  end.

(** Events that a download may cause: everything but notifications and
    pauses, which belong to the component. *)
Definition download_event (ev : event) : Prop :=
  match ev with
  | Toast _ _ | Sleep _ => False
  | _ => True
  end.

Definition saved (ev : event) : bool :=
  match ev with
  | SaveAs _ _ => true
  | _ => false
  end.

(** Every event of a computation, whenever it is started and however it
    settles, satisfies [P]. *)
Definition emits {A} (P : event -> Prop) (m : M A) : Prop :=
  forall t r evs, m t = (r, evs) -> Forall P evs.

(** A computation that cannot reject. *)
Definition resolves {A} (m : M A) : Prop :=
  forall t, exists a evs, m t = (Fulfilled a, evs).

(** The branch that [downloadMedia] takes for a descriptor. *)
Inductive route : Type := BlobFetch | EmbeddedVideo | DirectMedia.

(** The routing as the specification words it: by the scheme of the URL
    and by its host. *)
Definition blob_scheme (u : string) : bool := String.prefix "blob:" u.

(** What follows the first occurrence of [sep]; nothing when there is
    none. *)
Fixpoint after (sep s : string) : string :=
  if String.prefix sep s
  then substring (String.length sep) (String.length s - String.length sep) s
  else match s with
       | EmptyString => EmptyString
       | String _ s' => after sep s'
       end.

Fixpoint until (stop : ascii -> bool) (s : string) : string :=
  match s with
  | EmptyString => EmptyString
  | String c s' => if stop c then EmptyString else String c (until stop s')
  end.

(** The host of an absolute URL: what stands between [://] and the
    path, the query or the fragment. *)
Definition host (u : string) : string := until (one_of "/?#") (after "://" u).

Fixpoint ends_with (suffix s : string) : bool :=
  String.eqb s suffix
  || match s with
     | EmptyString => false
     | String _ s' => ends_with suffix s'
     end.

(** The host is the domain or one of its subdomains. *)
Definition host_matches (domain : string) (u : string) : bool :=
  String.eqb (host u) domain || ends_with ("." +:+ domain) (host u).

Definition known_platform (u : string) : bool :=
  existsb (fun domain => host_matches domain u)
          ["youtube.com"; "youtu.be"; "vimeo.com"].

Definition spec_dispatch (item : MediaItem) : route :=
  if MediaType_eqb (type item) video && blob_scheme (url item) then BlobFetch
  else if known_platform (url item) then EmbeddedVideo
  else DirectMedia.

Definition is_blob_video (item : MediaItem) : bool :=
  MediaType_eqb (type item) video && includes (url item) "blob:".

Definition on_video_platform (item : MediaItem) : bool :=
  includes (url item) "youtube.com" || includes (url item) "youtu.be"
  || includes (url item) "vimeo.com".

Definition dispatch (item : MediaItem) : route :=
  if is_blob_video item then BlobFetch
  else if on_video_platform item then EmbeddedVideo
  else DirectMedia.

Definition branch (env : Env) (r : route) (item : MediaItem) : M unit :=
  match r with
  | BlobFetch => DownloadService.downloadBlobVideo env item
  | EmbeddedVideo => DownloadService.downloadEmbeddedVideo env item
  | DirectMedia => DownloadService.downloadDirectMedia env item
  end.

(** A failed fetch of an object URL, or a failed read of its body. *)
Definition blob_fetch_fails (env : Env) (item : MediaItem) (t : nat) : Prop :=
  match network env t (GET (url item)) with
  | Rejected _ => True
  | Fulfilled response =>
      match blob response with
      | Rejected _ => True
      | Fulfilled _ => False
      end
  end.

(** The error with which [downloadMedia] replaces any failure. *)
Definition download_failure (item : MediaItem) : Error :=
  mkError ("Failed to download " +:+ filename item).

(** What the extractors ensure of a name: [stem.ext] with both parts
    non-empty and no further dot in [ext]. *)
Definition dotted_name (name : string) : Prop :=
  exists stem ext,
    name = stem +:+ "." +:+ ext /\ stem <> "" /\ ext <> ""
    /\ includes ext "." = false.

(** A name that ends in a file extension: [stem.ext] with both parts
    non-empty, where [ext] is what follows the last dot of the name and
    belongs to the file, not to a directory: it holds no slash. *)
Definition has_extension (name : string) : Prop :=
  exists stem ext,
    name = stem +:+ "." +:+ ext /\ stem <> "" /\ ext <> ""
    /\ includes ext "." = false /\ includes ext "/" = false.

Definition well_named (item : MediaItem) : Prop :=
  dotted_name (filename item).

(** Two lists of URLs with the same members. *)
Definition same_members (seen seen' : list string) : Prop :=
  forall u, existsb (String.eqb u) seen = existsb (String.eqb u) seen'.

(** Deduplication as the specification words it: by exact URL string,
    keeping the first occurrence, in the order of appearance. *)
Fixpoint first_seen (seen : list string) (l : list MediaItem)
  : list MediaItem :=
  match l with
  | [] => []
  | item :: l' =>
      if existsb (String.eqb (url item)) seen
      then first_seen seen l'
      else item :: first_seen (url item :: seen) l'
  end.

(** A world whose answers do not depend on the moment of the question. *)
Definition steady (env : Env) : Prop := forall when, remap when env = env.

(** The downloads of [downloadAll], each as it runs when its events
    fall where the schedule puts them. *)
Definition concurrent_runs (env : Env) (schedule : list nat) (t : nat)
           (items : list MediaItem) : list (result unit * list event) :=
  imap (fun i item =>
          DownloadService.downloadMedia
            (remap (fun k => t + place schedule i k) env) item 0)
       items.

(** The notification that [handleDownload] shows for an outcome. *)
Definition outcome_toast (item : MediaItem) (r : result unit) : event :=
  match r with
  | Fulfilled _ =>
      Toast "Download Complete"
            (filename item +:+ " has been downloaded successfully")
  | Rejected _ =>
      Toast "Download Failed" ("Could not download " +:+ filename item)
  end.

(** The bulk loop of the component: download, notification, pause. *)
Inductive bulk_run (env : Env)
  : list MediaItem -> nat -> list (result unit) -> list event -> Prop :=
| bulk_run_nil t : bulk_run env [] t [] []
| bulk_run_cons item items t r evs rs evs' :
    DownloadService.downloadMedia env item t = (r, evs) ->
    bulk_run env items (t + length evs + 2) rs evs' ->
    bulk_run env (item :: items) t (r :: rs)
             (evs ++ [outcome_toast item r; Sleep 200] ++ evs').

(** An item that the component neither downloads nor has downloaded. *)
Definition fresh (downloadingItems downloadedItems : gset string)
           (item : MediaItem) : Prop :=
  MediaGrid.has downloadingItems (url item)
  || MediaGrid.has downloadedItems (url item) = false.

Definition is_rejected {A} (r : result A) : bool :=
  match r with
  | Rejected _ => true
  | Fulfilled _ => false
  end.

Definition failures {A} (rs : list (result A)) : nat :=
  length (List.filter is_rejected rs).

Definition successes {A} (rs : list (result A)) : nat :=
  length (List.filter (fun r => negb (is_rejected r)) rs).

Definition is_toast (title : string) (ev : event) : bool :=
  match ev with
  | Toast t _ => String.eqb t title
  | _ => false
  end.

Definition toasts (title : string) (evs : list event) : nat :=
  length (List.filter (is_toast title) evs).

(** The server answered with the given status. *)
Definition answered (status : nat) (r : Server.response) : bool :=
  match r with
  | Server.Json s _ _ => Nat.eqb s status
  | Server.File _ _ => Nat.eqb status 200
  end.

(** What the listeners of the download process may do to the state of
    the server: they start no process; they answer at most once, never
    with 400 and never with the advice to install yt-dlp; every directory
    but the temporary one is as before; and the temporary directory is
    gone unless something was thrown. *)
Definition effect_of (tempDir : string) (st st' : Server.State) : Prop :=
  Server.processes st' = Server.processes st
  /\ (exists new,
        Server.sent st' = Server.sent st ++ new
        /\ length new <= 1
        /\ Forall (fun r =>
                     answered 400 r = false
                     /\ r <> Server.Json 500 "yt-dlp is not installed. Please install it with: pip install yt-dlp" None)
                  new)
  /\ (forall d, d <> tempDir -> d ∈ Server.dirs st' <-> d ∈ Server.dirs st)
  /\ (Server.uncaught st' = Server.uncaught st -> tempDir ∉ Server.dirs st').

End Props.

(* ================================================================== *)
(** ** Concrete worlds and inputs                                      *)
(* ================================================================== *)

Module Fixtures.
Import JS Browser.

Definition empty_document : Document := mkDocument [] [] [] [] [] [].

Definition failed_to_fetch : Error := mkError "Failed to fetch".

Definition response_ok (j : Json) (b : Blob) : Response :=
  mkResponse true 200 "OK" None (Fulfilled j) (Fulfilled b) (Fulfilled "").

Definition conversion_answer : Json :=
  {[ "downloadUrl" := "https://cdn.example/video.mp4" ]}.

(** No request gets through; the browser accepts a download link. *)
Definition offline : Env :=
  mkEnv (fun _ _ => Rejected failed_to_fetch)
        (fun _ _ _ => None)
        (fun _ => empty_document)
        (fun _ _ => None)
        (fun _ => None).

(** The local backend is not running; the first web API works. *)
Definition backend_down : Env :=
  mkEnv (fun _ r =>
           if String.eqb (req_url r) "/api/download-youtube"
           then Rejected failed_to_fetch
           else Fulfilled (response_ok conversion_answer "bytes"))
        (fun _ _ _ => None)
        (fun _ => empty_document)
        (fun _ _ => None)
        (fun _ => None).

(** Object URLs have been revoked; everything else is served. *)
Definition blobs_revoked : Env :=
  mkEnv (fun _ r =>
           if includes (req_url r) "blob:"
           then Rejected failed_to_fetch
           else Fulfilled (response_ok ∅ "bytes"))
        (fun _ _ _ => None)
        (fun _ => empty_document)
        (fun _ _ => None)
        (fun _ => None).

Definition item_of (u : string) (k : MediaType) (name : string) : MediaItem :=
  mkMediaItem u k name None None None.

Definition rick : MediaItem :=
  item_of "https://youtu.be/dQw4w9WgXcQ" video "youtube_dQw4w9WgXcQ.mp4".

Definition photo : MediaItem :=
  item_of "https://site.example/a/photo.png" image "photo.png".

Definition recording : MediaItem :=
  item_of "blob:https://site.example/7f3c" video "recording.mp4".

(** An image whose address mentions the video platform in its query. *)
Definition tracked_image : MediaItem :=
  item_of "https://cdn.example.com/pic.png?ref=youtube.com" image "pic.png".

(** A video file whose address mentions an object URL in its query. *)
Definition linked_clip : MediaItem :=
  item_of "https://site.example/clip.mp4?from=blob:7f3c" video "clip.mp4".

Definition batch : list MediaItem :=
  [ item_of "https://site.example/1.png" image "1.png";
    item_of "blob:https://site.example/2" video "2.mp4";
    item_of "https://site.example/3.mp3" audio "3.mp3";
    item_of "blob:https://site.example/4" video "4.mp4";
    item_of "https://site.example/5.jpg" image "5.jpg" ].

(** Requests to the backend. *)
Definition request (u q : string) : Server.Body :=
  Server.mkBody (Some u) None (Some q).

Definition idle : Server.State := Server.mkState ∅ [] [] [].

(** yt-dlp is installed; starting the download throws at the call. *)
Definition spawn_throws : Server.OS :=
  Server.mkOS
    (fun _ args =>
       match args with
       | [VStr "--version"] => Server.Child (Server.Close 0 "" "2024.08.06")
       | _ => Server.Throws "spawn ENOMEM"
       end)
    (fun prefix => inl ("/tmp/" +:+ prefix +:+ "a1b2c3"))
    (fun _ => inl [])
    (fun _ => inl 0)
    (fun _ => None)
    (fun _ => Server.End).

(** yt-dlp is installed and produces one file that streams to its end. *)
Definition healthy : Server.OS :=
  Server.mkOS
    (fun _ args =>
       match args with
       | [VStr "--version"] => Server.Child (Server.Close 0 "" "2024.08.06")
       | _ => Server.Child (Server.Close 0 "" "done")
       end)
    (fun prefix => inl ("/tmp/" +:+ prefix +:+ "a1b2c3"))
    (fun _ => inl ["video.mp4"])
    (fun _ => inl 4096)
    (fun _ => None)
    (fun _ => Server.End).

End Fixtures.

(* ================================================================== *)
(** ** services/DownloadService, earlier version                       *)
(* ================================================================== *)

(** The version of the service in which the download link is created
    without a guard. Only the direct-media path is embedded. *)
Module LegacyDownloadService.
Import JS Browser.
Local Open Scope js_scope.

Section Download.
Variable env : Env.

Definition createDownloadLink (url filename : string) : M unit :=
  anchor_download env url filename.

Definition downloadDirectMedia (item : MediaItem) : M unit :=
  try_catch
    (let proxyUrl :=
       "https://api.allorigins.win/raw?url=" +:+ encodeURIComponent (url item) in
     response <- fetch env (GET proxyUrl) ;;
     (if negb (ok response)
      then throw (mkError ("HTTP error! status: " +:+ show (status response)))
      else ret tt) ;;
     blob <- await (blob response) ;;
     saveAs blob (filename item))
    (fun error =>
       try_catch
         (response <- fetch env (mkRequest (url item) "GET" NoBody true) ;;
          blob <- await (blob response) ;;
          saveAs blob (filename item))
         (fun fallbackError =>
            createDownloadLink (url item) (filename item))).

End Download.

End LegacyDownloadService.

(* ================================================================== *)
(** ** components/MediaDownloader                                      *)
(* ================================================================== *)

Module MediaDownloader.
Import JS Browser.
Local Open Scope js_scope.

(** The state of the component. *)
Record View : Type := mkView {
  view_url : string;
  isAnalyzing : bool;
  mediaItems : list MediaItem;
  progress : nat
}.

(** One firing of the progress timer: [prev => Math.min(prev + 10, 90)]. *)
Definition tick (prev : nat) : nat := Nat.min (prev + 10) 90.

Section Component.
Variable env : Env.

(** The state that the handler leaves behind. [ticks] is the number of
    times the progress timer has fired when the state is observed. *)
Definition handleAnalyze (ticks : nat) (v : View) : M View :=
  if negb (truthy (view_url v)) then
    toast "Error" "Please enter a valid URL" ;;
    ret v
  else
    let url := view_url v in
    v <-
      try_catch
        (items <- MediaDetectionService.detectMedia env url ;;
         toast "Analysis Complete"
               ("Found " +:+ show (length items) +:+ " media items") ;;
         ret (mkView url true items 100))
        (fun error =>
           toast "Analysis Failed"
                 "Could not analyze the webpage. Please check the URL and try again." ;;
           ret (mkView url true [] (Nat.iter ticks tick 0))) ;;
    ret (mkView (view_url v) false (mediaItems v) (progress v)).

End Component.

(** [mediaItems.filter(item => item.type === kind).length] *)
Definition count (kind : MediaType) (items : list MediaItem) : nat :=
  length (List.filter (fun item => MediaType_eqb (type item) kind) items).

(** The figures of the statistics card. *)
Definition stats (v : View) : list (string * nat) :=
  [ ("Total Items", length (mediaItems v));
    ("Images", count image (mediaItems v));
    ("Videos", count video (mediaItems v));
    ("Audio", count audio (mediaItems v)) ].

(** [mediaItems.length > 0 && ...]: the results are rendered. *)
Definition showsResults (v : View) : bool :=
  Nat.ltb 0 (length (mediaItems v)).

(** [!isAnalyzing && mediaItems.length === 0 && url && ...]: the card
    that says that no media was found is rendered. *)
Definition showsEmptyState (v : View) : bool :=
  negb (isAnalyzing v) && Nat.eqb (length (mediaItems v)) 0
  && truthy (view_url v).

End MediaDownloader.

(* ================================================================== *)
(** ** server: the other routes                                        *)
(* ================================================================== *)

Module Routes.
Import JS Server.

(** The [value] fields of the answer of [GET /api/quality-options]. *)
Definition qualityOptions : list string :=
  ["maximum"; "high"; "medium"; "low"; "audio"].

(** The answer of [GET /api/health]: [ytDlpAvailable] and [message];
    [None] when the version check rejects and nothing is sent. *)
Definition health (os : OS) (st : State) : option (bool * string) * State :=
  match checkYtDlp os st with
  | (Some ytDlpAvailable, st) =>
      (Some (ytDlpAvailable,
             if ytDlpAvailable then "yt-dlp is available"
             else "yt-dlp is not installed"), st)
  | (None, st) => (None, st)
  end.

End Routes.

(* ================================================================== *)
(** ** Further vocabulary and worlds                                   *)
(* ================================================================== *)

Module Facts.
Import JS Browser.

(** No character of [s] is [c]. *)
Definition free_of (c : ascii) (s : string) : bool :=
  forallb (fun a => negb (Ascii.eqb a c)) (chars s).

(** [lit] differs from [s] at a place that both have. *)
Fixpoint mismatch (lit s : string) : bool :=
  match lit, s with
  | String a lit', String b s' =>
      if Ascii.eqb a b then mismatch lit' s' else true
  | _, _ => false
  end.

(** [lit] starts nowhere in [pre], whatever follows [pre]. *)
Fixpoint clear_of (lit pre : string) : bool :=
  match pre with
  | EmptyString => true
  | String _ pre' => mismatch lit pre && clear_of lit pre'
  end.

(** The number of files that a run handed to [saveAs]. *)
Definition saves (evs : list event) : nat :=
  length (List.filter Props.saved evs).

(** A file saved under a name other than [name] is not [saved_as name]. *)
Definition saved_as (name : string) (ev : event) : Prop :=
  match ev with
  | SaveAs _ n => n = name
  | _ => True
  end.

(** Nothing is handed to [saveAs]. *)
Definition quiet (ev : event) : Prop := Props.saved ev = false.

(** A computation that saves at most one file, under the given name,
    and none when it rejects. *)
Definition saves_once {A} (name : string) (m : M A) : Prop :=
  forall t r evs,
    m t = (r, evs) ->
    Forall (saved_as name) evs /\ saves evs <= 1
    /\ (Props.is_rejected r = true -> saves evs = 0).

(** The request through the proxy and the request to the origin that
    the direct-media path makes for a descriptor. *)
Definition proxied (item : MediaItem) : Request :=
  GET ("https://api.allorigins.win/raw?url=" +:+ encodeURIComponent (url item)).

Definition no_cors (item : MediaItem) : Request :=
  mkRequest (url item) "GET" NoBody true.

(** The bytes that a request yields at time [t], if it succeeds, the
    status is acceptable when [checked], and the body can be read. *)
Definition bytes (env : Env) (checked : bool) (t : nat) (r : Request)
  : option Blob :=
  match network env t r with
  | Fulfilled response =>
      if checked && negb (ok response) then None
      else match blob response with
           | Fulfilled b => Some b
           | Rejected _ => None
           end
  | Rejected _ => None
  end.

(** The request with which the download path turns to the backend. *)
Definition backend_request (item : MediaItem) : Request :=
  mkRequest "/api/download-youtube" "POST"
            (JsonBody [("url", url item); ("filename", filename item)])
            false.

(** The request with which the detector fetches a page. *)
Definition page_request (pageUrl : string) : Request :=
  GET (MediaDetectionService.CORS_PROXY +:+ encodeURIComponent pageUrl).

(** The text of a fetched page, when the proxy answers with an
    acceptable status and the body can be read. *)
Definition page_text (env : Env) (t : nat) (pageUrl : string)
  : option string :=
  match network env t (page_request pageUrl) with
  | Fulfilled response =>
      if negb (ok response) then None
      else if match content_type response with
              | Some ct => includes ct "application/json"
              | None => false
              end
           then match json response with
                | Fulfilled data => Some (default "undefined" (data !! "contents"))
                | Rejected _ => None
                end
           else match text response with
                | Fulfilled html => Some html
                | Rejected _ => None
                end
  | Rejected _ => None
  end.



(** A page with one styled element. *)
Definition styled_page (style : string) : Document :=
  mkDocument [] [] [] [] [Some style] [].

(** A URL that the detector and the download path treat as a link to
    the video platform. *)
Definition platform_url (u : string) : bool :=
  includes u "youtube.com" || includes u "youtu.be".

(** The descriptors that a detection has in hand before duplicates are
    removed: the one of a platform link, those of the four extractors in
    their order, or the samples. *)
Definition found (env : Env) (t : nat) (pageUrl : string) : list MediaItem :=
  if platform_url pageUrl then MediaDetectionService.handleYouTubeUrl pageUrl
  else
    match page_text env t pageUrl with
    | Some htmlContent =>
        let doc := parseFromString env htmlContent in
        MediaDetectionService.extractImages env doc pageUrl
        ++ MediaDetectionService.extractVideos env doc pageUrl
        ++ MediaDetectionService.extractAudio env doc pageUrl
        ++ MediaDetectionService.extractCSSMedia env doc pageUrl
    | None => MediaDetectionService.getSampleMediaItems
    end.

End Facts.

Module Worlds.
Import JS Browser.

(** The version check finds no yt-dlp. *)
Definition not_installed : Server.OS :=
  Server.mkOS
    (fun _ _ => Server.Child (Server.ProcessError "spawn yt-dlp ENOENT" 2))
    (fun prefix => inl ("/tmp/" +:+ prefix +:+ "a1b2c3"))
    (fun _ => inl [])
    (fun _ => inl 0)
    (fun _ => None)
    (fun _ => Server.End).

(** The browser refuses every request and every click on a link. *)
Definition locked_down : Env :=
  mkEnv (fun _ _ => Rejected Fixtures.failed_to_fetch)
        (fun _ _ _ => Some (mkError "click blocked"))
        (fun _ => Fixtures.empty_document)
        (fun _ _ => None)
        (fun _ => None).

(** Every request is answered with the given text; the page holds no
    media. *)
Definition bare_page : Env :=
  mkEnv (fun _ _ =>
           Fulfilled (mkResponse true 200 "OK" None (Fulfilled ∅)
                                 (Fulfilled "bytes") (Fulfilled "<html></html>")))
        (fun _ _ _ => None)
        (fun _ => Fixtures.empty_document)
        (fun _ _ => None)
        (fun _ => None).

(** A page with one image and one styled element; absolute addresses
    resolve to themselves. *)
Definition gallery : Env :=
  mkEnv (fun _ _ =>
           Fulfilled (mkResponse true 200 "OK" None (Fulfilled ∅)
                                 (Fulfilled "bytes") (Fulfilled "<html>...</html>")))
        (fun _ _ _ => None)
        (fun _ =>
           mkDocument
             [mkImg (Some "https://site.example/a/photo.png") None 640 480]
             [] [] []
             [Some "background-image:url(hero.jpg);clip-path:circle(50%)"]
             [])
        (fun u _ => Some u)
        (fun u =>
           if String.eqb u "https://site.example/a/photo.png"
           then Some "/a/photo.png" else None).

(** A page whose only media is an audio element without [src] that
    holds one [source] element. *)
Definition podcast : Env :=
  mkEnv (fun _ _ =>
           Fulfilled (mkResponse true 200 "OK" None (Fulfilled ∅)
                                 (Fulfilled "bytes") (Fulfilled "<html>...</html>")))
        (fun _ _ _ => None)
        (fun _ =>
           mkDocument [] [] [] [None] []
                      [Some "https://site.example/a/episode.mp3"])
        (fun u _ => Some u)
        (fun _ => None).

(** A page with one image that lies in a directory whose name holds a
    dot. *)
Definition versioned_directory : Env :=
  mkEnv (fun _ _ =>
           Fulfilled (mkResponse true 200 "OK" None (Fulfilled ∅)
                                 (Fulfilled "bytes") (Fulfilled "<html>...</html>")))
        (fun _ _ _ => None)
        (fun _ =>
           mkDocument
             [mkImg (Some "https://cdn.example/v1.2/logo") None 64 64]
             [] [] [] [] [])
        (fun u _ => Some u)
        (fun u =>
           if String.eqb u "https://cdn.example/v1.2/logo"
           then Some "/v1.2/logo" else None).

End Worlds.

(* ================================================================== *)
(** ** Strings, arrays and the matcher *)
(* ================================================================== *)

Section Strings.
Import JS.

Lemma append_cons c (a b : string) : String c a +:+ b = String c (a +:+ b).
Proof. reflexivity. Qed.

Lemma prefix_empty s : String.prefix "" s = true.
Proof. destruct s; reflexivity. Qed.

Lemma prefix_refl s : String.prefix s s = true.
Proof.
  induction s as [|c s IH]; [reflexivity|].
  cbn. destruct (ascii_dec c c); [exact IH | congruence].
Qed.

Lemma prefix_append sub a b :
  String.prefix sub a = true -> String.prefix sub (a +:+ b) = true.
Proof.
  revert a. induction sub as [|c sub IH]; intros a H; [apply prefix_empty|].
  destruct a as [|c' a]; [discriminate|].
  rewrite append_cons. simpl in *. destruct (ascii_dec c c'); [apply IH, H | discriminate].
Qed.

Lemma includes_unfold s sub :
  includes s sub =
    String.prefix sub s
    || match s with
       | EmptyString => false
       | String _ s' => includes s' sub
       end.
Proof. destruct s; reflexivity. Qed.

Lemma includes_here s sub : String.prefix sub s = true -> includes s sub = true.
Proof. intros H. rewrite includes_unfold, H. reflexivity. Qed.

Lemma includes_append_r a b : includes (a +:+ b) b = true.
Proof.
  induction a as [|c a IH].
  - apply includes_here, prefix_refl.
  - rewrite includes_unfold. rewrite append_cons. rewrite IH. apply orb_true_r.
Qed.

Lemma includes_append_l a b sub :
  includes a sub = true -> includes (a +:+ b) sub = true.
Proof.
  induction a as [|c a IH]; rewrite includes_unfold; intros H.
  - rewrite orb_false_r in H. destruct sub; [|discriminate].
    apply includes_here, prefix_empty.
  - apply orb_true_iff in H as [H|H].
    + apply includes_here, prefix_append, H.
    + rewrite includes_unfold. rewrite append_cons. rewrite (IH H).
      apply orb_true_r.
Qed.
End Strings.

Section Arrays.
Import JS.
Context {A : Type}.

Lemma findIndex_none (p : A -> bool) l :
  findIndex p l = None <-> existsb p l = false.
Proof.
  induction l as [|x l IH]; cbn; [tauto|].
  destruct (p x); cbn; [split; discriminate|].
  rewrite <- IH. destruct (findIndex p l); cbn; split; congruence.
Qed.

Lemma findIndex_lt (p : A -> bool) l j :
  findIndex p l = Some j -> j < length l.
Proof.
  revert j. induction l as [|x l IH]; cbn; intros j H; [discriminate|].
  destruct (p x).
  - injection H as <-. lia.
  - destruct (findIndex p l) as [i|]; [|discriminate].
    injection H as <-. specialize (IH i eq_refl). lia.
Qed.

Lemma findIndex_app (p : A -> bool) pre l :
  findIndex p (pre ++ l) =
    match findIndex p pre with
    | Some j => Some j
    | None => option_map (Nat.add (length pre)) (findIndex p l)
    end.
Proof.
  induction pre as [|x pre IH]; cbn.
  - destruct (findIndex p l); reflexivity.
  - destruct (p x); [reflexivity|]. rewrite IH.
    destruct (findIndex p pre); [reflexivity|].
    destruct (findIndex p l); reflexivity.
Qed.

(** An element that satisfies [p] is the first to do so exactly when
    nothing before it does. *)
Lemma is_index_first (p : A -> bool) pre x suf :
  p x = true ->
  is_index (length pre) (findIndex p (pre ++ x :: suf)) = negb (existsb p pre).
Proof.
  intros Hx. rewrite findIndex_app.
  destruct (findIndex p pre) as [j|] eqn:E.
  - assert (existsb p pre = true) as ->.
    { destruct (existsb p pre) eqn:E'; [reflexivity|].
      apply findIndex_none in E'. congruence. }
    apply findIndex_lt in E. cbn. apply Nat.eqb_neq. lia.
  - apply findIndex_none in E. rewrite E. cbn. rewrite Hx. cbn.
    apply Nat.eqb_eq. lia.
Qed.
End Arrays.

Section Matcher.
Import JS.

Lemma search_matches r pos s m :
  search r pos s = Some m ->
  exists pos' s', matches r pos' s' ∅ accept = Some m.
Proof.
  revert pos. induction s as [|a s IH]; intros pos; cbn [search];
    destruct (matches r pos _ ∅ accept) eqn:E; intros H.
  - injection H as <-. eauto.
  - discriminate.
  - injection H as <-. eauto.
  - eapply IH, H.
Qed.

(** What [C*] consumes is a prefix whose characters are all in [C]. *)
Lemma star_consumes cs pos s c k m :
  star cs pos s c k = Some m ->
  exists pre rest,
    s = pre +:+ rest /\ forallb cs (chars pre) = true
    /\ k (pos + String.length pre) rest c = Some m.
Proof.
  revert pos. induction s as [|a s IH]; intros pos; cbn [star].
  - intros H. exists "", "". rewrite Nat.add_0_r. auto.
  - destruct (cs a) eqn:Ea.
    + destruct (star cs (S pos) s c k) eqn:Es.
      * intros [= ->]. apply IH in Es as (pre & rest & -> & Hpre & Hk).
        exists (String a pre), rest. split; [reflexivity|]. split.
        { cbn [chars list_ascii_of_string forallb]. rewrite Ea. exact Hpre. }
        cbn [String.length].
        replace (pos + S (String.length pre)) with (S pos + String.length pre)
          by lia.
        exact Hk.
      * intros H. exists "", (String a s). rewrite Nat.add_0_r. auto.
    + intros H. exists "", (String a s). rewrite Nat.add_0_r. auto.
Qed.

Lemma substring_prefix pre rest :
  substring 0 (String.length pre) (pre +:+ rest) = pre.
Proof.
  induction pre as [|a pre IH]; cbn.
  - destruct rest; reflexivity.
  - rewrite append_cons. cbn. rewrite IH. reflexivity.
Qed.

Lemma none_of_dot_free e :
  forallb (none_of ".") (chars e) = true -> includes e "." = false.
Proof.
  induction e as [|a e IH]; [reflexivity|].
  cbn [chars list_ascii_of_string forallb]. intros H.
  apply andb_true_iff in H as [Ha He].
  rewrite includes_unfold, (IH He), orb_false_r.
  unfold none_of, one_of in Ha. cbn in Ha. rewrite orb_false_r in Ha.
  apply negb_true_iff, Ascii.eqb_neq in Ha.
  change (String.prefix "." (String a e))
    with (if ascii_dec "." a then String.prefix "" e else false).
  destruct (ascii_dec "." a); [congruence | reflexivity].
Qed.
End Matcher.

(* ================================================================== *)
(** ** Reasoning about promises *)
(* ================================================================== *)

Section Promises.
Import Browser Props.
Context {A B : Type}.
Variable P : event -> Prop.

Lemma emits_ret (a : A) : emits P (ret a).
Proof. intros t r evs [= <- <-]. constructor. Qed.

Lemma emits_throw (e : Error) : emits P (@throw A e).
Proof. intros t r evs [= <- <-]. constructor. Qed.

Lemma emits_await (r : result A) : emits P (await r).
Proof. intros t r' evs [= <- <-]. constructor. Qed.

Lemma emits_emit ev : P ev -> emits P (emit ev).
Proof. intros H t r evs [= <- <-]. repeat constructor. exact H. Qed.

Lemma emits_bind (m : M A) (k : A -> M B) :
  emits P m -> (forall a, emits P (k a)) -> emits P (bind m k).
Proof.
  intros Hm Hk t r evs. unfold bind.
  destruct (m t) as [[a|e] evs1] eqn:E1.
  - destruct (k a (t + length evs1)) as [r2 evs2] eqn:E2.
    intros [= <- <-]. apply Forall_app. split.
    + exact (Hm _ _ _ E1).
    + exact (Hk _ _ _ _ E2).
  - intros [= <- <-]. exact (Hm _ _ _ E1).
Qed.

Lemma emits_try_catch (m : M A) (h : Error -> M A) :
  emits P m -> (forall e, emits P (h e)) -> emits P (try_catch m h).
Proof.
  intros Hm Hh t r evs. unfold try_catch.
  destruct (m t) as [[a|e] evs1] eqn:E1.
  - intros [= <- <-]. exact (Hm _ _ _ E1).
  - destruct (h e (t + length evs1)) as [r2 evs2] eqn:E2.
    intros [= <- <-]. apply Forall_app. split.
    + exact (Hm _ _ _ E1).
    + exact (Hh _ _ _ _ E2).
Qed.

Lemma emits_if (b : bool) (m1 m2 : M A) :
  emits P m1 -> emits P m2 -> emits P (if b then m1 else m2).
Proof. destruct b; auto. Qed.
End Promises.

Section Inversion.
Import Browser.
Context {A B : Type}.

Lemma bind_fulfilled (m : M A) (k : A -> M B) t b evs :
  bind m k t = (Fulfilled b, evs) ->
  exists a evs1 evs2,
    m t = (Fulfilled a, evs1)
    /\ k a (t + length evs1) = (Fulfilled b, evs2)
    /\ evs = evs1 ++ evs2.
Proof.
  unfold bind. destruct (m t) as [[a|e] evs1]; [|discriminate].
  destruct (k a (t + length evs1)) as [r evs2] eqn:E.
  intros [= -> <-]. eauto 6.
Qed.
End Inversion.

Section Resolving.
Import Browser Props.
Context {A : Type}.

Lemma resolves_ret (a : A) : resolves (ret a).
Proof. intros t. eexists _, _. reflexivity. Qed.

Lemma resolves_emit ev : resolves (emit ev).
Proof. intros t. eexists _, _. reflexivity. Qed.

Lemma resolves_try_catch (m : M A) (h : Error -> M A) :
  (forall e, resolves (h e)) -> resolves (try_catch m h).
Proof.
  intros Hh t. unfold try_catch. destruct (m t) as [[a|e] evs].
  - eexists _, _. reflexivity.
  - destruct (Hh e (t + length evs)) as (a & evs' & ->).
    eexists _, _. reflexivity.
Qed.

(** A computation that resolves is not disturbed by the handler that
    [try_catch] wraps around it. *)
Lemma try_catch_resolved (m : M A) (h : Error -> M A) t a evs :
  m t = (Fulfilled a, evs) -> try_catch m h t = (Fulfilled a, evs).
Proof. unfold try_catch. intros ->. reflexivity. Qed.

Lemma try_catch_rejected (m : M A) (h : Error -> M A) t e evs :
  m t = (Rejected e, evs) ->
  try_catch m h t = (fst (h e (t + length evs)), evs ++ snd (h e (t + length evs))).
Proof.
  unfold try_catch. intros ->. destruct (h e (t + length evs)). reflexivity.
Qed.
End Resolving.

Section Effects.
Import JS Browser Props DownloadService.
Variable env : Env.

Lemma emits_fetch P r : P (Fetch r) -> emits P (fetch env r).
Proof. intros H t r' evs [= <- <-]. repeat constructor. exact H. Qed.

Lemma emits_saveAs P b name : P (SaveAs b name) -> emits P (saveAs b name).
Proof. apply emits_emit. Qed.

Lemma emits_anchor P href name :
  P (AnchorClick href name) -> emits P (anchor_download env href name).
Proof.
  intros H t r evs. unfold anchor_download.
  destruct (anchor_click env t href name); intros [= <- <-];
    repeat constructor; exact H.
Qed.
End Effects.

(** One step of the proof that a computation only causes events of a
    given kind. *)
Ltac emits_step :=
  first
    [ apply emits_bind; [| intros ?]
    | apply emits_try_catch; [| intros ?]
    | apply emits_if
    | apply emits_ret
    | apply emits_throw
    | apply emits_await
    | apply emits_fetch; exact I
    | apply emits_saveAs; exact I
    | apply emits_emit; exact I
    | apply emits_anchor; exact I ].

(* ================================================================== *)
(** ** The strategy chain of the embedded-video path *)
(* ================================================================== *)

Section Services.
Import JS Browser Props DownloadService.
Variable env : Env.

Lemma service1_transfers item : emits transfer (service1 env item).
Proof. unfold service1. repeat emits_step. Qed.

Lemma web_service_transfers endpoint field item :
  emits transfer (web_service env endpoint field item).
Proof. unfold web_service. repeat emits_step. Qed.
End Services.

Section Loop.
Import JS Browser Props DownloadService.

Lemma try_services_rejected service rest i last t e evs :
  service (t + 1) = (Rejected e, evs) ->
  try_services (service :: rest) i last t =
    (fst (try_services rest (S i) (Some e) (t + length evs + 2)),
     [ConsoleLog (trying (i + 1))] ++ evs ++ [ConsoleLog (failed (i + 1))]
     ++ snd (try_services rest (S i) (Some e) (t + length evs + 2))).
Proof.
  intros H. cbn [try_services]. unfold bind, try_catch, console_log, emit, ret.
  cbn [length]. rewrite H. cbn [length app]. rewrite !length_app. cbn [length].
  replace (t + S (length evs + 1)) with (t + length evs + 2) by lia.
  destruct (try_services rest (S i) (Some e) (t + length evs + 2)) as [r evs'].
  cbn. rewrite <- !app_assoc. reflexivity.
Qed.

Lemma try_services_fulfilled service rest i last t evs :
  service (t + 1) = (Fulfilled tt, evs) ->
  try_services (service :: rest) i last t =
    (Fulfilled tt,
     [ConsoleLog (trying (i + 1))] ++ evs ++ [ConsoleLog (succeeded (i + 1))]).
Proof.
  intros H. cbn [try_services]. unfold bind, try_catch, console_log, emit, ret.
  cbn [length]. rewrite H. cbn. rewrite !app_nil_r. reflexivity.
Qed.

Lemma try_services_exhausted i last t :
  try_services [] i last t =
    (Rejected (mkError (install_hint +:+ message_of last)), []).
Proof. reflexivity. Qed.
End Loop.

Section ChainTheorems.
Import JS Browser Props DownloadService.

Lemma attempted_app evs1 evs2 :
  attempted (evs1 ++ evs2) = attempted evs1 ++ attempted evs2.
Proof. apply omap_app. Qed.

Lemma attempted_transfer evs : Forall transfer evs -> attempted evs = [].
Proof.
  induction 1 as [|ev evs Hev _ IH]; [reflexivity|].
  destruct ev; try contradiction; exact IH.
Qed.

Lemma attempted_service1 env item t r evs :
  service1 env item t = (r, evs) -> attempted evs = [].
Proof. intros H. eapply attempted_transfer, service1_transfers, H. Qed.

Lemma attempted_web_service env endpoint field item t r evs :
  web_service env endpoint field item t = (r, evs) -> attempted evs = [].
Proof. intros H. eapply attempted_transfer, web_service_transfers, H. Qed.

(** Whatever the world does, the chain announces strategy 1, then 2,
    then 3, and stops at the first that succeeds. *)
Lemma strategies_in_order env item videoId t :
  let evs := snd (downloadYouTubeVideo env item videoId t) in
  attempted evs = [1] \/ attempted evs = [1; 2] \/ attempted evs = [1; 2; 3].
Proof.
  unfold downloadYouTubeVideo, downloadServices.
  destruct (service1 env item (t + 1)) as [[[]|e1] evs1] eqn:E1.
  { left. rewrite (try_services_fulfilled _ _ _ _ _ _ E1). cbn [snd].
    rewrite !attempted_app, (attempted_service1 _ _ _ _ _ E1). reflexivity. }
  rewrite (try_services_rejected _ _ _ _ _ _ _ E1). cbn [snd].
  rewrite !attempted_app, (attempted_service1 _ _ _ _ _ E1).
  destruct (service2 env item (t + length evs1 + 2 + 1)) as [[[]|e2] evs2] eqn:E2.
  { right; left. rewrite (try_services_fulfilled _ _ _ _ _ _ E2). cbn [snd].
    rewrite !attempted_app, (attempted_web_service _ _ _ _ _ _ _ E2).
    reflexivity. }
  rewrite (try_services_rejected _ _ _ _ _ _ _ E2). cbn [snd].
  rewrite !attempted_app, (attempted_web_service _ _ _ _ _ _ _ E2).
  right; right.
  destruct (service3 env item (t + length evs1 + 2 + length evs2 + 2 + 1))
    as [[[]|e3] evs3] eqn:E3.
  - rewrite (try_services_fulfilled _ _ _ _ _ _ E3). cbn [snd].
    rewrite !attempted_app, (attempted_web_service _ _ _ _ _ _ _ E3).
    reflexivity.
  - rewrite (try_services_rejected _ _ _ _ _ _ _ E3). cbn [snd].
    rewrite !attempted_app, (attempted_web_service _ _ _ _ _ _ _ E3).
    reflexivity.
Qed.

(** C1. When the local backend (strategy 1) fails and the first web API
    (strategy 2) succeeds, [downloadYouTubeVideo] resolves; its events are
    those of strategy 1, then those of strategy 2, and nothing after the
    success line, so that strategy 3 is not invoked. In every world the
    strategies are announced in the order 1, 2, 3. *)
Theorem chain_short_circuits env item videoId t e1 evs1 evs2 :
  service1 env item (t + 1) = (Rejected e1, evs1) ->
  service2 env item (t + length evs1 + 3) = (Fulfilled tt, evs2) ->
  downloadYouTubeVideo env item videoId t =
    (Fulfilled tt,
     [ConsoleLog (trying 1)] ++ evs1
     ++ [ConsoleLog (failed 1); ConsoleLog (trying 2)] ++ evs2
     ++ [ConsoleLog (succeeded 2)])
  /\ attempted (snd (downloadYouTubeVideo env item videoId t)) = [1; 2]
  /\ forall env' t',
       let evs := snd (downloadYouTubeVideo env' item videoId t') in
       attempted evs = [1] \/ attempted evs = [1; 2]
       \/ attempted evs = [1; 2; 3].
Proof.
  intros H1 H2.
  assert (Hrun : downloadYouTubeVideo env item videoId t =
    (Fulfilled tt,
     [ConsoleLog (trying 1)] ++ evs1
     ++ [ConsoleLog (failed 1); ConsoleLog (trying 2)] ++ evs2
     ++ [ConsoleLog (succeeded 2)])).
  { unfold downloadYouTubeVideo, downloadServices.
    rewrite (try_services_rejected _ _ _ _ _ _ _ H1).
    replace (t + length evs1 + 3) with (t + length evs1 + 2 + 1) in H2 by lia.
    rewrite (try_services_fulfilled _ _ _ _ _ _ H2). reflexivity. }
  split; [exact Hrun|]. split.
  - rewrite Hrun. cbn [snd]. rewrite !attempted_app.
    rewrite (attempted_service1 _ _ _ _ _ H1).
    rewrite (attempted_web_service _ _ _ _ _ _ _ H2). reflexivity.
  - intros env' t'. apply strategies_in_order.
Qed.

(** C2. When all three strategies fail, [downloadYouTubeVideo] rejects
    with one composite error: the installation hint for yt-dlp followed
    by the message of the error of the last strategy. *)
Theorem chain_exhausted env item videoId t e1 e2 e3 evs1 evs2 evs3 :
  service1 env item (t + 1) = (Rejected e1, evs1) ->
  service2 env item (t + length evs1 + 3) = (Rejected e2, evs2) ->
  service3 env item (t + length evs1 + length evs2 + 5) = (Rejected e3, evs3) ->
  exists evs,
    downloadYouTubeVideo env item videoId t =
      (Rejected (mkError (install_hint +:+ message e3)), evs)
    /\ includes (install_hint +:+ message e3) (message e3) = true
    /\ includes (install_hint +:+ message e3)
                "please install yt-dlp (pip install yt-dlp)" = true
    /\ attempted evs = [1; 2; 3].
Proof.
  intros H1 H2 H3.
  replace (t + length evs1 + 3) with (t + length evs1 + 2 + 1) in H2 by lia.
  replace (t + length evs1 + length evs2 + 5)
    with (t + length evs1 + 2 + length evs2 + 2 + 1) in H3 by lia.
  eexists. split; [|split; [|split]].
  - unfold downloadYouTubeVideo, downloadServices.
    rewrite (try_services_rejected _ _ _ _ _ _ _ H1).
    rewrite (try_services_rejected _ _ _ _ _ _ _ H2).
    rewrite (try_services_rejected _ _ _ _ _ _ _ H3).
    rewrite try_services_exhausted. cbn [fst snd message_of]. reflexivity.
  - apply includes_append_r.
  - apply includes_append_l. vm_compute. reflexivity.
  - rewrite !attempted_app.
    rewrite (attempted_service1 _ _ _ _ _ H1).
    rewrite (attempted_web_service _ _ _ _ _ _ _ H2).
    rewrite (attempted_web_service _ _ _ _ _ _ _ H3). reflexivity.
Qed.
End ChainTheorems.

Section ChainRuns.
Import JS Browser Props Fixtures DownloadService.

(** The chain when the local backend is not running. *)
Lemma chain_short_circuits_witness :
  fst (downloadYouTubeVideo backend_down rick "dQw4w9WgXcQ" 0) = Fulfilled tt
  /\ attempted (snd (downloadYouTubeVideo backend_down rick "dQw4w9WgXcQ" 0))
     = [1; 2].
Proof.
  edestruct (chain_short_circuits backend_down rick "dQw4w9WgXcQ" 0)
    as (Hrun & Hattempted & _).
  - vm_compute. reflexivity.
  - vm_compute. reflexivity.
  - split; [rewrite Hrun; reflexivity | exact Hattempted].
Defined.

(** The chain without any network. *)
Lemma chain_exhausted_witness :
  exists evs,
    downloadYouTubeVideo offline rick "dQw4w9WgXcQ" 0
      = (Rejected (mkError (install_hint +:+ "Failed to fetch")), evs)
    /\ includes (install_hint +:+ "Failed to fetch") "Failed to fetch" = true
    /\ includes (install_hint +:+ "Failed to fetch")
                "please install yt-dlp (pip install yt-dlp)" = true
    /\ attempted evs = [1; 2; 3].
Proof.
  eapply (chain_exhausted offline rick "dQw4w9WgXcQ" 0
                          failed_to_fetch failed_to_fetch failed_to_fetch);
    vm_compute; reflexivity.
Defined.
End ChainRuns.

(* ================================================================== *)
(** ** The result of a detection *)
(* ================================================================== *)

Section Dedup.
Import JS Browser Props MediaDetectionService.

Lemma existsb_url (x : MediaItem) pre :
  existsb (fun t => String.eqb (url t) (url x)) pre
  = existsb (String.eqb (url x)) (map url pre).
Proof.
  induction pre as [|y pre IH]; cbn; [reflexivity|].
  rewrite IH, (String.eqb_sym (url y)). reflexivity.
Qed.

Lemma filter_from_first_seen pre suf seen :
  same_members seen (map url pre) ->
  filter_from
    (fun item index =>
       is_index index
         (findIndex (fun t => String.eqb (url t) (url item)) (pre ++ suf)))
    (length pre) suf
  = first_seen seen suf.
Proof.
  revert pre seen. induction suf as [|x suf IH]; intros pre seen Hs;
    [reflexivity|].
  cbn [filter_from first_seen].
  rewrite is_index_first by apply String.eqb_refl.
  rewrite existsb_url, <- Hs.
  assert (Hcut : pre ++ x :: suf = (pre ++ [x]) ++ suf)
    by (rewrite <- app_assoc; reflexivity).
  assert (Hlen : S (length pre) = length (pre ++ [x]))
    by (rewrite length_app; cbn; lia).
  destruct (existsb (String.eqb (url x)) seen) eqn:E; cbn [negb].
  - rewrite Hcut, Hlen. apply IH.
    intros u. rewrite map_app, existsb_app, <- Hs. cbn.
    destruct (String.eqb u (url x)) eqn:Eu.
    + apply String.eqb_eq in Eu. subst u. rewrite E. reflexivity.
    + rewrite !orb_false_r. reflexivity.
  - f_equal. rewrite Hcut, Hlen. apply IH.
    intros u. rewrite map_app, existsb_app, <- Hs. cbn.
    rewrite orb_false_r. apply orb_comm.
Qed.

(** The filter of [detectMedia] is deduplication by URL that keeps the
    first occurrence. *)
Lemma uniqueMedia_first_seen mediaItems :
  uniqueMedia mediaItems = first_seen [] mediaItems.
Proof.
  unfold uniqueMedia, filter_indexed.
  apply (filter_from_first_seen [] mediaItems []). intros u. reflexivity.
Qed.

Lemma first_seen_fresh seen l u :
  u ∈ map url (first_seen seen l) -> existsb (String.eqb u) seen = false.
Proof.
  revert seen. induction l as [|x l IH]; intros seen H; cbn in H.
  - inversion H.
  - destruct (existsb (String.eqb (url x)) seen) eqn:E; [auto|].
    cbn in H. apply elem_of_cons in H as [->|H]; [exact E|].
    apply IH in H. cbn in H. apply orb_false_iff in H. tauto.
Qed.

Lemma first_seen_NoDup seen l : NoDup (map url (first_seen seen l)).
Proof.
  revert seen. induction l as [|x l IH]; intros seen; cbn.
  - constructor.
  - destruct (existsb (String.eqb (url x)) seen); [apply IH|].
    cbn. constructor; [|apply IH].
    intros H. apply first_seen_fresh in H. cbn in H.
    rewrite String.eqb_refl in H. discriminate.
Qed.

Lemma first_seen_sublist seen l : first_seen seen l `sublist_of` l.
Proof.
  revert seen. induction l as [|x l IH]; intros seen; cbn.
  - constructor.
  - destruct (existsb (String.eqb (url x)) seen).
    + apply sublist_cons, IH.
    + apply sublist_skip, IH.
Qed.
End Dedup.

Section Names.
Import JS Browser Props MediaDetectionService.
Variable env : Env.

(** The extension that [/\.([^.]+)$/] captures is free of dots. *)
Lemma getFileExtension_dot_free u e :
  getFileExtension env u = Some e -> includes e "." = false.
Proof.
  unfold getFileExtension.
  destruct (URL_pathname env u) as [pathname|]; [|discriminate].
  destruct (str_match pathname extension_pattern) as [m|] eqn:E;
    [|discriminate].
  intros Hg. apply search_matches in E as (pos & s & E).
  cbn [extension_pattern rseq matches] in E.
  change (String.length ".") with 1 in E.
  destruct (String.prefix "." s); [|discriminate].
  destruct (substring 1 (String.length s - 1) s) as [|a s1] eqn:Es1;
    [discriminate|].
  destruct (none_of "." a) eqn:Ea; [|discriminate].
  apply star_consumes in E as (pre & rest & -> & Hpre & E).
  destruct rest; [|discriminate]. injection E as <-.
  unfold group, captures in Hg. rewrite lookup_insert_eq in Hg.
  injection Hg as <-.
  cbn [substring].
  replace (S (pos + 1 + String.length pre) - (pos + 1))
    with (S (String.length pre)) by lia.
  rewrite substring_prefix.
  apply none_of_dot_free. cbn. rewrite Ea. exact Hpre.
Qed.

Lemma or_else_nonempty a d : d <> "" -> or_else a d <> "".
Proof.
  unfold or_else, truthy. destruct (String.eqb a "") eqn:E; cbn; [auto|].
  intros _. apply String.eqb_neq, E.
Qed.

Lemma dotted_name_intro stem o d :
  stem <> "" -> d <> "" -> includes d "." = false ->
  (forall e, o = Some e -> includes e "." = false) ->
  dotted_name (stem +:+ "." +:+ opt_or_else o d).
Proof.
  intros Hstem Hd Hdot Ho. exists stem, (opt_or_else o d).
  split; [reflexivity|]. split; [exact Hstem|].
  destruct o as [e|]; cbn; [|auto].
  split; [apply or_else_nonempty, Hd|].
  unfold or_else. destruct (truthy e); auto.
Qed.

Lemma dotted_name_nonempty name : dotted_name name -> name <> "".
Proof.
  intros (stem & ext & -> & Hstem & _). destruct stem; [congruence|].
  rewrite append_cons. discriminate.
Qed.

Lemma extractFilename_nonempty u : extractFilename env u <> "".
Proof.
  unfold extractFilename. destruct (URL_pathname env u); [|discriminate].
  apply or_else_nonempty. discriminate.
Qed.

Ltac named :=
  apply dotted_name_intro;
  [ apply or_else_nonempty; discriminate
  | discriminate
  | reflexivity
  | intros e He; first [exact (getFileExtension_dot_free _ _ He) | discriminate] ].

Lemma extractImages_named doc baseUrl :
  Forall well_named (extractImages env doc baseUrl).
Proof.
  unfold extractImages. apply Forall_flat_map, Forall_forall. intros img _.
  destruct (or_null _ _) as [src|]; [|constructor].
  destruct (truthy src); repeat constructor. unfold well_named. cbn. named.
Qed.

Lemma push_video_named src baseUrl :
  Forall well_named (push_video env src baseUrl).
Proof.
  unfold push_video. destruct src as [s|]; [|constructor].
  destruct (truthy s); repeat constructor. unfold well_named. cbn. named.
Qed.

Lemma extractVideos_named doc baseUrl :
  Forall well_named (extractVideos env doc baseUrl).
Proof.
  unfold extractVideos. apply Forall_app. split.
  - apply Forall_flat_map, Forall_forall. intros v _. apply Forall_app. split.
    + apply push_video_named.
    + apply Forall_flat_map, Forall_forall. intros s _. apply push_video_named.
  - apply Forall_flat_map, Forall_forall. intros src _.
    destruct src as [s|]; [|constructor].
    destruct (_ && _); repeat constructor. unfold well_named. cbn.
    apply (dotted_name_intro _ None "mp4").
    + apply or_else_nonempty. discriminate.
    + discriminate.
    + reflexivity.
    + intros e He. discriminate He.
Qed.

Lemma extractAudio_named doc baseUrl :
  Forall well_named (extractAudio env doc baseUrl).
Proof.
  unfold extractAudio. apply Forall_flat_map, Forall_forall. intros src _.
  destruct src as [s|]; [|constructor].
  destruct (truthy s); repeat constructor. unfold well_named. cbn. named.
Qed.

Lemma extractCSSMedia_named doc baseUrl :
  Forall well_named (extractCSSMedia env doc baseUrl).
Proof.
  unfold extractCSSMedia. apply Forall_flat_map, Forall_forall. intros attr _.
  destruct (str_match _ _); repeat constructor. unfold well_named. cbn. named.
Qed.

Lemma handleYouTubeUrl_named u : Forall well_named (handleYouTubeUrl u).
Proof.
  unfold handleYouTubeUrl. repeat constructor. unfold well_named.
  cbn [filename].
  apply (dotted_name_intro _ None "mp4").
  - destruct (extractYouTubeId u) as [id|]; [|discriminate].
    destruct (truthy id); [|discriminate].
    change ("youtube_" +:+ id) with (String "y" ("outube_" +:+ id)).
    discriminate.
  - discriminate.
  - reflexivity.
  - intros e He. discriminate He.
Qed.

Lemma getSampleMediaItems_named : Forall well_named getSampleMediaItems.
Proof.
  unfold getSampleMediaItems, well_named. repeat constructor; cbn.
  - exists "sample-image-1", "jpg". repeat split; discriminate.
  - exists "sample-image-2", "jpg". repeat split; discriminate.
  - exists "sample-video", "mp4". repeat split; discriminate.
  - exists "sample-audio", "wav". repeat split; discriminate.
  - exists "sample-image-3", "jpg". repeat split; discriminate.
Qed.
End Names.

Section DetectionResult.
Import JS Browser Props MediaDetectionService.
Variable env : Env.

(** [detectMedia] never rejects, and what it resolves to comes from one
    of three places. *)
Lemma detectMedia_cases pageUrl t :
  exists items evs,
    detectMedia env pageUrl t = (Fulfilled items, evs)
    /\ (items = handleYouTubeUrl pageUrl
        \/ items = getSampleMediaItems
        \/ exists doc,
             items = uniqueMedia (extractImages env doc pageUrl
                                  ++ extractVideos env doc pageUrl
                                  ++ extractAudio env doc pageUrl
                                  ++ extractCSSMedia env doc pageUrl)).
Proof.
  unfold detectMedia.
  destruct (includes pageUrl "youtube.com" || includes pageUrl "youtu.be").
  { eexists _, _. split; [reflexivity|]. left. reflexivity. }
  unfold try_catch.
  match goal with |- context [?body t] =>
    destruct (body t) as [[items|e] evs] eqn:E end.
  - eexists _, _. split; [reflexivity|]. right; right.
    apply bind_fulfilled in E as (response & ? & ? & _ & E & _).
    apply bind_fulfilled in E as (? & ? & ? & _ & E & _).
    apply bind_fulfilled in E as (htmlContent & ? & ? & _ & E & _).
    injection E as <- _. eauto.
  - eexists _, _. split; [reflexivity|]. right; left. reflexivity.
Qed.

Lemma getSampleMediaItems_NoDup : NoDup (map url getSampleMediaItems).
Proof. apply (bool_decide_unpack _). vm_compute. reflexivity. Qed.

Lemma first_seen_Forall (P : MediaItem -> Prop) seen l :
  Forall P l -> Forall P (first_seen seen l).
Proof.
  rewrite !Forall_forall. intros H x Hx.
  apply H, (elem_of_sublist _ _ _ Hx), first_seen_sublist.
Qed.
End DetectionResult.

(* ================================================================== *)
(** ** The two video-ID extractors *)
(* ================================================================== *)

Section Extractors.
Import JS Browser Props Fixtures.

Lemma accepted_length m n id :
  accepted m n = Some id ->
  truthy id = true /\ (String.length id = 10 \/ String.length id = 11).
Proof.
  unfold accepted. destruct m as [c|]; [|discriminate].
  destruct (group c n) as [s|]; [|discriminate].
  destruct (truthy s) eqn:Et; [|discriminate]. cbn.
  destruct (Nat.eqb (String.length s) 11) eqn:E11.
  - intros [= <-]. apply Nat.eqb_eq in E11. auto.
  - destruct (Nat.eqb (String.length s) 10) eqn:E10; [|discriminate].
    intros [= <-]. apply Nat.eqb_eq in E10. auto.
Qed.

Lemma first_accepted_length patterns u id :
  first_accepted patterns u = Some id ->
  truthy id = true /\ (String.length id = 10 \/ String.length id = 11).
Proof.
  induction patterns as [|p ps IH]; cbn; [discriminate|].
  destruct (accepted _ 1) as [id'|] eqn:E; [|exact IH].
  intros [= <-]. eapply accepted_length, E.
Qed.

(** An ID accepted on a list of patterns is accepted on any extension
    of that list. *)
Lemma first_accepted_app ps qs u id :
  first_accepted ps u = Some id -> first_accepted (ps ++ qs) u = Some id.
Proof.
  induction ps as [|p ps IH]; cbn; [discriminate|].
  destruct (accepted _ 1); auto.
Qed.

Lemma download_patterns_extend :
  DownloadService.patterns = MediaDetectionService.patterns ++ drop 4 DownloadService.patterns.
Proof. reflexivity. Qed.

Lemma detector_id_accepted_downstream url id :
  MediaDetectionService.extractYouTubeId url = Some id ->
  DownloadService.extractYouTubeId url = Fulfilled id.
Proof.
  unfold MediaDetectionService.extractYouTubeId,
    DownloadService.extractYouTubeId.
  intros H. rewrite download_patterns_extend, (first_accepted_app _ _ _ _ H).
  reflexivity.
Qed.

(** The download path fails only where the detector finds no ID. *)
Lemma download_failure_is_detector_failure url e :
  DownloadService.extractYouTubeId url = Rejected e ->
  MediaDetectionService.extractYouTubeId url = None.
Proof.
  intros H.
  destruct (MediaDetectionService.extractYouTubeId url) as [id|] eqn:E;
    [|reflexivity].
  apply detector_id_accepted_downstream in E. congruence.
Qed.

(** C5, as amended. The two extractors clean the URL in the same way,
    apply the same acceptance test and share their first four patterns:
    an ID that the detector extracts is the ID that the download path
    extracts, and it is 10 or 11 characters long. The download path has
    seven more patterns and a catch-all, so the converse fails. *)
Theorem detector_id_is_download_id url id :
  MediaDetectionService.extractYouTubeId url = Some id ->
  DownloadService.extractYouTubeId url = Fulfilled id
  /\ (String.length id = 10 \/ String.length id = 11).
Proof.
  intros H. split; [apply detector_id_accepted_downstream, H|].
  eapply first_accepted_length, H.
Qed.

(** Both extractors on a watch link. *)
Lemma detector_id_is_download_id_witness :
  DownloadService.extractYouTubeId "https://www.youtube.com/watch?v=dQw4w9WgXcQ"
    = Fulfilled "dQw4w9WgXcQ"
  /\ (String.length "dQw4w9WgXcQ" = 10 \/ String.length "dQw4w9WgXcQ" = 11).
Proof.
  apply (detector_id_is_download_id
           "https://www.youtube.com/watch?v=dQw4w9WgXcQ" "dQw4w9WgXcQ").
  vm_compute. reflexivity.
Defined.

(** The claim of C5 fails on a shorts link: the detector finds no ID,
    the download path does. *)
Lemma extractors_differ_on_shorts :
  MediaDetectionService.extractYouTubeId "https://www.youtube.com/shorts/abcdefghijk" = None
  /\ DownloadService.extractYouTubeId "https://www.youtube.com/shorts/abcdefghijk"
     = Fulfilled "abcdefghijk".
Proof. split; vm_compute; reflexivity. Qed.

(** The download path tries its eleven patterns in order, then the
    catch-all, and throws when neither gives an accepted capture. *)
Lemma download_extractor_strategy url :
  DownloadService.extractYouTubeId url =
    match first_accepted DownloadService.patterns (cleanUrl url) with
    | Some id => Fulfilled id
    | None =>
        match accepted (str_match (cleanUrl url) DownloadService.regExp) 2 with
        | Some id => Fulfilled id
        | None =>
            Rejected (mkError ("Could not extract YouTube ID from URL: " +:+ url))
        end
    end.
Proof.
  unfold DownloadService.extractYouTubeId.
  destruct (first_accepted DownloadService.patterns (cleanUrl url)) as [id|];
    [reflexivity|].
  destruct (accepted _ 2) as [id|] eqn:E; [|reflexivity].
  apply accepted_length in E as [-> _]. reflexivity.
Qed.

(** What the download path returns is 10 or 11 characters long. *)
Lemma download_extractor_length url id :
  DownloadService.extractYouTubeId url = Fulfilled id ->
  String.length id = 10 \/ String.length id = 11.
Proof.
  rewrite download_extractor_strategy.
  destruct (first_accepted DownloadService.patterns (cleanUrl url)) as [id'|] eqn:E.
  - intros [= <-]. eapply first_accepted_length, E.
  - destruct (accepted _ 2) as [id'|] eqn:E2; [|discriminate].
    intros [= <-]. eapply accepted_length, E2.
Qed.

(** C4, as amended. For a page URL that contains youtube.com or
    youtu.be the detector tries its four patterns in order and accepts
    the first capture of length 10 or 11; it has no catch-all retry and
    it does not fail: detection resolves, without any request, to one
    video descriptor for the page URL, named after the ID and with the
    thumbnail of the ID when one was accepted, and named youtube_video.mp4
    without thumbnail otherwise. The ordered list followed by a catch-all
    and by an error is the strategy of the download path. *)
Theorem detector_resolves_platform_urls env pageUrl t :
  includes pageUrl "youtube.com" || includes pageUrl "youtu.be" = true ->
  (exists item,
     MediaDetectionService.detectMedia env pageUrl t = (Fulfilled [item], [])
     /\ url item = pageUrl /\ type item = video
     /\ match first_accepted MediaDetectionService.patterns (cleanUrl pageUrl) with
        | Some id =>
            (String.length id = 10 \/ String.length id = 11)
            /\ filename item = ("youtube_" +:+ id) +:+ ".mp4"
            /\ thumbnail item =
                 Some ("https://img.youtube.com/vi/" +:+ id
                       +:+ "/maxresdefault.jpg")
        | None =>
            filename item = "youtube_video.mp4" /\ thumbnail item = None
        end)
  /\ DownloadService.extractYouTubeId pageUrl =
       match first_accepted DownloadService.patterns (cleanUrl pageUrl) with
       | Some id => Fulfilled id
       | None =>
           match accepted (str_match (cleanUrl pageUrl) DownloadService.regExp) 2
           with
           | Some id => Fulfilled id
           | None =>
               Rejected (mkError ("Could not extract YouTube ID from URL: "
                                  +:+ pageUrl))
           end
       end.
Proof.
  intros H. split; [|apply download_extractor_strategy].
  unfold MediaDetectionService.detectMedia. rewrite H.
  eexists. split; [reflexivity|]. split; [reflexivity|].
  split; [reflexivity|]. cbn [filename thumbnail].
  unfold MediaDetectionService.extractYouTubeId.
  destruct (first_accepted MediaDetectionService.patterns (cleanUrl pageUrl))
    as [id|] eqn:E.
  - apply first_accepted_length in E as [-> Hl]. auto.
  - split; reflexivity.
Qed.

(** Detection of a short link. *)
Lemma detector_resolves_platform_urls_witness :
  exists item,
    MediaDetectionService.detectMedia offline "https://youtu.be/dQw4w9WgXcQ" 0
      = (Fulfilled [item], [])
    /\ filename item = "youtube_dQw4w9WgXcQ.mp4".
Proof.
  destruct (detector_resolves_platform_urls
              offline "https://youtu.be/dQw4w9WgXcQ" 0)
    as [(item & Hrun & _ & _ & Hname) _].
  - vm_compute. reflexivity.
  - exists item. split; [exact Hrun|].
    change (first_accepted MediaDetectionService.patterns
                           (cleanUrl "https://youtu.be/dQw4w9WgXcQ"))
      with (Some "dQw4w9WgXcQ") in Hname.
    exact (proj1 (proj2 Hname)).
Defined.

(** The claim of C4 fails on a short link with a time offset: the four
    patterns of the detector do not resolve it, no catch-all is tried
    (that of the download path does resolve it), and detection succeeds
    with the placeholder name. *)
Lemma detector_placeholder_instead_of_failure :
  includes "https://youtu.be/dQw4w9WgXcQ?t=10" "youtu.be" = true
  /\ MediaDetectionService.extractYouTubeId "https://youtu.be/dQw4w9WgXcQ?t=10" = None
  /\ DownloadService.extractYouTubeId "https://youtu.be/dQw4w9WgXcQ?t=10"
     = Fulfilled "dQw4w9WgXcQ"
  /\ MediaDetectionService.detectMedia offline "https://youtu.be/dQw4w9WgXcQ?t=10" 0
     = (Fulfilled [ mkMediaItem "https://youtu.be/dQw4w9WgXcQ?t=10" video
                                "youtube_video.mp4" None None None ],
        []).
Proof. repeat split; vm_compute; reflexivity. Qed.
End Extractors.

(* ================================================================== *)
(** ** The download coordinator *)
(* ================================================================== *)

Section Coordinator.
Import JS Browser Props Fixtures DownloadService.
Variable env : Env.

Lemma downloadMedia_dispatch item :
  downloadMedia env item =
    try_catch (branch env (dispatch item) item)
              (fun _ => throw (download_failure item)).
Proof.
  unfold downloadMedia, dispatch, is_blob_video, on_video_platform, branch.
  destruct (MediaType_eqb (type item) video && includes (url item) "blob:");
    [reflexivity|].
  destruct (includes (url item) "youtube.com" || includes (url item) "youtu.be"
            || includes (url item) "vimeo.com"); reflexivity.
Qed.

Lemma MediaType_eqb_eq a b : MediaType_eqb a b = true <-> a = b.
Proof. destruct a, b; cbn; split; congruence. Qed.

Lemma createDownloadLink_resolves u name :
  resolves (createDownloadLink env u name).
Proof.
  unfold createDownloadLink. apply resolves_try_catch. intros e.
  apply resolves_emit.
Qed.

Lemma downloadDirectMedia_resolves item :
  resolves (downloadDirectMedia env item).
Proof.
  unfold downloadDirectMedia. apply resolves_try_catch. intros e.
  apply resolves_try_catch. intros e'. apply createDownloadLink_resolves.
Qed.

Lemma downloadBlobVideo_fatal item t :
  blob_fetch_fails env item t ->
  exists e, downloadBlobVideo env item t = (Rejected e, [Fetch (GET (url item))]).
Proof.
  unfold blob_fetch_fails, downloadBlobVideo, try_catch, bind, fetch, await, throw.
  destruct (network env t (GET (url item))) as [response|e]; cbn.
  - destruct (blob response) as [b|e]; [contradiction|]. cbn. eauto.
  - eauto.
Qed.

Lemma is_blob_video_true item :
  is_blob_video item = true <->
  type item = video /\ includes (url item) "blob:" = true.
Proof.
  unfold is_blob_video. rewrite andb_true_iff, MediaType_eqb_eq. tauto.
Qed.

Lemma on_video_platform_true item :
  on_video_platform item = true <->
  includes (url item) "youtube.com" = true
  \/ includes (url item) "youtu.be" = true
  \/ includes (url item) "vimeo.com" = true.
Proof. unfold on_video_platform. rewrite !orb_true_iff. tauto. Qed.

Lemma on_video_platform_false item :
  on_video_platform item = false <->
  includes (url item) "youtube.com" = false
  /\ includes (url item) "youtu.be" = false
  /\ includes (url item) "vimeo.com" = false.
Proof. unfold on_video_platform. rewrite !orb_false_iff. tauto. Qed.

Lemma dispatch_blob item :
  dispatch item = BlobFetch <-> is_blob_video item = true.
Proof.
  unfold dispatch. destruct (is_blob_video item);
    [|destruct (on_video_platform item)]; split; congruence.
Qed.

Lemma dispatch_embedded item :
  dispatch item = EmbeddedVideo <->
  is_blob_video item = false /\ on_video_platform item = true.
Proof.
  unfold dispatch. destruct (is_blob_video item);
    [|destruct (on_video_platform item)]; split;
    try congruence; try tauto; intros []; congruence.
Qed.

Lemma dispatch_direct item :
  dispatch item = DirectMedia <->
  is_blob_video item = false /\ on_video_platform item = false.
Proof.
  unfold dispatch. destruct (is_blob_video item);
    [|destruct (on_video_platform item)]; split;
    try congruence; try tauto; intros []; congruence.
Qed.

(** C6. [downloadMedia] takes exactly one of three branches, decided in
    this order: the blob fetch when the kind is video and the URL
    contains blob:, else the embedded-video path when the URL contains
    youtube.com, youtu.be or vimeo.com, else the direct-media path. A
    failure of the blob fetch is final: the only event is that one
    request, and the item is reported as failed. *)
Theorem dispatch_order item :
  downloadMedia env item =
    try_catch (branch env (dispatch item) item)
              (fun _ => throw (download_failure item))
  /\ (dispatch item = BlobFetch <->
      type item = video /\ includes (url item) "blob:" = true)
  /\ (dispatch item = EmbeddedVideo <->
      is_blob_video item = false
      /\ (includes (url item) "youtube.com" = true
          \/ includes (url item) "youtu.be" = true
          \/ includes (url item) "vimeo.com" = true))
  /\ (dispatch item = DirectMedia <->
      is_blob_video item = false
      /\ includes (url item) "youtube.com" = false
      /\ includes (url item) "youtu.be" = false
      /\ includes (url item) "vimeo.com" = false)
  /\ forall t,
       dispatch item = BlobFetch -> blob_fetch_fails env item t ->
       downloadMedia env item t =
         (Rejected (download_failure item), [Fetch (GET (url item))]).
Proof.
  split; [apply downloadMedia_dispatch|].
  split; [rewrite dispatch_blob; apply is_blob_video_true|].
  split; [rewrite dispatch_embedded, on_video_platform_true; reflexivity|].
  split; [rewrite dispatch_direct, on_video_platform_false; reflexivity|].
  intros t Hd Hfail. rewrite downloadMedia_dispatch, Hd. cbn [branch].
  destruct (downloadBlobVideo_fatal item t Hfail) as [e He].
  rewrite (try_catch_rejected _ _ _ _ _ He). reflexivity.
Qed.

(** C10. The direct-media path cannot reject: a failure of the proxy
    fetch is caught by the no-cors fetch, a failure there by the download
    link, a failure there by [window.open]. So [downloadMedia] resolves
    for every descriptor that is routed to it, even when, as in the
    offline world, nothing is saved. *)
Theorem direct_media_never_fails item :
  resolves (downloadDirectMedia env item)
  /\ (dispatch item = DirectMedia -> resolves (downloadMedia env item))
  /\ dispatch photo = DirectMedia
  /\ exists evs,
       downloadMedia offline photo 0 = (Fulfilled tt, evs)
       /\ existsb saved evs = false.
Proof.
  split; [apply downloadDirectMedia_resolves|]. split.
  - intros Hd t. rewrite downloadMedia_dispatch, Hd. cbn [branch].
    destruct (downloadDirectMedia_resolves item t) as (a & evs & H).
    exists a, evs. apply try_catch_resolved, H.
  - split; [reflexivity|]. eexists. split; vm_compute; reflexivity.
Qed.
End Coordinator.

Section CoordinatorRuns.
Import JS Browser Props Fixtures DownloadService.

(** A recording behind a revoked object URL: one request, then failure. *)
Lemma dispatch_order_witness :
  downloadMedia offline recording 0
    = (Rejected (download_failure recording), [Fetch (GET (url recording))]).
Proof.
  apply (dispatch_order offline recording); [reflexivity | exact I].
Defined.

(** C6 as the specification words it, by scheme and by host, does not
    hold: the code looks for the markers anywhere in the URL. An image on
    another host whose query mentions youtube.com is routed to the
    embedded-video path, where no video ID is found and the download
    fails, while the direct-media path would have saved it; a video file
    on another host whose query mentions blob: is routed to the blob
    fetch, whose failure is final. *)
Lemma dispatch_looks_anywhere_in_url :
  (host (url tracked_image) = "cdn.example.com"
   /\ spec_dispatch tracked_image = DirectMedia
   /\ dispatch tracked_image = EmbeddedVideo
   /\ downloadMedia blobs_revoked tracked_image 0
      = (Rejected (download_failure tracked_image), [])
   /\ exists evs,
        try_catch (branch blobs_revoked (spec_dispatch tracked_image)
                          tracked_image)
                  (fun _ => throw (download_failure tracked_image)) 0
        = (Fulfilled tt, evs)
        /\ existsb saved evs = true)
  /\ (blob_scheme (url linked_clip) = false
      /\ spec_dispatch linked_clip = DirectMedia
      /\ dispatch linked_clip = BlobFetch
      /\ downloadMedia blobs_revoked linked_clip 0
         = (Rejected (download_failure linked_clip),
            [Fetch (GET (url linked_clip))])).
Proof.
  split.
  - split; [vm_compute; reflexivity|]. split; [vm_compute; reflexivity|].
    split; [vm_compute; reflexivity|]. split; [vm_compute; reflexivity|].
    eexists. split; vm_compute; reflexivity.
  - repeat split; vm_compute; reflexivity.
Qed.

(** A plain image without any network. *)
Lemma direct_media_never_fails_witness :
  resolves (downloadMedia offline photo).
Proof. apply (direct_media_never_fails offline photo). reflexivity. Defined.
End CoordinatorRuns.

(* ================================================================== *)
(** ** Bulk download *)
(* ================================================================== *)

Section DownloadEvents.
Import JS Browser Props DownloadService.
Variable env : Env.

Lemma emits_weaken {A} (P Q : event -> Prop) (m : M A) :
  (forall ev, P ev -> Q ev) -> emits P m -> emits Q m.
Proof. intros HPQ Hm t r evs H. eapply Forall_impl; [exact (Hm _ _ _ H)|auto]. Qed.

Lemma transfer_download_event ev : transfer ev -> download_event ev.
Proof. destruct ev; cbn; tauto. Qed.

Lemma try_services_events services i last :
  Forall (emits download_event) services ->
  emits download_event (try_services services i last).
Proof.
  intros H. revert i last. induction H as [|s services Hs _ IH]; intros i last;
    cbn [try_services].
  - apply emits_throw.
  - apply emits_bind.
    + repeat emits_step. exact Hs.
    + intros [e|]; [apply IH | apply emits_ret].
Qed.

Lemma downloadDirectMedia_events item :
  emits download_event (downloadDirectMedia env item).
Proof. unfold downloadDirectMedia, createDownloadLink, window_open. repeat emits_step. Qed.

Lemma downloadYouTubeVideo_events item videoId :
  emits download_event (downloadYouTubeVideo env item videoId).
Proof.
  unfold downloadYouTubeVideo, downloadServices.
  apply try_services_events.
  constructor; [|constructor; [|constructor; [|constructor]]];
    apply (emits_weaken transfer); try apply transfer_download_event.
  - apply service1_transfers.
  - apply web_service_transfers.
  - apply web_service_transfers.
Qed.

Lemma downloadMedia_events item :
  emits download_event (downloadMedia env item).
Proof.
  unfold downloadMedia, downloadBlobVideo, downloadEmbeddedVideo.
  repeat first [ apply downloadDirectMedia_events
               | apply downloadYouTubeVideo_events
               | emits_step ].
Qed.
End DownloadEvents.

Section Bulk.
Import JS Browser Props Fixtures DownloadService MediaGrid.
Variable env : Env.

Lemma imap_map {A B C} (f : nat -> B -> C) (g : A -> B) l :
  imap f (map g l) = imap (fun i x => f i (g x)) l.
Proof.
  revert f. induction l as [|x l IH]; intros f; [reflexivity|].
  cbn. f_equal. apply IH.
Qed.

(** The join of [downloadAll] never rejects: it collects the status of
    every download, and its events are those of the downloads in the
    order of the schedule. *)
Lemma settleAll_runs schedule items t :
  settleAll env schedule items t
  = (Fulfilled (map fst (concurrent_runs env schedule t items)),
     interleave schedule (map snd (concurrent_runs env schedule t items))).
Proof.
  unfold settleAll, allSettled, concurrent_runs. rewrite imap_map. reflexivity.
Qed.

Lemma downloadAll_runs schedule items t :
  downloadAll env schedule items t
  = (Fulfilled tt,
     interleave schedule (map snd (concurrent_runs env schedule t items))).
Proof.
  unfold downloadAll, try_catch, bind. rewrite settleAll_runs.
  cbn. rewrite app_nil_r. reflexivity.
Qed.

Lemma concurrent_runs_lookup schedule items t i item :
  items !! i = Some item ->
  concurrent_runs env schedule t items !! i
  = Some (downloadMedia (remap (fun k => t + place schedule i k) env) item 0).
Proof.
  intros H. unfold concurrent_runs. rewrite list_lookup_imap, H. reflexivity.
Qed.

Lemma concat_lookup_cons (evss : list (list event)) i ev evs :
  evss !! i = Some (ev :: evs) ->
  concat evss ≡ₚ ev :: concat (<[i := evs]> evss).
Proof.
  revert i. induction evss as [|x evss IH]; intros [|i] H; try discriminate.
  - injection H as ->. reflexivity.
  - cbn in *. rewrite (IH i H). symmetry. apply Permutation_middle.
Qed.

Lemma concat_all_nil (evss : list (list event)) :
  forallb (fun evs => Nat.eqb (length evs) 0) evss = true -> concat evss = [].
Proof.
  induction evss as [|[|ev evs] evss IH]; cbn; [reflexivity| |discriminate].
  exact IH.
Qed.

(** A schedule that takes every event merges the events of the
    promises: none is lost and none is made up. *)
Lemma follows_interleave schedule evss :
  follows schedule evss = true ->
  interleave schedule evss ≡ₚ concat evss.
Proof.
  revert evss. induction schedule as [|i rest IH];
    intros evss H; cbn [follows interleave] in *.
  - rewrite (concat_all_nil _ H). reflexivity.
  - destruct (evss !! i) as [[|ev evs]|] eqn:E; try discriminate.
    rewrite (IH _ H). symmetry. apply concat_lookup_cons, E.
Qed.

Lemma first_segment_take evs :
  first_segment evs = take (length (first_segment evs)) evs.
Proof.
  induction evs as [|ev evs IH]; [reflexivity|]. cbn [first_segment].
  destruct (waits ev); cbn; [reflexivity|]. f_equal. exact IH.
Qed.

Lemma first_segment_length evs : length (first_segment evs) <= length evs.
Proof.
  induction evs as [|ev evs IH]; [reflexivity|]. cbn [first_segment].
  destruct (waits ev); cbn; lia.
Qed.

(** Steps of one promise that follow each other. *)
Lemma interleave_replicate n i rest (evss : list (list event)) evs :
  evss !! i = Some evs -> n <= length evs ->
  interleave (replicate n i ++ rest) evss
  = take n evs ++ interleave rest (<[i := drop n evs]> evss).
Proof.
  revert evss evs. induction n as [|n IH]; intros evss evs Hi Hn.
  - cbn. rewrite drop_0, list_insert_id by exact Hi. reflexivity.
  - destruct evs as [|ev evs]; [cbn in Hn; lia|].
    cbn [replicate app interleave]. rewrite Hi. cbn [take drop app].
    rewrite (IH (<[i := evs]> evss) evs).
    + rewrite list_insert_insert_eq. reflexivity.
    + apply list_lookup_insert_eq. eapply lookup_lt_Some, Hi.
    + cbn in Hn. lia.
Qed.

Lemma interleave_starts pre todo rest :
  interleave
    (concat (imap (fun j evs =>
                     replicate (length (first_segment evs)) (length pre + j))
                  todo) ++ rest)
    (pre ++ todo)
  = concat (map first_segment todo)
    ++ interleave rest
         (pre ++ map (fun evs => drop (length (first_segment evs)) evs) todo).
Proof.
  revert pre. induction todo as [|evs todo IH]; intros pre; [reflexivity|].
  cbn [imap concat map]. rewrite Nat.add_0_r, <- app_assoc.
  rewrite (interleave_replicate _ _ _ _ evs).
  - rewrite <- first_segment_take, <- app_assoc. f_equal.
    assert (Hins : <[length pre := drop (length (first_segment evs)) evs]>
                     (pre ++ evs :: todo)
                   = (pre ++ [drop (length (first_segment evs)) evs]) ++ todo).
    { rewrite insert_app_r_alt, Nat.sub_diag, <- app_assoc by lia. reflexivity. }
    rewrite Hins.
    assert (Hidx : imap (fun j evs0 =>
                           replicate (length (first_segment evs0))
                                     (length pre + S j)) todo
                   = imap (fun j evs0 =>
                             replicate (length (first_segment evs0))
                               (length (pre ++ [drop (length (first_segment evs))
                                                     evs]) + j)) todo).
    { apply imap_ext. intros j x _. rewrite length_app. cbn. f_equal. lia. }
    unfold compose. rewrite Hidx, IH, <- app_assoc. reflexivity.
  - rewrite lookup_app_r, Nat.sub_diag by lia. reflexivity.
  - apply first_segment_length.
Qed.

(** Under a schedule that the language allows, the run begins with the
    first steps of all promises, in their order: every promise has been
    started before any of them goes on. *)
Lemma possible_starts schedule evss :
  possible schedule evss = true ->
  exists rest,
    interleave schedule evss = concat (map first_segment evss) ++ rest.
Proof.
  unfold possible. intros H. apply andb_true_iff in H as [_ H].
  apply bool_decide_eq_true in H.
  rewrite <- (take_drop (length (starts evss)) schedule), H.
  set (rest := drop (length (starts evss)) schedule).
  pose proof (interleave_starts [] evss rest) as Hs.
  cbn [length Nat.add app] in Hs. unfold starts. rewrite Hs. eauto.
Qed.

Lemma follows_replicate n i more (evss : list (list event)) evs :
  evss !! i = Some evs -> n <= length evs ->
  follows (replicate n i ++ more) evss
  = follows more (<[i := drop n evs]> evss).
Proof.
  revert evss evs. induction n as [|n IH]; intros evss evs Hi Hn.
  - cbn. rewrite drop_0, list_insert_id by exact Hi. reflexivity.
  - destruct evs as [|ev evs]; [cbn in Hn; lia|].
    cbn [replicate app follows]. rewrite Hi. cbn [drop].
    rewrite (IH (<[i := evs]> evss) evs).
    + rewrite list_insert_insert_eq. reflexivity.
    + apply list_lookup_insert_eq. eapply lookup_lt_Some, Hi.
    + cbn in Hn. lia.
Qed.

Lemma insert_middle {A} (pre : list A) x y todo :
  <[length pre := y]> (pre ++ x :: todo) = (pre ++ [y]) ++ todo.
Proof.
  rewrite insert_app_r_alt, Nat.sub_diag, <- app_assoc by lia. reflexivity.
Qed.

Lemma follows_starts pre todo more :
  follows
    (concat (imap (fun j evs =>
                     replicate (length (first_segment evs)) (length pre + j))
                  todo) ++ more)
    (pre ++ todo)
  = follows more
      (pre ++ map (fun evs => drop (length (first_segment evs)) evs) todo).
Proof.
  revert pre. induction todo as [|evs todo IH]; intros pre; [reflexivity|].
  cbn [imap concat map]. rewrite Nat.add_0_r, <- app_assoc.
  rewrite (follows_replicate _ _ _ _ evs).
  - rewrite insert_middle.
    assert (Hidx : imap (fun j evs0 =>
                           replicate (length (first_segment evs0))
                                     (length pre + S j)) todo
                   = imap (fun j evs0 =>
                             replicate (length (first_segment evs0))
                               (length (pre ++ [drop (length (first_segment evs))
                                                     evs]) + j)) todo).
    { apply imap_ext. intros j x _. rewrite length_app. cbn. f_equal. lia. }
    unfold compose. rewrite Hidx, IH, <- app_assoc. reflexivity.
  - rewrite lookup_app_r, Nat.sub_diag by lia. reflexivity.
  - apply first_segment_length.
Qed.

Lemma follows_in_turn pre todo :
  follows (concat (imap (fun j evs => replicate (length evs) (length pre + j))
                        todo))
          (pre ++ todo)
  = forallb (fun evs => Nat.eqb (length evs) 0) pre.
Proof.
  revert pre. induction todo as [|evs todo IH]; intros pre.
  - cbn. rewrite app_nil_r. reflexivity.
  - cbn [imap concat]. rewrite Nat.add_0_r.
    rewrite (follows_replicate _ _ _ _ evs).
    + rewrite insert_middle, drop_all.
      assert (Hidx : imap (fun j evs0 =>
                             replicate (length evs0) (length pre + S j)) todo
                     = imap (fun j evs0 =>
                               replicate (length evs0)
                                         (length (pre ++ [[]]) + j)) todo).
      { apply imap_ext. intros j x _. rewrite length_app. cbn. f_equal. lia. }
      unfold compose. rewrite Hidx, IH, forallb_app. cbn.
      rewrite andb_true_r. reflexivity.
    + rewrite lookup_app_r, Nat.sub_diag by lia. reflexivity.
    + reflexivity.
Qed.

(** Whatever the promises do, there is a schedule for them. *)
Lemma in_turn_possible evss : possible (in_turn evss) evss = true.
Proof.
  unfold possible, in_turn. apply andb_true_iff. split.
  - pose proof (follows_starts [] evss) as Hs.
    cbn [length Nat.add app] in Hs. unfold starts. rewrite Hs.
    assert (Hrest : imap (fun i evs =>
                            replicate (length evs - length (first_segment evs)) i)
                         evss
                    = imap (fun j evs => replicate (length evs) j)
                           (map (fun evs => drop (length (first_segment evs)) evs)
                                evss)).
    { rewrite imap_map. apply imap_ext. intros i evs _.
      rewrite length_drop. reflexivity. }
    rewrite Hrest.
    exact (follows_in_turn [] _).
  - apply bool_decide_eq_true. apply take_app_length.
Qed.

(** In a steady world the downloads do not depend on the schedule. *)
Lemma concurrent_runs_steady schedule items t :
  steady env ->
  concurrent_runs env schedule t items
  = imap (fun _ item => downloadMedia env item 0) items.
Proof.
  intros Hsteady. unfold concurrent_runs. apply imap_ext.
  intros i item _. cbn beta. rewrite Hsteady. reflexivity.
Qed.

Lemma steady_schedule items t :
  steady env ->
  exists schedule,
    possible schedule (map snd (concurrent_runs env schedule t items)) = true.
Proof.
  intros Hsteady.
  exists (in_turn (map snd (imap (fun _ item => downloadMedia env item 0)
                                 items))).
  rewrite concurrent_runs_steady by exact Hsteady. apply in_turn_possible.
Qed.

Lemma bulk_run_length items t rs evs :
  bulk_run env items t rs evs -> length rs = length items.
Proof. induction 1; cbn; congruence. Qed.

Lemma failures_successes {A} (rs : list (result A)) :
  failures rs + successes rs = length rs.
Proof.
  unfold failures, successes. induction rs as [|[a|e] rs IH]; cbn; lia.
Qed.

Lemma toasts_app title evs evs' :
  toasts title (evs ++ evs') = toasts title evs + toasts title evs'.
Proof. unfold toasts. rewrite List.filter_app, length_app. reflexivity. Qed.

Lemma toasts_download_events title evs :
  Forall download_event evs -> toasts title evs = 0.
Proof.
  unfold toasts. induction 1 as [|ev evs Hev _ IH]; [reflexivity|].
  destruct ev; cbn in *; try contradiction; exact IH.
Qed.

(** The notifications of a bulk run count its outcomes. *)
Lemma bulk_run_toasts items t rs evs :
  bulk_run env items t rs evs ->
  toasts "Download Failed" evs = failures rs
  /\ toasts "Download Complete" evs = successes rs.
Proof.
  induction 1 as [|item items t r evs rs evs' Hdl _ [IHf IHs]];
    [split; reflexivity|].
  rewrite !toasts_app, IHf, IHs.
  rewrite !(toasts_download_events _ evs)
    by exact (downloadMedia_events env item _ _ _ Hdl).
  unfold failures, successes. destruct r; cbn; split; lia.
Qed.

Variables downloadingItems downloadedItems : gset string.

Lemma nonDownloadedItems_fresh items :
  Forall (fresh downloadingItems downloadedItems) (nonDownloadedItems items downloadingItems downloadedItems).
Proof.
  apply Forall_forall. intros item Hin.
  apply list_elem_of_In, List.filter_In in Hin as [_ H].
  unfold fresh. apply andb_true_iff in H as [H1 H2].
  apply negb_true_iff in H1, H2. rewrite H1, H2. reflexivity.
Qed.

Lemma handleDownload_outcome item t r evs :
  fresh downloadingItems downloadedItems item ->
  downloadMedia env item t = (r, evs) ->
  handleDownload env downloadingItems downloadedItems item t
    = (Fulfilled tt, evs ++ [outcome_toast item r]).
Proof.
  unfold fresh, handleDownload. intros -> H.
  unfold try_catch, bind, toast, emit. rewrite H.
  destruct r as [[]|e]; cbn; rewrite ?app_nil_r; reflexivity.
Qed.

Lemma for_of_bulk_run todo t :
  Forall (fresh downloadingItems downloadedItems) todo ->
  exists rs evs,
    for_of todo
           (fun item =>
              bind (handleDownload env downloadingItems downloadedItems item)
                   (fun _ => sleep 200)) t
      = (Fulfilled tt, evs)
    /\ bulk_run env todo t rs evs.
Proof.
  intros H. revert t.
  set (step := fun item =>
                 bind (handleDownload env downloadingItems downloadedItems item)
                      (fun _ => sleep 200)).
  induction H as [|item todo Hitem _ IH]; intros t; cbn [for_of].
  - exists [], []. split; [reflexivity | constructor].
  - destruct (downloadMedia env item t) as [r evs] eqn:E.
    destruct (IH (t + length evs + 2)) as (rs & evs' & Hrest & Hrun).
    exists (r :: rs), (evs ++ [outcome_toast item r; Sleep 200] ++ evs').
    split; [|econstructor; eassumption].
    unfold bind at 1. unfold step at 1. unfold bind at 1.
    rewrite (handleDownload_outcome _ _ _ _ Hitem E).
    unfold sleep, emit. cbn [length app]. rewrite !length_app. cbn [length].
    replace (t + (length evs + 1 + 1)) with (t + length evs + 2) by lia.
    rewrite Hrest. rewrite <- !app_assoc. reflexivity.
Qed.
End Bulk.

Section BulkTheorem.
Import JS Browser Props Fixtures DownloadService MediaGrid.

Lemma has_empty x : has ∅ x = false.
Proof. unfold has. apply bool_decide_eq_false, not_elem_of_empty. Qed.

Lemma nonDownloadedItems_initially items : nonDownloadedItems items ∅ ∅ = items.
Proof.
  unfold nonDownloadedItems. induction items as [|item items IH];
    [reflexivity|].
  cbn [List.filter]. rewrite !has_empty, IH. reflexivity.
Qed.

Lemma handleDownloadAll_bulk_run env items downloadingItems downloadedItems t :
  exists opening rs evs,
    handleDownloadAll env items downloadingItems downloadedItems t
      = (Fulfilled tt, opening :: evs)
    /\ bulk_run env (nonDownloadedItems items downloadingItems downloadedItems)
                (t + 1) rs evs.
Proof.
  unfold handleDownloadAll.
  pose proof (nonDownloadedItems_fresh downloadingItems downloadedItems items)
    as Hfresh.
  destruct (nonDownloadedItems items downloadingItems downloadedItems)
    as [|item todo] eqn:E.
  - cbn. eexists _, [], []. split; [reflexivity | constructor].
  - cbn [length Nat.eqb].
    destruct (for_of_bulk_run env downloadingItems downloadedItems
                              (item :: todo) (t + 1) Hfresh)
      as (rs & evs & Hloop & Hrun).
    eexists _, rs, evs. split; [|exact Hrun].
    unfold bind at 1. unfold toast at 1, emit at 1. cbn [length].
    rewrite Hloop. reflexivity.
Qed.

(** The world of the revoked object URLs is steady. *)
Example blobs_revoked_steady : steady blobs_revoked.
Proof. intros when. reflexivity. Qed.

(** C7. Both bulk runners attempt every item and never stop at a
    failure. [downloadAll] starts a download for each of the N items
    before it waits for any of them: the downloads run side by side, each
    seeing the answers of the network at the moments the schedule gives
    to its own steps; the join records one status per item, in the order
    of the items, and always resolves. Under a schedule that the language
    allows, the events of the batch begin with the first request of every
    download, in the order of the items, and are the events of the N
    downloads, none lost; in a world whose answers do not depend on the
    moment of the question there is such a schedule, whatever the items.
    [handleDownloadAll] runs the items that are neither downloaded nor in
    progress (all N in a fresh view) one after the other, and shows one
    notification per item: as many failure notifications as downloads
    failed, as many completion notifications as succeeded. For the batch
    of five in which items 2 and 4 fail, that is 2 failures and 3
    successes, with all five requests sent before the first file is
    saved. *)
Theorem bulk_runner_no_early_abort env items t :
  (forall schedule,
     let runs := concurrent_runs env schedule t items in
     settleAll env schedule items t
       = (Fulfilled (map fst runs), interleave schedule (map snd runs))
     /\ downloadAll env schedule items t
        = (Fulfilled tt, interleave schedule (map snd runs))
     /\ length (map fst runs) = length items
     /\ (forall i item,
           items !! i = Some item ->
           runs !! i
           = Some (downloadMedia
                     (remap (fun k => t + place schedule i k) env) item 0))
     /\ (possible schedule (map snd runs) = true ->
         interleave schedule (map snd runs) ≡ₚ concat (map snd runs)
         /\ exists rest,
              interleave schedule (map snd runs)
              = concat (map first_segment (map snd runs)) ++ rest))
  /\ (steady env ->
      exists schedule,
        possible schedule (map snd (concurrent_runs env schedule t items))
        = true)
  /\ (forall downloadingItems downloadedItems,
        exists opening rs evs,
          handleDownloadAll env items downloadingItems downloadedItems t
            = (Fulfilled tt, opening :: evs)
          /\ bulk_run env
               (nonDownloadedItems items downloadingItems downloadedItems)
               (t + 1) rs evs
          /\ length rs
             = length (nonDownloadedItems items downloadingItems downloadedItems)
          /\ toasts "Download Failed" evs = failures rs
          /\ toasts "Download Complete" evs = successes rs)
  /\ nonDownloadedItems items ∅ ∅ = items
  /\ (exists rs evs,
        settleAll blobs_revoked [0; 1; 2; 3; 4; 0; 2; 4] batch 0
          = (Fulfilled rs, evs)
        /\ possible [0; 1; 2; 3; 4; 0; 2; 4]
                    (map snd (concurrent_runs blobs_revoked
                                              [0; 1; 2; 3; 4; 0; 2; 4] 0 batch))
           = true
        /\ map is_rejected rs = [false; true; false; true; false]
        /\ failures rs = 2 /\ successes rs = 3
        /\ map waits evs
           = [true; true; true; true; true; false; false; false])
  /\ (exists evs,
        handleDownloadAll blobs_revoked batch ∅ ∅ 0 = (Fulfilled tt, evs)
        /\ toasts "Download Failed" evs = 2
        /\ toasts "Download Complete" evs = 3).
Proof.
  split; [|split; [apply steady_schedule|split; [|split; [|split]]]].
  - intros schedule runs. subst runs.
    split; [apply settleAll_runs|]. split; [apply downloadAll_runs|].
    split; [|split].
    + unfold concurrent_runs. rewrite length_map, length_imap. reflexivity.
    + intros i item. apply concurrent_runs_lookup.
    + intros H. split; [|apply possible_starts, H].
      unfold possible in H. apply andb_true_iff in H as [H _].
      eapply follows_interleave, H.
  - intros downloadingItems downloadedItems.
    destruct (handleDownloadAll_bulk_run env items downloadingItems
                                         downloadedItems t)
      as (opening & rs & evs & Hrun & Hbulk).
    exists opening, rs, evs. split; [exact Hrun|]. split; [exact Hbulk|].
    split; [eapply bulk_run_length, Hbulk|].
    eapply bulk_run_toasts, Hbulk.
  - apply nonDownloadedItems_initially.
  - eexists _, _. split; [vm_compute; reflexivity|].
    repeat split; vm_compute; reflexivity.
  - eexists. split; [vm_compute; reflexivity|].
    split; vm_compute; reflexivity.
Qed.
End BulkTheorem.

(* ================================================================== *)
(** ** The backend *)
(* ================================================================== *)

Section Backend.
Import JS Props Fixtures Server.
Variable os : OS.

(** Each of the five quality values has a non-empty format selector, and
    no two of them share one. *)
Lemma quality_formats_distinct :
  Forall (fun q => exists f, qualityFormats !! q = Some f /\ f <> "")
         ["maximum"; "high"; "medium"; "low"; "audio"]
  /\ NoDup (omap (fun q => qualityFormats !! q)
                 ["maximum"; "high"; "medium"; "low"; "audio"]).
Proof.
  split.
  - repeat constructor; eexists; (split; [vm_compute; reflexivity|discriminate]).
  - apply (bool_decide_unpack _). vm_compute. reflexivity.
Qed.

(** A quality that is neither a key of the table nor a member of
    [Object.prototype] is answered with 400, and nothing is spawned. *)
Lemma unknown_quality_rejected u name q st :
  truthy u = true ->
  qualityFormats !! q = None ->
  existsb (String.eqb q) object_prototype = false ->
  handler os (mkBody (Some u) name (Some q)) st
    = respond (Json 400 "Invalid quality option" None) st.
Proof.
  intros Hu Hq Hp. unfold handler.
  cbn [body_url body_quality body_filename truthy_opt default from_option id].
  rewrite Hu. cbn [negb]. unfold property. rewrite Hq, Hp. reflexivity.
Qed.

(** A request with a URL and a truthy entry for its quality is served. *)
Lemma handler_serves u name q format st :
  truthy u = true ->
  property qualityFormats q = Some format ->
  value_truthy (Some format) = true ->
  handler os (mkBody (Some u) name (Some q)) st = serve os u name q format st.
Proof.
  intros Hu Hq Hf. unfold handler.
  cbn [body_url body_quality body_filename truthy_opt default from_option id].
  rewrite Hu, Hq, Hf. reflexivity.
Qed.

Lemma not_longer {A} (l : list A) x : l ++ [x] = l -> False.
Proof.
  intros H. apply (f_equal (@length A)) in H.
  rewrite length_app in H. cbn in H. lia.
Qed.

Lemma removed_elsewhere (tempDir d : string) (X : gset string) :
  d <> tempDir -> d ∈ X ∖ {[tempDir]} <-> d ∈ X.
Proof.
  intros Hd. rewrite elem_of_difference, elem_of_singleton. tauto.
Qed.

Lemma removed_gone (tempDir : string) (X : gset string) :
  tempDir ∉ X ∖ {[tempDir]}.
Proof. rewrite not_elem_of_difference, elem_of_singleton. auto. Qed.

(** What a run of the listeners of the download process does:
    [effect_of tempDir st st'] relates the state before to the state
    after. They start no process; they answer at most once, never with
    400 and never with the advice to install yt-dlp; they leave every
    directory but the temporary one as it was; and the temporary
    directory is removed unless something was thrown. *)
Lemma effect_intro tempDir st st' new :
  processes st' = processes st ->
  sent st' = sent st ++ new ->
  length new <= 1 ->
  Forall (fun r => answered 400 r = false
                   /\ r <> Json 500 "yt-dlp is not installed. Please install it with: pip install yt-dlp" None) new ->
  (forall d, d <> tempDir -> d ∈ dirs st' <-> d ∈ dirs st) ->
  (uncaught st' = uncaught st -> tempDir ∉ dirs st') ->
  effect_of tempDir st st'.
Proof. intros. split; [assumption|]. split; [exists new; auto | auto]. Qed.

Lemma close_effect tempDir name code err out st :
  effect_of tempDir st
            (emitted (on_close os tempDir name code err out false) st).
Proof.
  unfold emitted, on_close, piped, fs_readdirSync, fs_rmSync, setHeader, json,
    call, effect, pure, and_then.
  destruct (Nat.eqb code 0).
  - destruct (bool_decide (tempDir ∈ dirs st));
      [destruct (readdirSync os tempDir) as [[|file0 files]|msg]|].
    + destruct (rmSync os tempDir).
      * apply (effect_intro _ _ _ []); cbn;
          [reflexivity | rewrite app_nil_r; reflexivity | lia | constructor
          | reflexivity | intros H; destruct (not_longer _ _ H)].
      * eapply (effect_intro _ _ _ [_]); cbn;
          [reflexivity | reflexivity | lia
          | repeat constructor; discriminate
          | intros d; apply removed_elsewhere | intros _; apply removed_gone].
    + cbn [negb]. destruct (statSync os _) as [size|msg].
      * destruct (negb (header_value _)).
        -- apply (effect_intro _ _ _ []); cbn;
             [reflexivity | rewrite app_nil_r; reflexivity | lia | constructor
             | reflexivity | intros H; destruct (not_longer _ _ H)].
        -- destruct (createReadStream os _) as [|[]]; cbn;
             destruct (rmSync os tempDir); cbn.
           all: try (eapply (effect_intro _ _ _ [_]); cbn;
                     [reflexivity | reflexivity | lia
                     | repeat constructor; discriminate
                     | first [ intros d; apply removed_elsewhere | reflexivity ]
                     | first [ intros _; apply removed_gone
                             | intros H; destruct (not_longer _ _ H) ]]).
           all: apply (effect_intro _ _ _ []); cbn;
             [reflexivity | rewrite app_nil_r; reflexivity | lia | constructor
             | reflexivity | intros H; destruct (not_longer _ _ H)].
      * apply (effect_intro _ _ _ []); cbn;
          [reflexivity | rewrite app_nil_r; reflexivity | lia | constructor
          | reflexivity | intros H; destruct (not_longer _ _ H)].
    + apply (effect_intro _ _ _ []); cbn;
        [reflexivity | rewrite app_nil_r; reflexivity | lia | constructor
        | reflexivity | intros H; destruct (not_longer _ _ H)].
    + apply (effect_intro _ _ _ []); cbn;
        [reflexivity | rewrite app_nil_r; reflexivity | lia | constructor
        | reflexivity | intros H; destruct (not_longer _ _ H)].
  - destruct (rmSync os tempDir).
    + apply (effect_intro _ _ _ []); cbn;
        [reflexivity | rewrite app_nil_r; reflexivity | lia | constructor
        | reflexivity | intros H; destruct (not_longer _ _ H)].
    + eapply (effect_intro _ _ _ [_]); cbn;
        [reflexivity | reflexivity | lia
        | repeat constructor; discriminate
        | intros d; apply removed_elsewhere | intros _; apply removed_gone].
Qed.

(** When the process could not be started, the [error] listener answers
    and the [close] listener that follows it throws: the request has
    been answered already. *)
Lemma error_then_close tempDir name message code st :
  emitted (on_error os tempDir message ;;
           on_close os tempDir name code "" "" true)%node st
  = match rmSync os tempDir with
    | Some thrown_message => thrown thrown_message st
    | None =>
        let st := respond (Json 500 "Failed to start yt-dlp" (Some message))
                          (removed tempDir st) in
        if Nat.eqb code 0
        then thrown ("ENOENT: no such file or directory, scandir '"
                     +:+ tempDir +:+ "'") st
        else thrown "ERR_HTTP_HEADERS_SENT" (removed tempDir st)
    end.
Proof.
  unfold emitted, on_error, on_close, piped, fs_readdirSync, fs_rmSync,
    setHeader, json, call, effect, pure, and_then.
  destruct (rmSync os tempDir) as [msg|] eqn:Hrm; [reflexivity|].
  destruct (Nat.eqb code 0).
  - cbn [dirs respond removed].
    rewrite bool_decide_eq_false_2 by apply removed_gone. reflexivity.
  - reflexivity.
Qed.

Lemma error_effect tempDir name message code st :
  effect_of tempDir st
            (emitted (on_error os tempDir message ;;
                      on_close os tempDir name code "" "" true)%node st).
Proof.
  rewrite error_then_close. destruct (rmSync os tempDir).
  - apply (effect_intro _ _ _ []); cbn;
      [reflexivity | rewrite app_nil_r; reflexivity | lia | constructor
      | reflexivity | intros H; destruct (not_longer _ _ H)].
  - cbn zeta. destruct (Nat.eqb code 0);
      (eapply (effect_intro _ _ _ [_]); cbn;
       [reflexivity | reflexivity | lia
       | repeat constructor; discriminate
       | intros d Hd; rewrite ?(removed_elsewhere _ _ _ Hd); reflexivity
       | intros H; destruct (not_longer _ _ H)]).
Qed.

(** Serving starts with the version check, and never answers 400. *)
Lemma serve_spawns u name q format st :
  exists rest new,
    processes (serve os u name q format st)
      = processes st ++ ("yt-dlp", [VStr "--version"]) :: rest
    /\ sent (serve os u name q format st) = sent st ++ new
    /\ existsb (answered 400) new = false.
Proof.
  assert (Hnone : forall new,
             Forall (fun r => answered 400 r = false
                              /\ r <> Json 500 "yt-dlp is not installed. Please install it with: pip install yt-dlp" None) new ->
             existsb (answered 400) new = false).
  { induction 1 as [|r new [Hr _] _ IH]; [reflexivity|].
    cbn [existsb]. rewrite Hr, IH. reflexivity. }
  unfold serve, checkYtDlp, download.
  destruct (spawn os "yt-dlp" [VStr "--version"])
    as [msg|[code err out|msg code]].
  - exists [], []. cbn. rewrite app_nil_r. auto.
  - destruct (Nat.eqb code 0).
    + destruct (mkdtempSync os "ytdl-") as [tempDir|msg].
      * match goal with |- context [spawn os "yt-dlp" ?args] =>
          destruct (spawn os "yt-dlp" args) as [msg|[code' err' out'|msg code']]
        end.
        -- eexists [_], [_]. cbn. rewrite <- app_assoc. auto.
        -- match goal with |- context [emitted ?l ?s] =>
             destruct (close_effect tempDir name code' err' out' s)
               as (Hp & (new & Hs & _ & Hnew) & _)
           end.
           rewrite Hp, Hs. eexists [_], new. cbn. rewrite <- app_assoc.
           auto.
        -- match goal with |- context [emitted ?l ?s] =>
             destruct (error_effect tempDir name msg code' s)
               as (Hp & (new & Hs & _ & Hnew) & _)
           end.
           rewrite Hp, Hs. eexists [_], new. cbn. rewrite <- app_assoc.
           auto.
      * eexists [], [_]. cbn. auto.
    + eexists [], [_]. cbn. auto.
  - eexists [], [_]. cbn. auto.
Qed.

(** C8 at a quality outside the five values, [constructor]: the lookup
    finds [Object.prototype.constructor], the validation lets the
    request through, the version check spawns yt-dlp, and the request is
    not answered with 400, whatever the system does. *)
Theorem prototype_key_passes_validation :
  let st := handler os (request "https://youtu.be/dQw4w9WgXcQ" "constructor")
                    idle in
  qualityFormats !! "constructor" = None
  /\ (exists rest, processes st = ("yt-dlp", [VStr "--version"]) :: rest)
  /\ existsb (answered 400) (sent st) = false.
Proof.
  cbn zeta. split; [vm_compute; reflexivity|].
  unfold request.
  rewrite (handler_serves _ _ _ (VObject "constructor"))
    by (vm_compute; reflexivity).
  destruct (serve_spawns "https://youtu.be/dQw4w9WgXcQ" None "constructor"
                         (VObject "constructor") idle)
    as (rest & new & Hp & Hs & H400).
  rewrite Hp, Hs. split; [exists rest; reflexivity | exact H400].
Qed.

(** On the paths that end in a listener of the download process, the
    temporary directory is removed, unless the listener throws before it
    has removed it. *)
Lemma served_with_child_removes_temp_dir u name q format err out tempDir ev st :
  spawn os "yt-dlp" [VStr "--version"] = Child (Close 0 err out) ->
  mkdtempSync os "ytdl-" = inl tempDir ->
  spawn os "yt-dlp"
        (ytDlpArgs format (tempDir +:+ "/" +:+ "%(title)s.%(ext)s") q u)
    = Child ev ->
  (uncaught (serve os u name q format st) = uncaught st ->
   tempDir ∉ dirs (serve os u name q format st))
  /\ (rmSync os tempDir = None ->
      (exists message code, ev = ProcessError message code) ->
      tempDir ∉ dirs (serve os u name q format st)).
Proof.
  intros Hv Hd Hs. unfold serve, checkYtDlp, download.
  rewrite Hv. cbn [Nat.eqb]. rewrite Hd, Hs.
  destruct ev as [code err' out'|msg code]; cbn [snd]; split.
  - match goal with |- context [emitted ?l ?s] =>
      destruct (close_effect tempDir name code err' out' s)
        as (_ & _ & _ & Hgone)
    end.
    exact Hgone.
  - intros _ (message & code' & [=]).
  - match goal with |- context [emitted ?l ?s] =>
      destruct (error_effect tempDir name msg code s)
        as (_ & _ & _ & Hgone)
    end.
    exact Hgone.
  - intros Hrm _. rewrite error_then_close, Hrm. cbn zeta.
    destruct (Nat.eqb code 0); apply removed_gone.
Qed.

(** C9 where [spawn] throws at the call: the request is answered by the
    [catch] block with 500, and the temporary directory that was created
    for it is still on disk. *)
Theorem temp_dir_survives_thrown_spawn u name q format err out tempDir msg st :
  truthy u = true ->
  property qualityFormats q = Some format ->
  value_truthy (Some format) = true ->
  spawn os "yt-dlp" [VStr "--version"] = Child (Close 0 err out) ->
  mkdtempSync os "ytdl-" = inl tempDir ->
  spawn os "yt-dlp"
        (ytDlpArgs format (tempDir +:+ "/" +:+ "%(title)s.%(ext)s") q u)
    = Throws msg ->
  tempDir ∈ dirs (handler os (mkBody (Some u) name (Some q)) st)
  /\ sent (handler os (mkBody (Some u) name (Some q)) st)
     = sent st ++ [Json 500 "Internal server error" (Some msg)].
Proof.
  intros Hu Hq Hf Hv Hd Hs. rewrite (handler_serves _ _ _ _ _ Hu Hq Hf).
  unfold serve, checkYtDlp, download.
  rewrite Hv. cbn [Nat.eqb]. rewrite Hd, Hs. cbn. split; [|reflexivity].
  apply elem_of_union_l, elem_of_singleton. reflexivity.
Qed.
End Backend.

Section BackendRuns.
Import JS Props Fixtures Server.

(** A well-formed request on a system where starting the download throws. *)
Lemma temp_dir_survives_thrown_spawn_witness :
  "/tmp/ytdl-a1b2c3"
    ∈ dirs (handler spawn_throws (request "https://youtu.be/dQw4w9WgXcQ" "high")
                    idle)
  /\ sent (handler spawn_throws (request "https://youtu.be/dQw4w9WgXcQ" "high")
                   idle)
     = [Json 500 "Internal server error" (Some "spawn ENOMEM")].
Proof.
  apply (temp_dir_survives_thrown_spawn
           spawn_throws "https://youtu.be/dQw4w9WgXcQ" None "high"
           (VStr "bestvideo[height<=1080][ext=mp4]+bestaudio[ext=m4a]/best[height<=1080][ext=mp4]/bestvideo[height<=1080]+bestaudio/best")
           "" "2024.08.06" "/tmp/ytdl-a1b2c3" "spawn ENOMEM" idle);
    vm_compute; reflexivity.
Defined.

(** The same request on a healthy system leaves no directory behind. *)
Example healthy_request_cleans_up :
  dirs (handler healthy (request "https://youtu.be/dQw4w9WgXcQ" "high") idle) = ∅
  /\ sent (handler healthy (request "https://youtu.be/dQw4w9WgXcQ" "high") idle)
     = [File "video.mp4" "/tmp/ytdl-a1b2c3/video.mp4"].
Proof. split; [apply (bool_decide_unpack _)|]; vm_compute; reflexivity. Qed.
End BackendRuns.

(* ================================================================== *)
(** ** Pieces of a split string *)
(* ================================================================== *)

Section Pieces.
Import JS Facts.

Lemma prefix_char c a s :
  String.prefix (String c "") (String a s) = Ascii.eqb a c.
Proof.
  change (String.prefix (String c "") (String a s))
    with (if ascii_dec c a then String.prefix "" s else false).
  destruct (ascii_dec c a) as [->|Hne].
  - rewrite Ascii.eqb_refl. apply prefix_empty.
  - symmetry. apply Ascii.eqb_neq. congruence.
Qed.

Lemma includes_char c s : includes s (String c "") = negb (free_of c s).
Proof.
  unfold free_of. induction s as [|a s IH]; [reflexivity|].
  rewrite includes_unfold, prefix_char, IH.
  cbn [chars list_ascii_of_string forallb].
  destruct (Ascii.eqb a c); reflexivity.
Qed.

Lemma free_of_includes c s : includes s (String c "") = false <-> free_of c s = true.
Proof. rewrite includes_char. destruct (free_of c s); cbn; split; congruence. Qed.

Lemma free_of_append c s1 s2 :
  free_of c (s1 +:+ s2) = free_of c s1 && free_of c s2.
Proof.
  unfold free_of. induction s1 as [|a s1 IH]; [reflexivity|].
  rewrite append_cons. cbn [chars list_ascii_of_string forallb].
  unfold chars in IH. rewrite IH, andb_assoc. reflexivity.
Qed.

(** Splitting at a one-character separator: the pieces are free of the
    separator, and a predicate on the characters of the input holds on the
    characters of every piece. *)
Lemma split_char_pieces c s :
  Forall (fun piece => free_of c piece = true) (split s (String c "")).
Proof.
  unfold split. induction s as [|a s IH]; [repeat constructor|].
  cbn [split_go]. rewrite prefix_char. cbn [String.length Nat.sub].
  destruct (Ascii.eqb a c) eqn:E; [constructor; [reflexivity | exact IH]|].
  destruct (split_go (String c "") 0 s) as [|h t].
  - repeat constructor. unfold free_of. cbn. rewrite E. reflexivity.
  - inversion IH as [|? ? Hh Ht]; subst. constructor; [|exact Ht].
    unfold free_of in *. cbn [chars list_ascii_of_string forallb].
    rewrite E. exact Hh.
Qed.

Lemma split_char_keeps (P : ascii -> bool) c s :
  forallb P (chars s) = true ->
  Forall (fun piece => forallb P (chars piece) = true) (split s (String c "")).
Proof.
  unfold split. induction s as [|a s IH]; [repeat constructor|].
  cbn [chars list_ascii_of_string forallb]. intros H.
  apply andb_true_iff in H as [Ha Hs]. specialize (IH Hs).
  cbn [split_go]. rewrite prefix_char. cbn [String.length Nat.sub].
  destruct (Ascii.eqb a c); [constructor; [reflexivity | exact IH]|].
  destruct (split_go (String c "") 0 s) as [|h t].
  - repeat constructor. cbn. rewrite Ha. reflexivity.
  - inversion IH as [|? ? Hh Ht]; subst. constructor; [|exact Ht].
    cbn [chars list_ascii_of_string forallb]. rewrite Ha. exact Hh.
Qed.

Lemma Forall_first (P : string -> Prop) l : P "" -> Forall P l -> P (first l).
Proof. intros H0 H. destruct H; [exact H0 | assumption]. Qed.

Lemma Forall_pop (P : string -> Prop) l : P "" -> Forall P l -> P (pop l).
Proof.
  intros H0 H. unfold pop. induction H as [|x l Hx Hl IH]; [exact H0|].
  destruct l; [exact Hx | exact IH].
Qed.
End Pieces.

(* ================================================================== *)
(** ** File names and extensions *)
(* ================================================================== *)

Section Filenames.
Import JS Browser Facts MediaDetectionService.
Variable env : Env.

Lemma extractFilename_stem u :
  includes (extractFilename env u) "/" = false
  /\ includes (extractFilename env u) "." = false.
Proof.
  unfold extractFilename. destruct (URL_pathname env u) as [pathname|];
    [|split; reflexivity].
  set (segment := pop (split pathname "/")).
  assert (Hseg : free_of "/" segment = true).
  { apply (Forall_pop (fun p => free_of "/" p = true)); [reflexivity|].
    apply split_char_pieces. }
  assert (Hslash : free_of "/" (first (split segment ".")) = true).
  { apply (Forall_first (fun p => free_of "/" p = true)); [reflexivity|].
    apply (split_char_keeps (fun a => negb (Ascii.eqb a "/"))), Hseg. }
  assert (Hdot : free_of "." (first (split segment ".")) = true).
  { apply (Forall_first (fun p => free_of "." p = true)); [reflexivity|].
    apply split_char_pieces. }
  unfold or_else. destruct (truthy _); [|split; reflexivity].
  split; apply free_of_includes; assumption.
Qed.

(** X1. The stem that [extractFilename] derives is never empty and holds
    neither a slash nor a dot, whatever the URL; so the names that the
    extractors keep in reserve for an empty stem are never used. *)
Theorem extractFilename_is_a_stem u :
  extractFilename env u <> ""
  /\ includes (extractFilename env u) "/" = false
  /\ includes (extractFilename env u) "." = false
  /\ forall reserve,
       or_else (extractFilename env u) reserve = extractFilename env u.
Proof.
  split; [apply extractFilename_nonempty|].
  destruct (extractFilename_stem u) as [Hslash Hdot].
  split; [exact Hslash|]. split; [exact Hdot|].
  intros reserve. unfold or_else at 1.
  destruct (truthy (extractFilename env u)) eqn:E; [reflexivity|].
  unfold truthy in E. apply negb_false_iff, String.eqb_eq in E.
  destruct (extractFilename_nonempty env u E).
Qed.
End Filenames.

Section Searching.
Import JS Facts.

Lemma search_suffix r pos s m :
  search r pos s = Some m ->
  exists pre s',
    s = pre +:+ s' /\ matches r (pos + String.length pre) s' ∅ accept = Some m.
Proof.
  revert pos. induction s as [|a s IH]; intros pos; cbn [search];
    destruct (matches r pos _ ∅ accept) eqn:E; intros H.
  - injection H as <-. exists "", "". rewrite Nat.add_0_r. auto.
  - discriminate.
  - injection H as <-. exists "", (String a s). rewrite Nat.add_0_r. auto.
  - apply IH in H as (pre & s' & -> & H). exists (String a pre), s'.
    split; [reflexivity|]. cbn [String.length].
    replace (pos + S (String.length pre)) with (S pos + String.length pre) by lia.
    exact H.
Qed.

Lemma search_finds r pos pre s' m :
  matches r (pos + String.length pre) s' ∅ accept = Some m ->
  exists m', search r pos (pre +:+ s') = Some m'.
Proof.
  revert pos. induction pre as [|a pre IH]; intros pos H.
  - cbn [String.length] in H. rewrite Nat.add_0_r in H.
    change ("" +:+ s') with s'. destruct s'; cbn [search]; rewrite H; eauto.
  - rewrite append_cons. cbn [search].
    destruct (matches r pos _ ∅ accept); [eauto|].
    apply IH. cbn [String.length] in H.
    replace (S pos + String.length pre) with (pos + S (String.length pre)) by lia.
    exact H.
Qed.

(** When every character is in the class, greedy [C*] first tries to
    take them all. *)
Lemma star_takes_all cs pos e c k m :
  forallb cs (chars e) = true ->
  k (pos + String.length e) "" c = Some m ->
  star cs pos e c k = Some m.
Proof.
  revert pos. induction e as [|a e IH]; intros pos Hall Hk; cbn [star].
  - cbn [String.length] in Hk. rewrite Nat.add_0_r in Hk. exact Hk.
  - cbn [chars list_ascii_of_string forallb] in Hall.
    apply andb_true_iff in Hall as [-> He].
    rewrite (IH (S pos) He); [reflexivity|].
    cbn [String.length] in Hk.
    replace (S pos + String.length e) with (pos + S (String.length e)) by lia.
    exact Hk.
Qed.

Lemma append_empty s : s +:+ "" = s.
Proof.
  induction s as [|a s IH]; [reflexivity|].
  rewrite append_cons. f_equal. exact IH.
Qed.

Lemma append_assoc (a b c : string) : (a +:+ b) +:+ c = a +:+ b +:+ c.
Proof.
  induction a as [|x a IH]; [reflexivity|].
  rewrite !append_cons. f_equal. exact IH.
Qed.

Lemma substring_all s : substring 0 (String.length s) s = s.
Proof. induction s as [|a s IH]; cbn; [reflexivity | rewrite IH; reflexivity]. Qed.

Lemma dot_free_none_of e :
  free_of "." e = forallb (none_of ".") (chars e).
Proof.
  unfold free_of. induction (chars e) as [|a l IH]; [reflexivity|].
  cbn [forallb]. rewrite IH. unfold none_of, one_of. cbn.
  rewrite orb_false_r. reflexivity.
Qed.
End Searching.

Section Extensions.
Import JS Browser Facts MediaDetectionService.

(** What [/\.([^.]+)$/] matches at a given place: a dot followed by a
    non-empty run without dots that ends the input. *)
Lemma extension_match pos s m :
  matches extension_pattern pos s ∅ accept = Some m <->
  exists e, s = "." +:+ e /\ e <> "" /\ free_of "." e = true
            /\ m = <[1 := e]> ∅.
Proof.
  split.
  - intros E. cbn [extension_pattern rseq matches] in E.
    change (String.length ".") with 1 in E.
    destruct s as [|d s1]; [discriminate|].
    rewrite (prefix_char "." d s1) in E.
    destruct (Ascii.eqb d ".") eqn:Ed; [|discriminate].
    apply Ascii.eqb_eq in Ed. subst d.
    cbn [String.length] in E.
    replace (S (String.length s1) - 1) with (String.length s1) in E by lia.
    cbn [substring] in E. rewrite substring_all in E.
    destruct s1 as [|a s1]; [discriminate|].
    destruct (none_of "." a) eqn:Ea; [|discriminate].
    apply star_consumes in E as (pre & rest & -> & Hpre & E).
    destruct rest; [|discriminate]. injection E as <-.
    exists (String a pre). split.
    { change ("." +:+ String a pre) with (String "." (String a pre)).
      rewrite append_empty. reflexivity. }
    split; [discriminate|]. split.
    { rewrite dot_free_none_of. cbn. rewrite Ea. exact Hpre. }
    f_equal.
    replace (S (pos + 1 + String.length pre) - (pos + 1))
      with (S (String.length pre)) by lia.
    rewrite substring_prefix. reflexivity.
  - intros (e & -> & Hne & Hfree & ->).
    destruct e as [|a e]; [congruence|].
    rewrite dot_free_none_of in Hfree.
    cbn [chars list_ascii_of_string forallb] in Hfree.
    apply andb_true_iff in Hfree as [Ha He].
    cbn [extension_pattern rseq matches].
    change (String.prefix "." ("." +:+ String a e)) with true. cbn match.
    change (String.length ".") with 1.
    change (String.length ("." +:+ String a e)) with (S (S (String.length e))).
    change (substring 1 (S (S (String.length e)) - 1) ("." +:+ String a e))
      with (String a (substring 0 (String.length e) e)).
    rewrite substring_all, Ha.
    rewrite (star_takes_all _ _ _ _ _ (<[1 := String a e]> ∅) He); [reflexivity|].
    cbn beta. replace (S (pos + 1) + String.length e - (pos + 1))
      with (S (String.length e)) by lia.
    cbn [substring]. rewrite substring_all. reflexivity.
Qed.

(** A string has at most one suffix that is a dot followed by a run
    without dots. *)
Lemma extension_unique pre e pre' e' :
  free_of "." e = true -> free_of "." e' = true ->
  pre +:+ "." +:+ e = pre' +:+ "." +:+ e' -> e = e'.
Proof.
  intros He He'. revert pre'. induction pre as [|a pre IH]; intros [|a' pre'] H.
  - change (String "." e = String "." e') in H. congruence.
  - change (String "." e = String a' (pre' +:+ "." +:+ e')) in H.
    assert (Hcut : e = pre' +:+ "." +:+ e') by congruence.
    rewrite Hcut, free_of_append in He.
    apply andb_true_iff in He as [_ He]. discriminate He.
  - change (String a (pre +:+ "." +:+ e) = String "." e') in H.
    assert (Hcut : e' = pre +:+ "." +:+ e) by congruence.
    rewrite Hcut, free_of_append in He'.
    apply andb_true_iff in He' as [_ He']. discriminate He'.
  - rewrite !append_cons in H. injection H as _ H. eapply IH, H.
Qed.

Variable env : Env.

(** A path that ends in a dot and a non-empty run without dots has that
    run as its extension. *)
Lemma getFileExtension_found u pathname pre e :
  URL_pathname env u = Some pathname ->
  pathname = pre +:+ "." +:+ e -> e <> "" -> includes e "." = false ->
  getFileExtension env u = Some e.
Proof.
  unfold getFileExtension. intros -> -> Hne Hfree.
  apply free_of_includes in Hfree.
  assert (Hm : matches extension_pattern (0 + String.length pre)
                       ("." +:+ e) ∅ accept = Some (<[1 := e]> ∅))
    by (apply extension_match; eauto).
  destruct (search_finds _ _ _ _ _ Hm) as (m' & Hs).
  unfold str_match. rewrite Hs.
  apply search_suffix in Hs as (pre' & s' & Heq & Hm').
  apply extension_match in Hm' as (e' & -> & _ & Hfree' & ->).
  unfold group, captures. rewrite lookup_insert_eq. f_equal. symmetry.
  eapply extension_unique; eassumption.
Qed.

(** X2. [getFileExtension] returns the text after the last dot of the path
    when that text is not empty, slashes included, and [null] when the
    path has no dot, ends in one, or the URL does not parse. *)
Theorem getFileExtension_is_the_suffix u e :
  getFileExtension env u = Some e <->
  exists pathname pre,
    URL_pathname env u = Some pathname
    /\ pathname = pre +:+ "." +:+ e /\ e <> "" /\ includes e "." = false.
Proof.
  split.
  - unfold getFileExtension.
    destruct (URL_pathname env u) as [pathname|]; [|discriminate].
    destruct (str_match pathname extension_pattern) as [m|] eqn:E;
      [|discriminate].
    intros Hg. apply search_suffix in E as (pre & s' & -> & E).
    apply extension_match in E as (e' & -> & Hne & Hfree & ->).
    unfold group, captures in Hg. rewrite lookup_insert_eq in Hg.
    injection Hg as <-. exists (pre +:+ "." +:+ e'), pre.
    repeat split; auto. apply free_of_includes, Hfree.
  - intros (pathname & pre & Hpath & Hcut & Hne & Hfree).
    eapply getFileExtension_found; eassumption.
Qed.
End Extensions.

(* ================================================================== *)
(** ** Cleaning a URL; the identifiers of the detector *)
(* ================================================================== *)

Section Cleaning.
Import JS Browser Facts.

Lemma free_of_cons c a s :
  free_of c (String a s) = negb (Ascii.eqb a c) && free_of c s.
Proof. reflexivity. Qed.

Lemma split_go_nonempty sep s : split_go sep 0 s <> [].
Proof.
  destruct s as [|a s]; [discriminate|]. cbn [split_go].
  destruct (String.prefix sep (String a s)); [discriminate|].
  destruct (split_go sep 0 s); discriminate.
Qed.

(** The first piece of a split at a character that the head of the
    string does not contain. *)
Lemma split_char_first c u y :
  free_of c u = true ->
  first (split (u +:+ y) (String c "")) = u +:+ first (split y (String c "")).
Proof.
  unfold split. induction u as [|a u IH]; intros H; [reflexivity|].
  rewrite free_of_cons in H. apply andb_true_iff in H as [Ha Hu].
  apply negb_true_iff in Ha. rewrite !append_cons. cbn [split_go].
  rewrite prefix_char, Ha. specialize (IH Hu).
  destruct (split_go (String c "") 0 (u +:+ y)) as [|h t] eqn:E; cbn [first hd] in *.
  - exfalso. eapply split_go_nonempty; eassumption.
  - rewrite IH. reflexivity.
Qed.

Lemma split_char_whole c u :
  free_of c u = true -> first (split u (String c "")) = u.
Proof.
  intros H. rewrite <- (append_empty u) at 1.
  rewrite (split_char_first c u "" H). apply append_empty.
Qed.

Lemma split_char_cut c u x :
  free_of c u = true -> first (split (u +:+ String c x) (String c "")) = u.
Proof.
  intros H. rewrite (split_char_first c u _ H).
  unfold split. cbn [split_go]. rewrite prefix_char, Ascii.eqb_refl.
  cbn [first hd]. apply append_empty.
Qed.

Lemma prefix_other lit c a s :
  Ascii.eqb a c = false -> String.prefix (String c lit) (String a s) = false.
Proof.
  intros H.
  change (String.prefix (String c lit) (String a s))
    with (if ascii_dec c a then String.prefix lit s else false).
  destruct (ascii_dec c a) as [->|]; [|reflexivity].
  rewrite Ascii.eqb_refl in H. discriminate.
Qed.

(** The first piece of a split at [?si=] of a string whose head holds no
    question mark. *)
Lemma split_si_first u y :
  free_of "?" u = true ->
  first (split (u +:+ y) "?si=") = u +:+ first (split y "?si=").
Proof.
  unfold split. induction u as [|a u IH]; intros H; [reflexivity|].
  rewrite free_of_cons in H. apply andb_true_iff in H as [Ha Hu].
  apply negb_true_iff in Ha. rewrite !append_cons. cbn [split_go].
  rewrite (prefix_other "si=" "?" a _ Ha). specialize (IH Hu).
  destruct (split_go "?si=" 0 (u +:+ y)) as [|h t] eqn:E; cbn [first hd] in *.
  - exfalso. eapply split_go_nonempty; eassumption.
  - rewrite IH. reflexivity.
Qed.

Lemma split_si_cut u x :
  free_of "?" u = true -> first (split (u +:+ "?si=" +:+ x) "?si=") = u.
Proof.
  intros H. rewrite (split_si_first u _ H).
  replace (first (split ("?si=" +:+ x) "?si=")) with "" by (destruct x; reflexivity).
  apply append_empty.
Qed.

Lemma split_si_whole u : free_of "?" u = true -> first (split u "?si=") = u.
Proof.
  intros H. rewrite <- (append_empty u) at 1.
  rewrite (split_si_first u "" H). apply append_empty.
Qed.

Lemma cleanUrl_fragment u f :
  includes u "#" = false -> cleanUrl (u +:+ "#" +:+ f) = cleanUrl u.
Proof.
  intros H. apply free_of_includes in H. unfold cleanUrl.
  change ("#" +:+ f) with (String "#" f).
  rewrite (split_char_cut "#" u f H), (split_char_whole "#" u H). reflexivity.
Qed.

Lemma cleanUrl_si u x :
  includes u "#" = false -> includes u "?" = false ->
  cleanUrl (u +:+ "?si=" +:+ x) = cleanUrl u.
Proof.
  intros Hh Hq. apply free_of_includes in Hh, Hq. unfold cleanUrl.
  rewrite (split_char_first "#" u _ Hh), (split_char_whole "#" u Hh).
  rewrite (split_si_whole u Hq).
  assert (Hx : exists x', first (split ("?si=" +:+ x) "#") = "?si=" +:+ x').
  { exists (first (split x "#")).
    change ("?si=" +:+ x) with ("?si=" +:+ x).
    apply (split_char_first "#" "?si=" x). reflexivity. }
  destruct Hx as (x' & ->). apply split_si_cut, Hq.
Qed.

(** The download path looks at a URL through [cleanUrl] only, but for
    the text of its error. *)
Lemma download_id_of_cleanUrl u1 u2 id :
  cleanUrl u1 = cleanUrl u2 ->
  DownloadService.extractYouTubeId u1 = Fulfilled id <->
  DownloadService.extractYouTubeId u2 = Fulfilled id.
Proof.
  intros H. rewrite !download_extractor_strategy, H.
  destruct (first_accepted _ _); [reflexivity|].
  destruct (accepted _ 2); [reflexivity|]. split; discriminate.
Qed.

(** X4. A fragment does not change what the two extractors find. *)
Theorem extractors_ignore_fragment u f :
  includes u "#" = false ->
  MediaDetectionService.extractYouTubeId (u +:+ "#" +:+ f)
    = MediaDetectionService.extractYouTubeId u
  /\ forall id,
       DownloadService.extractYouTubeId (u +:+ "#" +:+ f) = Fulfilled id <->
       DownloadService.extractYouTubeId u = Fulfilled id.
Proof.
  intros H. split.
  - unfold MediaDetectionService.extractYouTubeId.
    rewrite (cleanUrl_fragment u f H). reflexivity.
  - intros id. apply download_id_of_cleanUrl, cleanUrl_fragment, H.
Qed.

(** X5. A share link: the [?si=] parameter after a URL without query does
    not change what the two extractors find. *)
Theorem extractors_ignore_share_parameter u x :
  includes u "#" = false -> includes u "?" = false ->
  MediaDetectionService.extractYouTubeId (u +:+ "?si=" +:+ x)
    = MediaDetectionService.extractYouTubeId u
  /\ forall id,
       DownloadService.extractYouTubeId (u +:+ "?si=" +:+ x) = Fulfilled id <->
       DownloadService.extractYouTubeId u = Fulfilled id.
Proof.
  intros Hh Hq. split.
  - unfold MediaDetectionService.extractYouTubeId.
    rewrite (cleanUrl_si u x Hh Hq). reflexivity.
  - intros id. apply download_id_of_cleanUrl, cleanUrl_si; assumption.
Qed.

Lemma extractors_ignore_fragment_witness :
  MediaDetectionService.extractYouTubeId
    ("https://www.youtube.com/watch?v=dQw4w9WgXcQ" +:+ "#" +:+ "t=42")
  = Some "dQw4w9WgXcQ".
Proof.
  rewrite (proj1 (extractors_ignore_fragment
                    "https://www.youtube.com/watch?v=dQw4w9WgXcQ" "t=42"
                    eq_refl)).
  vm_compute. reflexivity.
Defined.

Lemma extractors_ignore_share_parameter_witness :
  MediaDetectionService.extractYouTubeId
    ("https://youtu.be/dQw4w9WgXcQ" +:+ "?si=" +:+ "AbCdEf#t=1")
  = Some "dQw4w9WgXcQ".
Proof.
  rewrite (proj1 (extractors_ignore_share_parameter
                    "https://youtu.be/dQw4w9WgXcQ" "AbCdEf#t=1"
                    eq_refl eq_refl)).
  vm_compute. reflexivity.
Defined.
End Cleaning.

Section Markers.
Import JS Browser Facts.

(** A literal that matches is cut off the front of the input. *)
Lemma prefix_cut lit s :
  String.prefix lit s = true ->
  s = lit +:+ substring (String.length lit) (String.length s - String.length lit) s.
Proof.
  revert s. induction lit as [|c lit IH]; intros s H.
  - cbn [String.length]. rewrite Nat.sub_0_r, substring_all. reflexivity.
  - destruct s as [|a s]; [discriminate|].
    change (String.prefix (String c lit) (String a s))
      with (if ascii_dec c a then String.prefix lit s else false) in H.
    destruct (ascii_dec c a) as [->|]; [|discriminate].
    rewrite append_cons. f_equal. cbn [String.length Nat.sub substring].
    apply IH, H.
Qed.

(** A pattern [marker([C]+)]: the accepted group is a run of the class
    that follows the marker in the input. *)
Lemma marker_capture lit cs s id :
  accepted (str_match s (rseq [RLit lit; RGroup 1 (RPlus cs)])) 1 = Some id ->
  forallb cs (chars id) = true
  /\ exists pre rest, s = pre +:+ lit +:+ id +:+ rest.
Proof.
  unfold accepted, str_match.
  destruct (search _ 0 s) as [m|] eqn:E; [|discriminate].
  apply search_suffix in E as (pre & s' & -> & E).
  cbn [rseq matches] in E.
  destruct (String.prefix lit s') eqn:Hp; [|discriminate].
  apply prefix_cut in Hp. revert E Hp.
  generalize (substring (String.length lit)
                (String.length s' - String.length lit) s').
  intros s1 E Hp. subst s'.
  destruct s1 as [|a s1]; [discriminate|].
  destruct (cs a) eqn:Ea; [|discriminate].
  apply star_consumes in E as (run & rest & -> & Hrun & E).
  injection E as <-.
  unfold group, captures. rewrite lookup_insert_eq.
  replace (S (String.length pre + String.length lit + String.length run)
           - (String.length pre + String.length lit))
    with (S (String.length run)) by lia.
  rewrite substring_prefix.
  destruct (truthy _ && _); [|discriminate].
  intros [= <-]. split.
  - cbn [chars list_ascii_of_string forallb]. rewrite Ea. exact Hrun.
  - exists pre, rest. reflexivity.
Qed.

Lemma forallb_weaken (P Q : ascii -> bool) l :
  (forall a, P a = true -> Q a = true) ->
  forallb P l = true -> forallb Q l = true.
Proof.
  intros HPQ. induction l as [|a l IH]; [reflexivity|]. cbn [forallb].
  intros H. apply andb_true_iff in H as [Ha Hl].
  rewrite (HPQ a Ha), (IH Hl). reflexivity.
Qed.

Lemma none_of_slash_free cs id :
  (forall a, cs a = true -> Ascii.eqb a "/" = false) ->
  forallb cs (chars id) = true -> includes id "/" = false.
Proof.
  intros Hcs H. apply free_of_includes. unfold free_of.
  eapply forallb_weaken; [|exact H].
  intros a Ha. rewrite (Hcs a Ha). reflexivity.
Qed.

Lemma not_slash a : none_of "/" a = true -> Ascii.eqb a "/" = false.
Proof.
  unfold none_of, one_of. cbn. rewrite orb_false_r.
  intros H. apply negb_true_iff in H. exact H.
Qed.

Lemma not_slash_amp a : none_of "/&" a = true -> Ascii.eqb a "/" = false.
Proof.
  unfold none_of, one_of. cbn. rewrite orb_false_r.
  intros H. apply negb_true_iff, orb_false_iff in H as [H _]. exact H.
Qed.

(** A list of patterns of the shape [marker([C]+)]. *)
Lemma first_accepted_markers (ms : list (string * charset)) s id :
  first_accepted
    (map (fun m => rseq [RLit (fst m); RGroup 1 (RPlus (snd m))]) ms) s
  = Some id ->
  exists m pre rest,
    In m ms /\ forallb (snd m) (chars id) = true
    /\ s = pre +:+ fst m +:+ id +:+ rest.
Proof.
  induction ms as [|m ms IH]; [discriminate|].
  cbn [map first_accepted].
  destruct (accepted _ 1) as [i|] eqn:E.
  - intros [= <-]. apply marker_capture in E as (Hc & pre & rest & ->).
    exists m, pre, rest. cbn [In]. auto.
  - intros H. apply IH in H as (m' & pre & rest & Hin & Hc & ->).
    exists m', pre, rest. cbn [In]. auto.
Qed.

(** The markers after which the detector looks for an ID. *)
Lemma detector_id_follows_marker url id :
  MediaDetectionService.extractYouTubeId url = Some id ->
  includes id "/" = false
  /\ exists marker pre rest,
       In marker ["youtu.be/"; "youtube.com/watch?v="; "youtube.com/embed/";
                  "youtube.com/v/"]
       /\ cleanUrl url = pre +:+ marker +:+ id +:+ rest.
Proof.
  unfold MediaDetectionService.extractYouTubeId.
  change MediaDetectionService.patterns
    with (map (fun m => rseq [RLit (fst m); RGroup 1 (RPlus (snd m))])
              [ ("youtu.be/", none_of "/");
                ("youtube.com/watch?v=", none_of "/&");
                ("youtube.com/embed/", none_of "/");
                ("youtube.com/v/", none_of "/") ]).
  intros H. apply first_accepted_markers in H as (m & pre & rest & Hin & Hc & ->).
  cbn [In] in Hin.
  destruct Hin as [<-|[<-|[<-|[<-|[]]]]]; cbn [fst snd] in *;
    (split;
     [ eapply none_of_slash_free, Hc; first [apply not_slash | apply not_slash_amp]
     | eexists _, pre, rest; split; [|reflexivity]; cbn [In]; auto 6 ]).
Qed.

(** X6. What the detector returns as an ID is a run of ten or eleven
    characters without a slash that follows one of its four markers in
    the cleaned URL. *)
Theorem detector_id_is_sound url id :
  MediaDetectionService.extractYouTubeId url = Some id ->
  (String.length id = 10 \/ String.length id = 11)
  /\ includes id "/" = false
  /\ exists marker pre rest,
       In marker ["youtu.be/"; "youtube.com/watch?v="; "youtube.com/embed/";
                  "youtube.com/v/"]
       /\ cleanUrl url = pre +:+ marker +:+ id +:+ rest.
Proof.
  intros H. split.
  - eapply first_accepted_length, H.
  - apply detector_id_follows_marker, H.
Qed.

Lemma detector_id_is_sound_witness :
  String.length "dQw4w9WgXcQ" = 10 \/ String.length "dQw4w9WgXcQ" = 11.
Proof.
  apply (detector_id_is_sound "https://youtu.be/dQw4w9WgXcQ?si=abc" "dQw4w9WgXcQ").
  vm_compute. reflexivity.
Defined.

(** X7. The name that the detector proposes for a platform link contains
    no path separator. *)
Theorem platform_filename_has_no_slash url :
  Forall (fun item => includes (filename item) "/" = false)
         (MediaDetectionService.handleYouTubeUrl url).
Proof.
  unfold MediaDetectionService.handleYouTubeUrl. repeat constructor.
  cbn [filename]. apply free_of_includes.
  destruct (MediaDetectionService.extractYouTubeId url) as [id|] eqn:E;
    [|reflexivity].
  destruct (truthy id); [|reflexivity].
  apply detector_id_follows_marker in E as [E _].
  apply free_of_includes in E.
  rewrite !free_of_append, E. reflexivity.
Qed.
End Markers.

(* ================================================================== *)
(** ** Deduplication, kinds and requests of the detection *)
(* ================================================================== *)

Section Deduplication.
Import JS Browser Props Facts MediaDetectionService.

Lemma existsb_elem_of u seen :
  existsb (String.eqb u) seen = true <-> u ∈ seen.
Proof.
  induction seen as [|x seen IH]; cbn.
  - split; [discriminate | intros H; inversion H].
  - rewrite orb_true_iff, IH, String.eqb_eq, elem_of_cons. reflexivity.
Qed.

Lemma existsb_not_elem_of u seen :
  existsb (String.eqb u) seen = false <-> u ∉ seen.
Proof.
  rewrite <- existsb_elem_of. destruct (existsb _ seen); split; congruence.
Qed.

Lemma first_seen_members seen l u :
  u ∈ map url (first_seen seen l) <-> u ∈ map url l /\ u ∉ seen.
Proof.
  revert seen. induction l as [|x l IH]; intros seen; cbn [first_seen map].
  - split; [intros H; inversion H | intros [H _]; inversion H].
  - destruct (existsb (String.eqb (url x)) seen) eqn:E.
    + rewrite IH, elem_of_cons. apply existsb_elem_of in E.
      split; [tauto|]. intros [[->|H] Hn]; tauto.
    + apply existsb_not_elem_of in E. cbn [map].
      rewrite !elem_of_cons, IH, not_elem_of_cons. split.
      * intros [->|(H & Hne & Hn)]; tauto.
      * intros [[->|H] Hn]; [tauto|].
        destruct (String.eqb_spec u (url x)) as [->|Hne]; tauto.
Qed.

Lemma first_seen_fixed seen l :
  NoDup (map url l) -> (forall u, u ∈ map url l -> u ∉ seen) ->
  first_seen seen l = l.
Proof.
  revert seen. induction l as [|x l IH]; intros seen Hnd Hseen; [reflexivity|].
  cbn [first_seen]. cbn [map] in Hnd, Hseen. apply NoDup_cons in Hnd as [Hx Hnd].
  assert (E : existsb (String.eqb (url x)) seen = false).
  { apply existsb_not_elem_of, Hseen, elem_of_cons. auto. }
  rewrite E. f_equal. apply IH; [exact Hnd|].
  intros u Hu. rewrite not_elem_of_cons. split.
  - intros ->. contradiction.
  - apply Hseen, elem_of_cons. auto.
Qed.

(** X9. Removal of duplicates loses no address: the URLs of the result are
    those of the input. *)
Theorem uniqueMedia_loses_no_url mediaItems u :
  u ∈ map url (uniqueMedia mediaItems) <-> u ∈ map url mediaItems.
Proof.
  rewrite uniqueMedia_first_seen, first_seen_members.
  split; [tauto|]. intros H. split; [exact H|]. apply not_elem_of_nil.
Qed.

(** X10. The lists that removal of duplicates leaves alone are those without
    a repeated URL; in particular a second pass changes nothing. *)
Theorem uniqueMedia_fixed_points mediaItems :
  (uniqueMedia mediaItems = mediaItems <-> NoDup (map url mediaItems))
  /\ uniqueMedia (uniqueMedia mediaItems) = uniqueMedia mediaItems.
Proof.
  assert (Hfix : forall l, NoDup (map url l) -> uniqueMedia l = l).
  { intros l H. rewrite uniqueMedia_first_seen. apply first_seen_fixed; [exact H|].
    intros u _. apply not_elem_of_nil. }
  split; [split|].
  - intros H. rewrite <- H, uniqueMedia_first_seen. apply first_seen_NoDup.
  - apply Hfix.
  - apply Hfix. rewrite uniqueMedia_first_seen. apply first_seen_NoDup.
Qed.
End Deduplication.

Section Kinds.
Import JS Browser Props Facts MediaDetectionService.
Variable env : Env.

Lemma Forall_flat_map {A B} (P : B -> Prop) (f : A -> list B) l :
  (forall x, Forall P (f x)) -> Forall P (flat_map f l).
Proof.
  intros H. induction l as [|x l IH]; cbn; [constructor|].
  apply Forall_app. auto.
Qed.

Lemma extractImages_kind doc base :
  Forall (fun item => type item = image) (extractImages env doc base).
Proof.
  apply Forall_flat_map. intros img.
  destruct (or_null _ _) as [src|]; [|constructor].
  destruct (truthy src); repeat constructor.
Qed.

Lemma push_video_kind src base :
  Forall (fun item => type item = video) (push_video env src base).
Proof.
  unfold push_video. destruct src as [s|]; [|constructor].
  destruct (truthy s); repeat constructor.
Qed.

Lemma extractVideos_kind doc base :
  Forall (fun item => type item = video) (extractVideos env doc base).
Proof.
  apply Forall_app. split; apply Forall_flat_map.
  - intros v. apply Forall_app. split; [apply push_video_kind|].
    apply Forall_flat_map. intros src. apply push_video_kind.
  - intros [s|]; [|constructor].
    destruct (truthy s && _); repeat constructor.
Qed.

Lemma extractAudio_kind doc base :
  Forall (fun item => type item = audio) (extractAudio env doc base).
Proof.
  apply Forall_flat_map. intros [s|]; [|constructor].
  destruct (truthy s); repeat constructor.
Qed.

Lemma extractCSSMedia_kind doc base :
  Forall (fun item => type item = image) (extractCSSMedia env doc base).
Proof.
  apply Forall_flat_map. intros attr. cbn zeta.
  destruct (str_match _ _); repeat constructor.
Qed.

Lemma detectMedia_kinds pageUrl t items evs :
  detectMedia env pageUrl t = (Fulfilled items, evs) ->
  Forall (fun item => type item <> other) items.
Proof.
  intros H.
  destruct (detectMedia_cases env pageUrl t) as (items' & evs' & H' & Hc).
  rewrite H in H'. injection H' as <- <-.
  destruct Hc as [-> | [-> | [doc ->]]].
  - repeat constructor. discriminate.
  - repeat constructor; discriminate.
  - rewrite uniqueMedia_first_seen. apply first_seen_Forall.
    assert (Hk : forall k l, k <> other ->
                 Forall (fun item : MediaItem => type item = k) l ->
                 Forall (fun item => type item <> other) l).
    { intros k l Hne Hl. eapply Forall_impl; [exact Hl|].
      cbn. intros item ->. exact Hne. }
    apply Forall_app. split; [apply (Hk image), extractImages_kind; discriminate|].
    apply Forall_app. split; [apply (Hk video), extractVideos_kind; discriminate|].
    apply Forall_app. split; [apply (Hk audio), extractAudio_kind; discriminate|].
    apply (Hk image), extractCSSMedia_kind. discriminate.
Qed.

(** The detection without the promise: a platform link is answered
    without any request; any other page costs one request to the proxy,
    and is answered from its text when that can be had, and by the
    sample items when not. *)
Lemma detectMedia_run pageUrl t :
  detectMedia env pageUrl t =
    if platform_url pageUrl
    then (Fulfilled (handleYouTubeUrl pageUrl), [])
    else (Fulfilled
            match page_text env t pageUrl with
            | Some htmlContent =>
                let doc := parseFromString env htmlContent in
                uniqueMedia (extractImages env doc pageUrl
                             ++ extractVideos env doc pageUrl
                             ++ extractAudio env doc pageUrl
                             ++ extractCSSMedia env doc pageUrl)
            | None => getSampleMediaItems
            end,
          [Fetch (page_request pageUrl)]).
Proof.
  unfold detectMedia, platform_url, page_text, page_request.
  destruct (includes pageUrl "youtube.com" || includes pageUrl "youtu.be");
    [reflexivity|].
  unfold try_catch, bind, fetch, throw, ret, await.
  destruct (network env t _) as [response|e]; [|reflexivity].
  destruct (ok response); cbn [negb]; [|reflexivity].
  cbn [length app Nat.add].
  destruct (match content_type response with
            | Some ct => includes ct "application/json"
            | None => false
            end).
  - destruct (json response) as [data|e]; reflexivity.
  - destruct (text response) as [html|e]; reflexivity.
Qed.

(** X11. Detection asks for at most one thing, the page through the proxy;
    it never asks the page's own server, and asks for nothing at all
    when the link points to the video platform. *)
Theorem detectMedia_requests pageUrl t :
  snd (detectMedia env pageUrl t) =
    if platform_url pageUrl then [] else [Fetch (page_request pageUrl)].
Proof.
  rewrite detectMedia_run. destruct (platform_url pageUrl); reflexivity.
Qed.

(** X12. When the page cannot be had (the request fails, the status is not
    acceptable, or the body cannot be read) detection does not fail and
    does not answer with an empty list: it answers with the five sample
    items. *)
Theorem detectMedia_falls_back_to_samples pageUrl t :
  platform_url pageUrl = false ->
  page_text env t pageUrl = None ->
  fst (detectMedia env pageUrl t) = Fulfilled getSampleMediaItems.
Proof.
  intros Hp Ht. rewrite detectMedia_run, Hp, Ht. reflexivity.
Qed.
End Kinds.

Section KindsRuns.
Import JS Browser Props Facts Fixtures MediaDetectionService.

Lemma detectMedia_falls_back_to_samples_witness :
  fst (detectMedia offline "https://site.example/gallery" 0)
  = Fulfilled getSampleMediaItems.
Proof.
  apply (detectMedia_falls_back_to_samples offline); vm_compute; reflexivity.
Defined.
End KindsRuns.

Section DetectionInvariant.
Import JS Browser Props Facts Worlds MediaDetectionService.

Lemma found_named env t pageUrl : Forall well_named (found env t pageUrl).
Proof.
  unfold found. destruct (platform_url pageUrl);
    [apply handleYouTubeUrl_named|].
  destruct (page_text env t pageUrl) as [htmlContent|];
    [|apply getSampleMediaItems_named].
  cbn zeta.
  apply Forall_app; split; [apply extractImages_named|].
  apply Forall_app; split; [apply extractVideos_named|].
  apply Forall_app; split; [apply extractAudio_named|].
  apply extractCSSMedia_named.
Qed.

(** What detection resolves to is what it has found, each URL kept where
    it was first seen. *)
Lemma detectMedia_first_seen env pageUrl t :
  fst (detectMedia env pageUrl t)
  = Fulfilled (first_seen [] (found env t pageUrl)).
Proof.
  rewrite detectMedia_run. unfold found.
  destruct (platform_url pageUrl); cbn [fst].
  - rewrite first_seen_fixed; [reflexivity| |intros u _; apply not_elem_of_nil].
    unfold handleYouTubeUrl. cbn [map]. apply NoDup_singleton.
  - destruct (page_text env t pageUrl) as [htmlContent|].
    + cbn zeta. rewrite uniqueMedia_first_seen. reflexivity.
    + rewrite first_seen_fixed;
        [reflexivity | apply getSampleMediaItems_NoDup
        | intros u _; apply not_elem_of_nil].
Qed.

Lemma no_extension_after_slash stem :
  ~ has_extension (stem +:+ "." +:+ "2/logo").
Proof.
  intros (stem' & ext & Heq & _ & _ & Hdot & Hslash).
  assert (E : "2/logo" = ext).
  { apply (extension_unique stem "2/logo" stem' ext);
      [reflexivity | apply free_of_includes, Hdot | exact Heq]. }
  subst ext. discriminate Hslash.
Qed.

(** C3. [detectMedia] always resolves, and what it resolves to is the
    list of the descriptors that it has found (the one of a platform
    link; those of the images, videos, audio and styles of the page, in
    this order; or the samples) with each URL kept where it was first
    seen and dropped where it comes again: the URLs of the result are
    pairwise distinct, and the result is in the order of what was found.
    Every descriptor has a non-empty file name of the form stem.ext, with
    both parts non-empty and no dot in ext. But ext need not be a file
    extension: it is what follows the last dot of the whole path. For a
    page with an image at https://cdn.example/v1.2/logo the descriptor is
    an image named logo.2/logo, whose name does not end in a file
    extension. *)
Theorem detection_result_invariant env pageUrl t :
  let items := first_seen [] (found env t pageUrl) in
  fst (detectMedia env pageUrl t) = Fulfilled items
  /\ NoDup (map url items)
  /\ items `sublist_of` found env t pageUrl
  /\ (forall u, u ∈ map url items <-> u ∈ map url (found env t pageUrl))
  /\ Forall (fun item => filename item <> "" /\ dotted_name (filename item))
            items
  /\ exists item,
       fst (detectMedia versioned_directory "https://site.example/" 0)
       = Fulfilled [item]
       /\ url item = "https://cdn.example/v1.2/logo"
       /\ type item = image
       /\ filename item = "logo.2/logo"
       /\ ~ has_extension (filename item).
Proof.
  cbn zeta. split; [apply detectMedia_first_seen|].
  split; [apply first_seen_NoDup|]. split; [apply first_seen_sublist|].
  split; [|split].
  - intros u. rewrite first_seen_members. split; [tauto|].
    intros H. split; [exact H | apply not_elem_of_nil].
  - apply first_seen_Forall. eapply Forall_impl; [apply found_named|].
    intros item H. split; [|exact H].
    apply (dotted_name_nonempty _ H).
  - eexists. split; [vm_compute; reflexivity|].
    split; [reflexivity|]. split; [reflexivity|]. split; [reflexivity|].
    apply (no_extension_after_slash "logo").
Qed.
End DetectionInvariant.

(* ================================================================== *)
(** ** The analysis view *)
(* ================================================================== *)

Section Analysis.
Import JS Browser Props Facts MediaDetectionService MediaDownloader.
Variable env : Env.

Lemma handleAnalyze_run ticks v t :
  truthy (view_url v) = true ->
  exists items evs,
    detectMedia env (view_url v) t = (Fulfilled items, evs)
    /\ handleAnalyze env ticks v t
       = (Fulfilled (mkView (view_url v) false items 100),
          evs ++ [Toast "Analysis Complete"
                        ("Found " +:+ show (length items) +:+ " media items")]).
Proof.
  intros Hu. destruct (detectMedia_cases env (view_url v) t)
    as (items & evs & Hrun & _).
  exists items, evs. split; [exact Hrun|].
  unfold handleAnalyze. rewrite Hu. cbn [negb].
  unfold bind, try_catch, toast, emit, ret. rewrite Hrun. cbn.
  rewrite !app_nil_r. reflexivity.
Qed.

(** X16. An analysis of a non-empty URL always completes: the handler shows
    the completion notice with the number of items found, never the
    failure notice, and leaves the items of the detection in the view
    with the progress at 100, however often the progress timer fired. *)
Theorem analysis_always_completes ticks v t :
  truthy (view_url v) = true ->
  exists items evs,
    detectMedia env (view_url v) t = (Fulfilled items, evs)
    /\ handleAnalyze env ticks v t
       = (Fulfilled (mkView (view_url v) false items 100),
          evs ++ [Toast "Analysis Complete"
                        ("Found " +:+ show (length items) +:+ " media items")])
    /\ toasts "Analysis Failed" (snd (handleAnalyze env ticks v t)) = 0.
Proof.
  intros Hu. destruct (handleAnalyze_run ticks v t Hu) as (items & evs & Hd & Hr).
  exists items, evs. split; [exact Hd|]. split; [exact Hr|].
  rewrite Hr. cbn [snd]. rewrite toasts_app. cbn.
  assert (Hevs : evs = if platform_url (view_url v) then []
                       else [Fetch (page_request (view_url v))]).
  { pose proof (detectMedia_run env (view_url v) t) as Hrun.
    rewrite Hd in Hrun. destruct (platform_url (view_url v)); congruence. }
  rewrite Hevs. destruct (platform_url _); reflexivity.
Qed.

Lemma count_kinds items :
  Forall (fun item => type item <> other) items ->
  count image items + count video items + count audio items = length items.
Proof.
  unfold count. induction 1 as [|item items Hitem _ IH]; [reflexivity|].
  cbn [List.filter length]. destruct (type item); cbn; try lia. congruence.
Qed.

(** X17. The statistics card adds up: as long as the view holds no item of
    kind [other], which no analysis ever puts there, the numbers of
    images, videos and audio files sum to the total. *)
Theorem statistics_add_up ticks v t v' evs :
  Forall (fun item => type item <> other) (mediaItems v) ->
  handleAnalyze env ticks v t = (Fulfilled v', evs) ->
  Forall (fun item => type item <> other) (mediaItems v')
  /\ count image (mediaItems v') + count video (mediaItems v')
     + count audio (mediaItems v')
     = length (mediaItems v').
Proof.
  intros Hv Hrun.
  assert (Hv' : Forall (fun item => type item <> other) (mediaItems v')).
  { destruct (truthy (view_url v)) eqn:Hu.
    - destruct (handleAnalyze_run ticks v t Hu) as (items & evs0 & Hd & Hr).
      rewrite Hr in Hrun. injection Hrun as <- <-. cbn [mediaItems].
      eapply detectMedia_kinds, Hd.
    - unfold handleAnalyze in Hrun. rewrite Hu in Hrun.
      injection Hrun as <- <-. exact Hv. }
  split; [exact Hv' | apply count_kinds, Hv'].
Qed.

Lemma first_seen_nil seen l : first_seen seen l = [] -> seen = [] -> l = [].
Proof.
  intros H ->. destruct l as [|x l]; [reflexivity|]. discriminate H.
Qed.

(** X18. After an analysis the card that says that no media was found is
    shown exactly when the page was fetched and parsed and none of the
    four extractors found anything in it: never for a link to the video
    platform, and never for a page that could not be fetched. *)
Theorem empty_state_means_empty_page ticks v t v' evs :
  truthy (view_url v) = true ->
  handleAnalyze env ticks v t = (Fulfilled v', evs) ->
  showsEmptyState v' = negb (showsResults v')
  /\ (showsEmptyState v' = true <->
      platform_url (view_url v) = false
      /\ exists htmlContent,
           page_text env t (view_url v) = Some htmlContent
           /\ let doc := parseFromString env htmlContent in
              extractImages env doc (view_url v)
              ++ extractVideos env doc (view_url v)
              ++ extractAudio env doc (view_url v)
              ++ extractCSSMedia env doc (view_url v) = []).
Proof.
  intros Hu Hrun.
  destruct (handleAnalyze_run ticks v t Hu) as (items & evs0 & Hd & Hr).
  rewrite Hr in Hrun. injection Hrun as <- <-.
  unfold showsEmptyState, showsResults. cbn [isAnalyzing mediaItems view_url negb].
  rewrite Hu, andb_true_r. cbn [andb]. split.
  { destruct items; reflexivity. }
  rewrite detectMedia_run in Hd. rewrite Nat.eqb_eq, length_zero_iff_nil.
  destruct (platform_url (view_url v)).
  { injection Hd as <- _. split; [discriminate | intros [? _]; discriminate]. }
  injection Hd as <- _.
  destruct (page_text env t (view_url v)) as [html|].
  - cbn zeta. rewrite uniqueMedia_first_seen. split.
    + intros H. split; [reflexivity|]. exists html. split; [reflexivity|].
      eapply first_seen_nil; [exact H | reflexivity].
    + intros (_ & html' & [= <-] & H). rewrite H. reflexivity.
  - split; [discriminate | intros (_ & html' & H & _); discriminate].
Qed.
End Analysis.

Section AnalysisRuns.
Import JS Browser Props Facts Fixtures Worlds MediaDetectionService MediaDownloader.

Lemma analysis_always_completes_witness :
  exists items evs,
    handleAnalyze offline 3 (mkView "https://site.example/gallery" false [] 0) 0
    = (Fulfilled (mkView "https://site.example/gallery" false items 100), evs)
    /\ length items = 5.
Proof.
  destruct (analysis_always_completes offline 3
              (mkView "https://site.example/gallery" false [] 0) 0 eq_refl)
    as (items & evs & Hd & Hr & _).
  eexists items, _. split; [exact Hr|].
  vm_compute in Hd. injection Hd as <- _. reflexivity.
Defined.

Lemma statistics_add_up_witness :
  exists v',
    fst (handleAnalyze offline 0 (mkView "https://site.example/gallery" false [] 0) 0)
      = Fulfilled v'
    /\ count image (mediaItems v') + count video (mediaItems v')
       + count audio (mediaItems v')
       = length (mediaItems v').
Proof.
  eexists. split; [vm_compute; reflexivity|].
  eapply (statistics_add_up offline 0
            (mkView "https://site.example/gallery" false [] 0) 0).
  - constructor.
  - vm_compute. reflexivity.
Defined.

Lemma empty_state_means_empty_page_witness :
  exists v',
    fst (handleAnalyze bare_page 0 (mkView "https://site.example/" false [] 0) 0)
      = Fulfilled v'
    /\ showsEmptyState v' = true.
Proof.
  eexists. split; [vm_compute; reflexivity|].
  refine (proj2 (proj2 (empty_state_means_empty_page bare_page 0
                          (mkView "https://site.example/" false [] 0) 0 _ _ _ _)) _).
  - reflexivity.
  - vm_compute. reflexivity.
  - split; [reflexivity|]. eexists. split; vm_compute; reflexivity.
Defined.
End AnalysisRuns.

(* ================================================================== *)
(** ** What a download saves *)
(* ================================================================== *)

Section Saving.
Import JS Browser Props Facts DownloadService.

Lemma saves_app evs evs' : saves (evs ++ evs') = saves evs + saves evs'.
Proof. unfold saves. rewrite List.filter_app, length_app. reflexivity. Qed.

Lemma saves_cons ev evs :
  saves (ev :: evs) = (if saved ev then 1 else 0) + saves evs.
Proof. unfold saves. cbn [List.filter]. destruct (saved ev); reflexivity. Qed.

Lemma saves_quiet evs : Forall quiet evs -> saves evs = 0.
Proof.
  unfold saves. induction 1 as [|ev evs Hev _ IH]; [reflexivity|].
  cbn [List.filter]. rewrite Hev. exact IH.
Qed.

Lemma quiet_named name ev : quiet ev -> saved_as name ev.
Proof. destruct ev; cbn; intros H; auto. discriminate. Qed.

Context {A : Type}.
Variable name : string.

Lemma saves_once_ret (a : A) : saves_once name (ret a).
Proof. intros t r evs [= <- <-]. repeat split; auto; try constructor. Qed.

Lemma saves_once_throw (e : Error) : saves_once name (@throw A e).
Proof. intros t r evs [= <- <-]. repeat split; auto; try constructor. Qed.

Lemma saves_once_quiet (m : M A) : emits quiet m -> saves_once name m.
Proof.
  intros Hm t r evs H. specialize (Hm _ _ _ H).
  rewrite (saves_quiet _ Hm). repeat split; auto.
  eapply Forall_impl; [exact Hm | apply quiet_named].
Qed.

Lemma saves_once_try_catch (m : M A) (h : Error -> M A) :
  saves_once name m -> (forall e, saves_once name (h e)) ->
  saves_once name (try_catch m h).
Proof.
  intros Hm Hh t r evs. unfold try_catch.
  destruct (m t) as [[a|e] evs1] eqn:E1.
  - intros [= <- <-]. exact (Hm _ _ _ E1).
  - destruct (h e (t + length evs1)) as [r2 evs2] eqn:E2.
    intros [= <- <-].
    destruct (Hm _ _ _ E1) as (Hn1 & _ & H0). specialize (H0 eq_refl).
    destruct (Hh _ _ _ _ E2) as (Hn2 & Hle & Hr).
    rewrite saves_app, H0. repeat split; auto. apply Forall_app. auto.
Qed.

Lemma saves_once_if (b : bool) (m1 m2 : M A) :
  saves_once name m1 -> saves_once name m2 ->
  saves_once name (if b then m1 else m2).
Proof. destruct b; auto. Qed.
End Saving.

Section SavingBind.
Import JS Browser Props Facts DownloadService.
Context {A B : Type}.
Variable name : string.

Lemma saves_once_bind (m : M A) (k : A -> M B) :
  emits quiet m -> (forall a, saves_once name (k a)) ->
  saves_once name (bind m k).
Proof.
  intros Hm Hk t r evs. unfold bind.
  destruct (m t) as [[a|e] evs1] eqn:E1.
  - destruct (k a (t + length evs1)) as [r2 evs2] eqn:E2.
    intros [= <- <-]. specialize (Hm _ _ _ E1).
    destruct (Hk _ _ _ _ E2) as (Hn2 & Hle & Hr).
    rewrite saves_app, (saves_quiet _ Hm). repeat split; auto.
    apply Forall_app. split; [|exact Hn2].
    eapply Forall_impl; [exact Hm | apply quiet_named].
  - intros [= <- <-]. specialize (Hm _ _ _ E1).
    rewrite (saves_quiet _ Hm). repeat split; auto.
    eapply Forall_impl; [exact Hm | apply quiet_named].
Qed.
End SavingBind.

Ltac saves_step :=
  first
    [ apply saves_once_bind; [| intros ?]
    | apply saves_once_try_catch; [| intros ?]
    | apply saves_once_if
    | apply saves_once_ret
    | apply saves_once_throw
    | apply emits_bind; [| intros ?]
    | apply emits_try_catch; [| intros ?]
    | apply emits_if
    | apply emits_ret
    | apply emits_throw
    | apply emits_await
    | apply emits_fetch; reflexivity
    | apply emits_emit; reflexivity
    | apply emits_anchor; reflexivity ].

Section SavingDownloads.
Import JS Browser Props Facts DownloadService.
Variable env : Env.

Lemma saves_once_saveAs {A} b name (k : M A) :
  emits quiet k -> (forall t r evs, k t = (r, evs) -> is_rejected r = false) ->
  saves_once name (bind (saveAs b name) (fun _ => k)).
Proof.
  intros Hq Hk t r evs. unfold bind, saveAs, emit.
  destruct (k (t + length [SaveAs b name])) as [r2 evs2] eqn:E.
  intros [= <- <-]. specialize (Hq _ _ _ E). specialize (Hk _ _ _ E).
  change ([SaveAs b name] ++ evs2) with (SaveAs b name :: evs2).
  unfold saves. cbn [List.filter saved length].
  fold (saves evs2). rewrite (saves_quiet _ Hq), Hk.
  repeat split; [|lia|discriminate].
  constructor; [reflexivity|].
  eapply Forall_impl; [exact Hq | apply quiet_named].
Qed.

Lemma saves_once_save b name : saves_once name (saveAs b name).
Proof.
  intros t r evs [= <- <-]. repeat split; [|cbn; lia|discriminate].
  repeat constructor.
Qed.

Lemma service1_saves_once item : saves_once (filename item) (service1 env item).
Proof.
  unfold service1.
  repeat first [ apply saves_once_save | saves_step ].
Qed.

Lemma web_service_saves_once endpoint field item :
  saves_once (filename item) (web_service env endpoint field item).
Proof.
  unfold web_service.
  repeat first [ apply saves_once_save | saves_step ].
Qed.

Lemma try_services_saves_once name services i last :
  Forall (saves_once name) services ->
  saves_once name (try_services services i last).
Proof.
  intros H. revert i last.
  induction H as [|service services Hs _ IH]; intros i last t r evs.
  - rewrite try_services_exhausted. intros [= <- <-].
    repeat split; auto; try constructor.
  - destruct (service (t + 1)) as [[[]|e] evs1] eqn:E.
    + rewrite (try_services_fulfilled _ _ _ _ _ _ E). intros [= <- <-].
      destruct (Hs _ _ _ E) as (Hn & Hle & _).
      cbn [app]. rewrite saves_cons, saves_app. cbn.
      repeat split; [|lia|discriminate].
      constructor; [exact I|]. apply Forall_app. split; [exact Hn|].
      repeat constructor.
    + rewrite (try_services_rejected _ _ _ _ _ _ _ E).
      destruct (try_services services (S i) (Some e) (t + length evs1 + 2))
        as [r2 evs2] eqn:E2.
      intros [= <- <-]. cbn [fst snd].
      destruct (Hs _ _ _ E) as (Hn & _ & H0). specialize (H0 eq_refl).
      destruct (IH _ _ _ _ _ E2) as (Hn2 & Hle & Hr).
      cbn [app]. rewrite saves_cons, saves_app, saves_cons, H0. cbn.
      repeat split; auto.
      constructor; [exact I|]. apply Forall_app. split; [exact Hn|].
      constructor; [exact I|]. exact Hn2.
Qed.

Lemma downloadDirectMedia_saves_once item :
  saves_once (filename item) (downloadDirectMedia env item).
Proof.
  unfold downloadDirectMedia, createDownloadLink, window_open.
  repeat first [ apply saves_once_save | saves_step ].
  all: apply saves_once_quiet; repeat saves_step.
Qed.

Lemma downloadMedia_saves_once item :
  saves_once (filename item) (downloadMedia env item).
Proof.
  unfold downloadMedia, downloadBlobVideo, downloadEmbeddedVideo,
    downloadYouTubeVideo, downloadServices.
  repeat first [ apply saves_once_save
               | apply downloadDirectMedia_saves_once
               | apply try_services_saves_once
               | saves_step ].
  constructor; [apply service1_saves_once|].
  constructor; [apply web_service_saves_once|].
  constructor; [apply web_service_saves_once|]. constructor.
Qed.

(** X19. One download saves at most one file, under the name of the
    descriptor; a download that is reported as failed has saved
    nothing. *)
Theorem download_saves_at_most_one_file item t r evs :
  downloadMedia env item t = (r, evs) ->
  Forall (saved_as (filename item)) evs
  /\ saves evs <= 1
  /\ (is_rejected r = true -> saves evs = 0).
Proof.
  intros Hrun.
  destruct (downloadMedia_saves_once item t r evs Hrun) as (Hname & Hone & Hnone).
  split; [exact Hname|]. split; [exact Hone | exact Hnone].
Qed.
End SavingDownloads.

Section SavingRuns.
Import JS Browser Props Facts Fixtures DownloadService.

(** A revoked recording: the failed download has saved nothing. *)
Lemma download_saves_at_most_one_file_witness :
  saves [Fetch (GET (url recording))] = 0.
Proof.
  apply (download_saves_at_most_one_file blobs_revoked recording 0
           (Rejected (download_failure recording))).
  - vm_compute. reflexivity.
  - reflexivity.
Defined.
End SavingRuns.

(* ================================================================== *)
(** ** The direct path *)
(* ================================================================== *)

Section DirectPath.
Import JS Browser Props Facts DownloadService.
Variable env : Env.

Lemma createDownloadLink_run u name t :
  createDownloadLink env u name t =
    (Fulfilled tt,
     match anchor_click env t u name with
     | None => [AnchorClick u name]
     | Some _ => [WindowOpen u "_blank"]
     end).
Proof.
  unfold createDownloadLink, try_catch, anchor_download, window_open, emit.
  destruct (anchor_click env t u name); reflexivity.
Qed.

(** The direct path without the promise. *)
Lemma downloadDirectMedia_run item t :
  downloadDirectMedia env item t =
    (Fulfilled tt,
     Fetch (proxied item) ::
     match bytes env true t (proxied item) with
     | Some b => [SaveAs b (filename item)]
     | None =>
         Fetch (no_cors item) ::
         match bytes env false (t + 1) (no_cors item) with
         | Some b => [SaveAs b (filename item)]
         | None =>
             match anchor_click env (t + 2) (url item) (filename item) with
             | None => [AnchorClick (url item) (filename item)]
             | Some _ => [WindowOpen (url item) "_blank"]
             end
         end
     end).
Proof.
  assert (Hlink : forall e : Error,
    try_catch
      (bind (fetch env (no_cors item))
            (fun response => bind (await (blob response))
                                  (fun b => saveAs b (filename item))))
      (fun _ => createDownloadLink env (url item) (filename item)) (t + 1)
    = (Fulfilled tt,
       Fetch (no_cors item) ::
       match bytes env false (t + 1) (no_cors item) with
       | Some b => [SaveAs b (filename item)]
       | None =>
           match anchor_click env (t + 2) (url item) (filename item) with
           | None => [AnchorClick (url item) (filename item)]
           | Some _ => [WindowOpen (url item) "_blank"]
           end
       end)).
  { intros _. unfold try_catch, bind, fetch, await, saveAs, emit, bytes.
    cbn [andb].
    destruct (network env (t + 1) (no_cors item)) as [response|e].
    - destruct (blob response) as [b|e]; [reflexivity|].
      cbn [length app]. rewrite ?Nat.add_0_r.
      replace (t + 1 + 1) with (t + 2) by lia.
      rewrite createDownloadLink_run. reflexivity.
    - cbn [length app]. replace (t + 1 + 1) with (t + 2) by lia.
      rewrite createDownloadLink_run. reflexivity. }
  unfold downloadDirectMedia. fold (proxied item). fold (no_cors item).
  match goal with |- try_catch _ ?h t = _ => set (fallback := h) end.
  assert (Hfb : forall e, fallback e (t + 1) = (Fulfilled tt,
       Fetch (no_cors item) ::
       match bytes env false (t + 1) (no_cors item) with
       | Some b => [SaveAs b (filename item)]
       | None =>
           match anchor_click env (t + 2) (url item) (filename item) with
           | None => [AnchorClick (url item) (filename item)]
           | Some _ => [WindowOpen (url item) "_blank"]
           end
       end)) by (intros e; apply (Hlink e)).
  clearbody fallback. clear Hlink.
  unfold try_catch, bind, fetch, throw, ret, await, saveAs, emit, bytes.
  destruct (network env t (proxied item)) as [response|e].
  - destruct (ok response); cbn [negb andb length app Nat.add].
    + destruct (blob response) as [b|e]; [reflexivity|].
      cbn [length app]. rewrite ?Nat.add_0_r, (Hfb e). reflexivity.
    + rewrite ?Nat.add_0_r, (Hfb (mkError _)). reflexivity.
  - cbn [length]. rewrite (Hfb e). reflexivity.
Qed.

(** X20. The direct path always asks the proxy first. It asks the origin
    only when the proxy did not deliver, and resorts to a link or a new
    tab only when the origin did not deliver either; the new tab is
    opened only when the click on the link threw. A file is saved
    exactly when one of the two requests delivered; the status of the
    answer is checked for the proxy only. *)
Theorem direct_media_fallbacks_only_on_failure item t :
  let evs := snd (downloadDirectMedia env item t) in
  let proxy := bytes env true t (proxied item) in
  let origin := bytes env false (t + 1) (no_cors item) in
  let click := anchor_click env (t + 2) (url item) (filename item) in
  head evs = Some (Fetch (proxied item))
  /\ (Fetch (no_cors item) ∈ evs <-> proxy = None)
  /\ (AnchorClick (url item) (filename item) ∈ evs <->
      proxy = None /\ origin = None /\ click = None)
  /\ (WindowOpen (url item) "_blank" ∈ evs <->
      proxy = None /\ origin = None /\ click <> None)
  /\ (saves evs = 1 <-> proxy <> None \/ (proxy = None /\ origin <> None))
  /\ (saves evs = 0 <-> proxy = None /\ origin = None).
Proof.
  cbn zeta. rewrite downloadDirectMedia_run. cbn [snd head].
  split; [reflexivity|].
  destruct (bytes env true t (proxied item)) as [b|];
    [|destruct (bytes env false (t + 1) (no_cors item)) as [b|];
      [|destruct (anchor_click env (t + 2) (url item) (filename item)) as [e|]]];
    rewrite !elem_of_cons, !elem_of_nil; unfold saves, proxied, no_cors, GET;
    cbn [List.filter saved length];
    intuition (discriminate || congruence).
Qed.
End DirectPath.

(* ================================================================== *)
(** ** Failures of a download; from detection to the backend *)
(* ================================================================== *)

Section Failures.
Import JS Browser Props Facts DownloadService.
Variable env : Env.

Lemma downloadEmbeddedVideo_elsewhere item :
  platform_url (url item) = false ->
  resolves (downloadEmbeddedVideo env item).
Proof.
  unfold platform_url, downloadEmbeddedVideo. intros ->. intros t.
  destruct (downloadDirectMedia_resolves env item t) as (a & evs & H).
  exists a, evs. apply try_catch_resolved, H.
Qed.

(** X21. A download can fail only for a video behind an object URL and for a
    link to the video platform; in particular it cannot fail for a Vimeo
    link, which goes down the direct path. Whatever went wrong, the
    error that the caller sees is the same: it names the file and
    nothing else. *)
Theorem only_blob_and_platform_downloads_fail item t e evs :
  downloadMedia env item t = (Rejected e, evs) ->
  e = download_failure item
  /\ (is_blob_video item = true
      \/ (is_blob_video item = false /\ platform_url (url item) = true)).
Proof.
  rewrite downloadMedia_dispatch. unfold try_catch.
  destruct (branch env (dispatch item) item t) as [[a|e0] evs0] eqn:E;
    [discriminate|].
  intros [= <- _]. split; [reflexivity|].
  unfold dispatch in E. destruct (is_blob_video item); [auto|]. right.
  split; [reflexivity|].
  destruct (platform_url (url item)) eqn:Hp; [reflexivity|]. exfalso.
  assert (Hres : exists a evs', branch env
            (if on_video_platform item then EmbeddedVideo else DirectMedia)
            item t = (Fulfilled a, evs')).
  { destruct (on_video_platform item); cbn [branch].
    - apply downloadEmbeddedVideo_elsewhere, Hp.
    - apply downloadDirectMedia_resolves. }
  destruct Hres as (a & evs' & Hres). congruence.
Qed.

(** X22. A link to the video platform from which no ID can be extracted
    fails at once: no strategy is tried and nothing is requested, though
    the backend would have been given the URL and not the ID. *)
Theorem unextractable_id_fails_without_traffic item t e0 :
  is_blob_video item = false ->
  platform_url (url item) = true ->
  extractYouTubeId (url item) = Rejected e0 ->
  downloadMedia env item t = (Rejected (download_failure item), []).
Proof.
  unfold is_blob_video, platform_url. intros Hb Hp He.
  unfold downloadMedia. rewrite Hb, Hp. cbn [orb].
  unfold downloadEmbeddedVideo. rewrite Hp, He. reflexivity.
Qed.
End Failures.

Section FailureRuns.
Import JS Browser Props Facts Fixtures DownloadService.

(** The failure of a revoked recording is that of a blob video. *)
Lemma only_blob_and_platform_downloads_fail_witness :
  download_failure recording = download_failure recording
  /\ (is_blob_video recording = true
      \/ (is_blob_video recording = false
          /\ platform_url (url recording) = true)).
Proof.
  apply (only_blob_and_platform_downloads_fail offline recording 0 _
           [Fetch (GET (url recording))]).
  vm_compute. reflexivity.
Defined.

(** A playlist. *)
Lemma unextractable_id_fails_without_traffic_witness :
  let item := item_of "https://www.youtube.com/playlist?list=PL0123456789"
                      video "youtube_video.mp4" in
  downloadMedia backend_down item 0 = (Rejected (download_failure item), []).
Proof.
  cbn zeta.
  eapply (unextractable_id_fails_without_traffic backend_down);
    vm_compute; reflexivity.
Defined.
End FailureRuns.

Section Composition.
Import JS Browser Props Facts MediaDetectionService.
Variable env : Env.

Lemma first_split_prefix s sep : exists tail, s = first (split s sep) +:+ tail.
Proof.
  unfold split. induction s as [|c s IH]; [exists ""; reflexivity|].
  cbn [split_go]. destruct (String.prefix sep (String c s)).
  - exists (String c s). reflexivity.
  - destruct IH as (tail & IH).
    destruct (split_go sep 0 s) as [|h l] eqn:E.
    + exfalso. eapply split_go_nonempty, E.
    + cbn [first hd] in *. exists tail. rewrite append_cons. congruence.
Qed.

Lemma cleanUrl_prefix u : exists tail, u = cleanUrl u +:+ tail.
Proof.
  unfold cleanUrl.
  destruct (first_split_prefix u "#") as (t1 & H1).
  destruct (first_split_prefix (first (split u "#")) "?si=") as (t2 & H2).
  exists (t2 +:+ t1). rewrite H1 at 1. rewrite H2 at 1.
  apply append_assoc.
Qed.

Lemma includes_skip a b sub :
  includes b sub = true -> includes (a +:+ b) sub = true.
Proof.
  intros H. induction a as [|c a IH]; [exact H|].
  rewrite append_cons, includes_unfold, IH. apply orb_true_r.
Qed.

(** A URL in which the detector finds an ID is one that it treats as a
    link to the platform. *)
Lemma detector_id_platform u id :
  extractYouTubeId u = Some id -> platform_url u = true.
Proof.
  intros H. apply detector_id_follows_marker in H as (_ & m & pre & rest & Hm & Hc).
  destruct (cleanUrl_prefix u) as (tail & Hu). rewrite Hc in Hu.
  unfold platform_url. rewrite Hu. apply orb_true_iff.
  cbn [In] in Hm.
  destruct Hm as [<-|[<-|[<-|[<-|[]]]]];
    [ right | left | left | left ];
    apply includes_append_l, includes_skip, includes_append_l; reflexivity.
Qed.

Lemma service1_run item t :
  exists e,
    DownloadService.service1 env item t =
      match bytes env true t (backend_request item) with
      | Some b => (Fulfilled tt,
                   [Fetch (backend_request item); SaveAs b (filename item)])
      | None => (Rejected e, [Fetch (backend_request item)])
      end.
Proof.
  unfold DownloadService.service1. fold (backend_request item).
  unfold bind, fetch, try_catch, await, throw, ret, saveAs, emit, bytes.
  destruct (network env t (backend_request item)) as [response|e];
    [|exists e; reflexivity].
  destruct (ok response); cbn [negb andb].
  - destruct (blob response) as [b|e]; [exists (mkError "") | exists e];
      reflexivity.
  - destruct (json response) as [j|e]; eexists; reflexivity.
Qed.

(** X23. From detection to the backend. When the detector finds an ID in a
    page URL, the one descriptor it returns is accepted by the download
    path: its ID is extracted there too, the first thing requested is a
    download from the local backend, which is given the page URL and the
    name youtube_ID.mp4, and when the backend delivers, the bytes are
    saved under that name and no other service is contacted. *)
Theorem detected_video_goes_to_backend pageUrl id t t' :
  extractYouTubeId pageUrl = Some id ->
  includes pageUrl "blob:" = false ->
  exists item,
    detectMedia env pageUrl t = (Fulfilled [item], [])
    /\ url item = pageUrl
    /\ filename item = "youtube_" +:+ id +:+ ".mp4"
    /\ (exists r rest,
          DownloadService.downloadMedia env item t' =
            (r, ConsoleLog (DownloadService.trying 1)
                :: Fetch (backend_request item) :: rest))
    /\ (forall b,
          bytes env true (t' + 1) (backend_request item) = Some b ->
          DownloadService.downloadMedia env item t' =
            (Fulfilled tt,
             [ ConsoleLog (DownloadService.trying 1);
               Fetch (backend_request item);
               SaveAs b (filename item);
               ConsoleLog (DownloadService.succeeded 1) ])).
Proof.
  intros Hid Hblob.
  pose proof (detector_id_platform _ _ Hid) as Hp.
  pose proof (detector_id_accepted_downstream _ _ Hid) as Hdl.
  destruct (first_accepted_length _ _ _ Hid) as [Htruthy _].
  rewrite detectMedia_run, Hp. unfold handleYouTubeUrl. rewrite Hid, Htruthy.
  eexists. split; [reflexivity|]. cbn [url filename].
  split; [reflexivity|]. split.
  { apply append_assoc. }
  match goal with |- context [DownloadService.downloadMedia env ?i] =>
    set (item := i) end.
  assert (Hrun : DownloadService.downloadMedia env item t' =
    let r := DownloadService.try_services
               (DownloadService.downloadServices env item) 0 None t' in
    (match fst r with
     | Fulfilled a => Fulfilled a
     | Rejected _ => Rejected (download_failure item)
     end, snd r)).
  { unfold DownloadService.downloadMedia. cbn [url type item MediaType_eqb andb].
    rewrite Hblob. unfold platform_url in Hp. rewrite Hp. cbn [orb].
    unfold DownloadService.downloadEmbeddedVideo. cbn [url item]. rewrite Hp, Hdl.
    unfold DownloadService.downloadYouTubeVideo.
    unfold try_catch, bind, await, throw. cbn [length Nat.add app].
    rewrite Nat.add_0_r.
    destruct (DownloadService.try_services _ 0 None t') as [[[]|e] evs];
      cbn; rewrite ?app_nil_r; reflexivity. }
  rewrite Hrun. clear Hrun. cbn zeta.
  unfold DownloadService.downloadServices.
  destruct (service1_run item (t' + 1)) as (e1 & H1).
  destruct (bytes env true (t' + 1) (backend_request item)) as [b|].
  - rewrite (try_services_fulfilled _ _ _ _ _ _ H1). cbn [fst snd app].
    split; [eexists _, _; reflexivity|].
    intros b' [= <-]. reflexivity.
  - rewrite (try_services_rejected _ _ _ _ _ _ _ H1). cbn [fst snd app].
    split; [eexists _, _; reflexivity|]. intros b' [=].
Qed.
End Composition.

Section CompositionRuns.
Import JS Browser Props Facts Fixtures MediaDetectionService.

Lemma detected_video_goes_to_backend_witness :
  exists item,
    detectMedia blobs_revoked "https://youtu.be/dQw4w9WgXcQ" 0
      = (Fulfilled [item], [])
    /\ filename item = "youtube_" +:+ "dQw4w9WgXcQ" +:+ ".mp4".
Proof.
  destruct (detected_video_goes_to_backend blobs_revoked
              "https://youtu.be/dQw4w9WgXcQ" "dQw4w9WgXcQ" 0 0)
    as (item & Hd & _ & Hn & _).
  - vm_compute. reflexivity.
  - vm_compute. reflexivity.
  - exists item. split; assumption.
Defined.
End CompositionRuns.

(* ================================================================== *)
(** ** The earlier direct path; notifications of the grid *)
(* ================================================================== *)

Section Legacy.
Import JS Browser Props Facts.
Variable env : Env.

Lemma legacy_downloadDirectMedia_run item t :
  LegacyDownloadService.downloadDirectMedia env item t =
    match bytes env true t (proxied item) with
    | Some b => (Fulfilled tt, [Fetch (proxied item); SaveAs b (filename item)])
    | None =>
        match bytes env false (t + 1) (no_cors item) with
        | Some b =>
            (Fulfilled tt,
             [Fetch (proxied item); Fetch (no_cors item);
              SaveAs b (filename item)])
        | None =>
            match anchor_click env (t + 2) (url item) (filename item) with
            | None =>
                (Fulfilled tt,
                 [Fetch (proxied item); Fetch (no_cors item);
                  AnchorClick (url item) (filename item)])
            | Some e =>
                (Rejected e, [Fetch (proxied item); Fetch (no_cors item)])
            end
        end
    end.
Proof.
  assert (Hlink : forall e : Error,
    try_catch
      (bind (fetch env (no_cors item))
            (fun response => bind (await (blob response))
                                  (fun b => saveAs b (filename item))))
      (fun _ => LegacyDownloadService.createDownloadLink
                  env (url item) (filename item)) (t + 1)
    = match bytes env false (t + 1) (no_cors item) with
      | Some b => (Fulfilled tt, [Fetch (no_cors item); SaveAs b (filename item)])
      | None =>
          match anchor_click env (t + 2) (url item) (filename item) with
          | None => (Fulfilled tt,
                     [Fetch (no_cors item);
                      AnchorClick (url item) (filename item)])
          | Some e => (Rejected e, [Fetch (no_cors item)])
          end
      end).
  { intros _. unfold try_catch, bind, fetch, await, saveAs, emit, bytes,
      LegacyDownloadService.createDownloadLink, anchor_download.
    cbn [andb].
    destruct (network env (t + 1) (no_cors item)) as [response|e].
    - destruct (blob response) as [b|e]; [reflexivity|].
      cbn [length app]. rewrite ?Nat.add_0_r.
      replace (t + 1 + 1) with (t + 2) by lia.
      destruct (anchor_click env (t + 2) _ _); reflexivity.
    - cbn [length app]. replace (t + 1 + 1) with (t + 2) by lia.
      destruct (anchor_click env (t + 2) _ _); reflexivity. }
  unfold LegacyDownloadService.downloadDirectMedia.
  fold (proxied item). fold (no_cors item).
  match goal with |- try_catch _ ?h t = _ => set (fallback := h) end.
  assert (Hfb : forall e, fallback e (t + 1) =
      match bytes env false (t + 1) (no_cors item) with
      | Some b => (Fulfilled tt, [Fetch (no_cors item); SaveAs b (filename item)])
      | None =>
          match anchor_click env (t + 2) (url item) (filename item) with
          | None => (Fulfilled tt,
                     [Fetch (no_cors item);
                      AnchorClick (url item) (filename item)])
          | Some e => (Rejected e, [Fetch (no_cors item)])
          end
      end) by (intros e; apply (Hlink e)).
  clearbody fallback. clear Hlink.
  assert (Hshape : forall e,
    (let (r, evs') := fallback e (t + 1) in (r, [Fetch (proxied item)] ++ evs'))
    = match bytes env false (t + 1) (no_cors item) with
      | Some b =>
          (Fulfilled tt,
           [Fetch (proxied item); Fetch (no_cors item); SaveAs b (filename item)])
      | None =>
          match anchor_click env (t + 2) (url item) (filename item) with
          | None =>
              (Fulfilled tt,
               [Fetch (proxied item); Fetch (no_cors item);
                AnchorClick (url item) (filename item)])
          | Some e =>
              (Rejected e, [Fetch (proxied item); Fetch (no_cors item)])
          end
      end).
  { intros e. rewrite (Hfb e).
    destruct (bytes env false (t + 1) (no_cors item)); [reflexivity|].
    destruct (anchor_click env (t + 2) _ _); reflexivity. }
  unfold try_catch, bind, fetch, throw, ret, await, saveAs, emit, bytes.
  destruct (network env t (proxied item)) as [response|e].
  - destruct (ok response); cbn [negb andb length app Nat.add].
    + destruct (blob response) as [b|e]; [reflexivity|].
      cbn [length app]. rewrite ?Nat.add_0_r. apply Hshape.
    + rewrite ?Nat.add_0_r. apply Hshape.
  - cbn [length]. apply Hshape.
Qed.

(** X24. In the earlier version of the service the direct path can fail: it
    rejects exactly when the proxy and the origin both fail to deliver
    and the click on the download link throws, and then with the error
    of the click. On the very same inputs the later version, which
    guards the link, resolves after opening a new tab. *)
Theorem legacy_direct_media_fails_when_click_throws item t e evs :
  LegacyDownloadService.downloadDirectMedia env item t = (Rejected e, evs)
  <->
  bytes env true t (proxied item) = None
  /\ bytes env false (t + 1) (no_cors item) = None
  /\ anchor_click env (t + 2) (url item) (filename item) = Some e
  /\ evs = [Fetch (proxied item); Fetch (no_cors item)]
  /\ DownloadService.downloadDirectMedia env item t
     = (Fulfilled tt, evs ++ [WindowOpen (url item) "_blank"]).
Proof.
  rewrite legacy_downloadDirectMedia_run, downloadDirectMedia_run.
  destruct (bytes env true t (proxied item)) as [b|];
    [split; [discriminate | intros [[=] _]]|].
  destruct (bytes env false (t + 1) (no_cors item)) as [b|];
    [split; [discriminate | intros (_ & [=] & _)]|].
  destruct (anchor_click env (t + 2) (url item) (filename item)) as [e'|].
  - split.
    + intros [= -> <-]. repeat split; reflexivity.
    + intros (_ & _ & [= ->] & -> & _). reflexivity.
  - split; [discriminate | intros (_ & _ & [=] & _)].
Qed.
End Legacy.

Section Notifications.
Import JS Browser Props Facts DownloadService MediaGrid.
Variable env : Env.
Variables downloadingItems downloadedItems : gset string.

(** X25. [handleDownload] never rejects. An item that is in progress or
    already downloaded is skipped in silence: nothing is requested and
    nothing is shown. For any other item the download is run, and when
    it has settled exactly one notice is shown, which tells its
    outcome. *)
Theorem handleDownload_notifies_once item t :
  exists evs,
    handleDownload env downloadingItems downloadedItems item t
      = (Fulfilled tt, evs)
    /\ if has downloadingItems (url item) || has downloadedItems (url item)
       then evs = []
       else exists r evs0,
              downloadMedia env item t = (r, evs0)
              /\ evs = evs0 ++ [outcome_toast item r]
              /\ toasts "Download Complete" evs
                 = (if is_rejected r then 0 else 1)
              /\ toasts "Download Failed" evs
                 = (if is_rejected r then 1 else 0).
Proof.
  destruct (has downloadingItems (url item) || has downloadedItems (url item))
    eqn:Hskip.
  - exists []. unfold handleDownload. rewrite Hskip. split; reflexivity.
  - destruct (downloadMedia env item t) as [r evs0] eqn:E.
    exists (evs0 ++ [outcome_toast item r]). split.
    + apply handleDownload_outcome; assumption.
    + exists r, evs0. split; [reflexivity|]. split; [reflexivity|].
      rewrite !toasts_app.
      rewrite !(toasts_download_events _ evs0)
        by exact (downloadMedia_events env item _ _ _ E).
      destruct r; split; reflexivity.
Qed.
End Notifications.

(* ================================================================== *)
(** ** Round trip of an identifier *)
(* ================================================================== *)

Section Finding.
Import JS Browser Props Facts.

Lemma prefix_cons c lit a s :
  String.prefix (String c lit) (String a s)
  = Ascii.eqb c a && String.prefix lit s.
Proof.
  change (String.prefix (String c lit) (String a s))
    with (if ascii_dec c a then String.prefix lit s else false).
  destruct (ascii_dec c a) as [->|Hne].
  - rewrite Ascii.eqb_refl. reflexivity.
  - apply Ascii.eqb_neq in Hne. rewrite Hne. reflexivity.
Qed.

Lemma mismatch_prefix lit pre s :
  mismatch lit pre = true -> String.prefix lit (pre +:+ s) = false.
Proof.
  revert pre. induction lit as [|c lit IH]; intros [|a pre] H; try discriminate.
  rewrite append_cons, prefix_cons. cbn [mismatch] in H.
  destruct (Ascii.eqb c a); [|reflexivity]. apply IH, H.
Qed.

(** A pattern that starts with a literal is not found where the
    literal cannot start. *)
Lemma search_clear lit r pre pos s :
  clear_of lit pre = true ->
  search (RSeq (RLit lit) r) pos (pre +:+ s)
  = search (RSeq (RLit lit) r) (pos + String.length pre) s.
Proof.
  revert pos. induction pre as [|a pre IH]; intros pos H.
  - cbn [String.length]. rewrite Nat.add_0_r. reflexivity.
  - cbn [clear_of] in H. apply andb_true_iff in H as [Hm Hc].
    pose proof (mismatch_prefix _ _ s Hm) as Hp. rewrite append_cons in Hp.
    rewrite append_cons. cbn [search matches]. rewrite Hp. cbv iota.
    rewrite (IH (S pos) Hc). cbn [String.length]. f_equal. lia.
Qed.

Lemma prefix_free c lit s :
  String.prefix lit s = true -> free_of c s = true -> free_of c lit = true.
Proof.
  revert s. induction lit as [|a lit IH]; intros [|b s] H Hs;
    try reflexivity; try discriminate.
  rewrite prefix_cons in H. apply andb_true_iff in H as [Hab H].
  apply Ascii.eqb_eq in Hab. subst b.
  rewrite free_of_cons in *. apply andb_true_iff in Hs as [-> Hs].
  apply (IH s H Hs).
Qed.

(** A literal that holds a character is not found in a string that is
    free of it. *)
Lemma search_free c lit r pos s :
  free_of c lit = false -> free_of c s = true ->
  search (RSeq (RLit lit) r) pos s = None.
Proof.
  intros Hlit. revert pos.
  assert (Hno : forall s, free_of c s = true -> String.prefix lit s = false).
  { intros s' Hs'. destruct (String.prefix lit s') eqn:E; [|reflexivity].
    rewrite (prefix_free c _ _ E Hs') in Hlit. discriminate. }
  induction s as [|a s IH]; intros pos Hs; cbn [search matches].
  - rewrite (Hno "" Hs). reflexivity.
  - rewrite (Hno _ Hs). rewrite free_of_cons in Hs.
    apply andb_true_iff in Hs as [_ Hs]. apply IH, Hs.
Qed.

Lemma search_here r pos s m :
  matches r pos s ∅ accept = Some m -> search r pos s = Some m.
Proof. intros H. destruct s; cbn [search]; rewrite H; reflexivity. Qed.

Lemma substring_drop lit e :
  substring (String.length lit)
            (String.length (lit +:+ e) - String.length lit) (lit +:+ e) = e.
Proof.
  induction lit as [|c lit IH].
  - change ("" +:+ e) with e. cbn [String.length].
    rewrite Nat.sub_0_r. apply substring_all.
  - rewrite append_cons. cbn [String.length Nat.sub substring]. exact IH.
Qed.

(** A marker followed by a run of the class that ends the input. *)
Lemma marker_match lit cs pos e :
  e <> "" -> forallb cs (chars e) = true ->
  matches (rseq [RLit lit; RGroup 1 (RPlus cs)]) pos (lit +:+ e) ∅ accept
  = Some (<[1 := e]> ∅).
Proof.
  intros Hne Hall. cbn [rseq matches].
  rewrite (prefix_append lit lit e (prefix_refl lit)), substring_drop.
  destruct e as [|a e]; [congruence|].
  cbn [chars list_ascii_of_string forallb] in Hall.
  apply andb_true_iff in Hall as [Ha He]. rewrite Ha.
  rewrite (star_takes_all _ _ _ _ _ (<[1 := String a e]> ∅) He); [reflexivity|].
  cbn beta.
  replace (S (pos + String.length lit) + String.length e
           - (pos + String.length lit))
    with (S (String.length e)) by lia.
  cbn [substring]. rewrite substring_all. reflexivity.
Qed.

Lemma accepted_capture e :
  String.length e = 10 \/ String.length e = 11 ->
  accepted (Some (<[1 := e]> ∅)) 1 = Some e.
Proof.
  intros Hlen. unfold accepted, group, captures. rewrite lookup_insert_eq.
  assert (Ht : truthy e = true) by (destruct e; [cbn in Hlen; lia | reflexivity]).
  rewrite Ht. destruct Hlen as [-> | ->]; reflexivity.
Qed.

(** The pattern [marker([C]+)] on [pre marker e]. *)
Lemma marker_found lit cs pre e :
  clear_of lit pre = true ->
  String.length e = 10 \/ String.length e = 11 ->
  forallb cs (chars e) = true ->
  accepted (str_match (pre +:+ lit +:+ e) (rseq [RLit lit; RGroup 1 (RPlus cs)])) 1
  = Some e.
Proof.
  intros Hc Hlen Hall. unfold str_match.
  change (rseq [RLit lit; RGroup 1 (RPlus cs)])
    with (RSeq (RLit lit) (rseq [RGroup 1 (RPlus cs)])).
  rewrite (search_clear _ _ _ _ _ Hc).
  rewrite (search_here _ _ _ (<[1 := e]> ∅)).
  - apply accepted_capture, Hlen.
  - apply (marker_match lit cs). 
    + destruct e; [cbn in Hlen; lia | discriminate].
    + exact Hall.
Qed.

(** The pattern [marker([C]+)] where the marker holds a character that
    is found only in [pre], and there before no complete marker. *)
Lemma marker_absent c lit cs pre e :
  clear_of lit pre = true -> free_of c lit = false -> free_of c e = true ->
  accepted (str_match (pre +:+ e) (rseq [RLit lit; RGroup 1 (RPlus cs)])) 1
  = None.
Proof.
  intros Hc Hlit He. unfold str_match.
  change (rseq [RLit lit; RGroup 1 (RPlus cs)])
    with (RSeq (RLit lit) (rseq [RGroup 1 (RPlus cs)])).
  rewrite (search_clear _ _ _ _ _ Hc), (search_free c _ _ _ _ Hlit He).
  reflexivity.
Qed.

Lemma split_first_clear sep pre s :
  clear_of sep pre = true ->
  first (split (pre +:+ s) sep) = pre +:+ first (split s sep).
Proof.
  unfold split. induction pre as [|a pre IH]; intros H; [reflexivity|].
  cbn [clear_of] in H. apply andb_true_iff in H as [Hm Hc].
  pose proof (mismatch_prefix _ _ s Hm) as Hp. rewrite append_cons in Hp.
  rewrite append_cons. cbn [split_go]. rewrite Hp.
  specialize (IH Hc).
  destruct (split_go sep 0 (pre +:+ s)) as [|h l] eqn:E.
  - exfalso. eapply split_go_nonempty, E.
  - cbn [first hd] in *. rewrite IH. reflexivity.
Qed.

Lemma cleanUrl_plain pre e :
  clear_of "#" pre = true -> clear_of "?si=" pre = true ->
  free_of "#" e = true -> free_of "?" e = true ->
  cleanUrl (pre +:+ e) = pre +:+ e.
Proof.
  intros H1 H2 H3 H4. unfold cleanUrl.
  rewrite (split_first_clear "#" pre e H1), (split_char_whole "#" e H3).
  rewrite (split_first_clear "?si=" pre e H2), (split_si_whole e H4).
  reflexivity.
Qed.

Lemma none_of_free c cs e :
  one_of cs c = true -> forallb (none_of cs) (chars e) = true ->
  free_of c e = true.
Proof.
  intros Hc. unfold free_of. apply forallb_weaken. intros a Ha.
  destruct (Ascii.eqb_spec a c) as [->|]; [|reflexivity].
  unfold none_of in Ha. rewrite Hc in Ha. discriminate.
Qed.

Lemma none_of_fewer cs cs' e :
  (forall a, one_of cs' a = true -> one_of cs a = true) ->
  forallb (none_of cs) (chars e) = true ->
  forallb (none_of cs') (chars e) = true.
Proof.
  intros H. apply forallb_weaken. intros a Ha. unfold none_of in *.
  destruct (one_of cs' a) eqn:E; [|reflexivity].
  rewrite (H a E) in Ha. discriminate.
Qed.
End Finding.

Section RoundTrip.
Import JS Browser Props Facts.

(** X8. Round trip. The three usual addresses of a video, built from an ID
    of ten or eleven characters none of which is a slash, an ampersand,
    a hash or a question mark, give back that ID: the detector finds it,
    and so does the download path. *)
Theorem id_round_trip id :
  String.length id = 10 \/ String.length id = 11 ->
  forallb (none_of "/&#?") (chars id) = true ->
  Forall (fun u =>
            MediaDetectionService.extractYouTubeId u = Some id
            /\ DownloadService.extractYouTubeId u = Fulfilled id)
         [ "https://youtu.be/" +:+ id;
           "https://www.youtube.com/watch?v=" +:+ id;
           "https://www.youtube.com/embed/" +:+ id ].
Proof.
  intros Hlen Hplain.
  assert (Hslash : free_of "/" id = true)
    by (eapply none_of_free, Hplain; reflexivity).
  assert (Hhash : free_of "#" id = true)
    by (eapply none_of_free, Hplain; reflexivity).
  assert (Hq : free_of "?" id = true)
    by (eapply none_of_free, Hplain; reflexivity).
  assert (H1 : forallb (none_of "/") (chars id) = true).
  { eapply none_of_fewer, Hplain. intros a. unfold one_of. cbn.
    rewrite !orb_false_r. intros ->. reflexivity. }
  assert (H2 : forallb (none_of "/&") (chars id) = true).
  { eapply none_of_fewer, Hplain. intros a. unfold one_of. cbn.
    rewrite !orb_false_r. intros H. apply orb_true_iff in H as [-> | ->];
      rewrite ?orb_true_r; reflexivity. }
  assert (Hboth : forall u,
            MediaDetectionService.extractYouTubeId u = Some id ->
            MediaDetectionService.extractYouTubeId u = Some id
            /\ DownloadService.extractYouTubeId u = Fulfilled id).
  { intros u Hu. split; [exact Hu | apply detector_id_accepted_downstream, Hu]. }
  constructor; [|constructor; [|constructor; [|constructor]]]; apply Hboth;
    unfold MediaDetectionService.extractYouTubeId,
      MediaDetectionService.patterns;
    rewrite cleanUrl_plain by (reflexivity || assumption);
    cbn [first_accepted].
  - rewrite (marker_found "youtu.be/" _ "https://" id); auto.
  - rewrite (marker_absent "/" "youtu.be/" _ _ id); auto.
    rewrite (marker_found "youtube.com/watch?v=" _ "https://www." id); auto.
  - rewrite (marker_absent "/" "youtu.be/" _ _ id); auto.
    rewrite (marker_absent "/" "youtube.com/watch?v=" _ _ id); auto.
    rewrite (marker_found "youtube.com/embed/" _ "https://www." id); auto.
Qed.

Lemma id_round_trip_witness :
  MediaDetectionService.extractYouTubeId
    ("https://www.youtube.com/watch?v=" +:+ "dQw4w9WgXcQ")
  = Some "dQw4w9WgXcQ".
Proof.
  pose proof (id_round_trip "dQw4w9WgXcQ" (or_intror eq_refl) eq_refl) as H.
  apply Forall_cons in H as [_ H]. apply Forall_cons in H as [[H _] _].
  exact H.
Defined.
End RoundTrip.

(* ================================================================== *)
(** ** Requests to the backend *)
(* ================================================================== *)

Section Requests.
Import JS Props Facts Server Routes.
Variable os : OS.

Lemma other_directory (tempDir d : string) :
  inl tempDir <> @inl string string d -> d <> tempDir.
Proof. intros H ->. apply H. reflexivity. Qed.

Lemma created_elsewhere (tempDir d : string) (X : gset string) :
  d <> tempDir -> d ∈ {[tempDir]} ∪ X <-> d ∈ X.
Proof.
  intros Hd. rewrite elem_of_union, elem_of_singleton. tauto.
Qed.

Lemma no_bad_request new :
  Forall (fun r => answered 400 r = false
                   /\ r <> Json 500 "yt-dlp is not installed. Please install it with: pip install yt-dlp" None) new ->
  existsb (answered 400) new = false.
Proof.
  induction 1 as [|r new [Hr _] _ IH]; [reflexivity|].
  cbn [existsb]. rewrite Hr, IH. reflexivity.
Qed.

(** What serving a request does to the state, path by path. *)
Lemma serve_effect u name q format st :
  let st' := serve os u name q format st in
  (exists new,
     sent st' = sent st ++ new /\ length new <= 1
     /\ existsb (answered 400) new = false)
  /\ (exists cmds,
        processes st' = processes st ++ cmds
        /\ Forall (fun c => fst c = "yt-dlp") cmds)
  /\ (forall d, mkdtempSync os "ytdl-" <> inl d ->
                d ∈ dirs st' <-> d ∈ dirs st).
Proof.
  cbn zeta. unfold serve, checkYtDlp, download.
  destruct (spawn os "yt-dlp" [VStr "--version"])
    as [msg|[code err out|msg code]].
  - split; [exists []; cbn; rewrite app_nil_r; auto|].
    split; [eexists [_]; split; [reflexivity | repeat constructor]|].
    reflexivity.
  - destruct (Nat.eqb code 0).
    + destruct (mkdtempSync os "ytdl-") as [tempDir|msg].
      * match goal with |- context [spawn os "yt-dlp" ?args] =>
          destruct (spawn os "yt-dlp" args) as [msg|[code' err' out'|msg code']]
        end.
        -- split; [eexists [_]; cbn; auto|].
           split; [eexists [_; _]; cbn; rewrite <- app_assoc; split;
                   [reflexivity | repeat constructor]|].
           intros d Hd. cbn. apply created_elsewhere, other_directory, Hd.
        -- match goal with |- context [emitted ?l ?s] =>
             destruct (close_effect os tempDir name code' err' out' s)
               as (Hp & (new & Hs & Hlen & Hnew) & Hdirs & _)
           end.
           cbn [snd]. rewrite Hp, Hs.
           split; [exists new; cbn; auto using no_bad_request|].
           split; [eexists [_; _]; cbn; rewrite <- app_assoc; split;
                   [reflexivity | repeat constructor]|].
           intros d Hd. apply other_directory in Hd.
           rewrite (Hdirs d Hd). cbn. apply created_elsewhere, Hd.
        -- match goal with |- context [emitted ?l ?s] =>
             destruct (error_effect os tempDir name msg code' s)
               as (Hp & (new & Hs & Hlen & Hnew) & Hdirs & _)
           end.
           cbn [snd]. rewrite Hp, Hs.
           split; [exists new; cbn; auto using no_bad_request|].
           split; [eexists [_; _]; cbn; rewrite <- app_assoc; split;
                   [reflexivity | repeat constructor]|].
           intros d Hd. apply other_directory in Hd.
           rewrite (Hdirs d Hd). cbn. apply created_elsewhere, Hd.
      * split; [eexists [_]; cbn; auto|].
        split; [eexists [_]; split; [reflexivity | repeat constructor]|].
        reflexivity.
    + split; [eexists [_]; cbn; auto|].
      split; [eexists [_]; split; [reflexivity | repeat constructor]|].
      reflexivity.
  - split; [eexists [_]; cbn; auto|].
    split; [eexists [_]; split; [reflexivity | repeat constructor]|].
    reflexivity.
Qed.

(** The advice to install yt-dlp is the answer of the failed version
    check, and of no other path. *)
Lemma serve_advice u name q format st :
  (exists new,
     sent (serve os u name q format st) = sent st ++ new
     /\ Json 500 "yt-dlp is not installed. Please install it with: pip install yt-dlp" None ∈ new)
  <-> fst (health os st) = Some (false, "yt-dlp is not installed").
Proof.
  unfold health, serve, checkYtDlp, download.
  destruct (spawn os "yt-dlp" [VStr "--version"])
    as [msg|[code err out|msg code]]; cbn [fst].
  - split; [|discriminate]. intros (new & Hs & Hin). cbn in Hs.
    rewrite <- (app_nil_r (sent st)) in Hs at 1.
    apply app_inv_head in Hs. subst new. inversion Hin.
  - destruct (Nat.eqb code 0); cbn [fst].
    + split; [|discriminate]. intros (new & Hs & Hin). exfalso.
      destruct (mkdtempSync os "ytdl-") as [tempDir|msg].
      * match type of Hs with context [spawn os "yt-dlp" ?args] =>
          destruct (spawn os "yt-dlp" args) as [msg|[code' err' out'|msg code']]
        end.
        -- cbn in Hs. apply app_inv_head in Hs. subst new.
           apply list_elem_of_singleton in Hin. discriminate.
        -- match type of Hs with context [emitted ?l ?s] =>
             destruct (close_effect os tempDir name code' err' out' s)
               as (_ & (new' & Hs' & _ & Hnew) & _)
           end.
           cbn [snd] in Hs. rewrite Hs' in Hs. cbn in Hs.
           apply app_inv_head in Hs. subst new.
           rewrite Forall_forall in Hnew. destruct (Hnew _ Hin) as [_ Hne].
           apply Hne. reflexivity.
        -- match type of Hs with context [emitted ?l ?s] =>
             destruct (error_effect os tempDir name msg code' s)
               as (_ & (new' & Hs' & _ & Hnew) & _)
           end.
           cbn [snd] in Hs. rewrite Hs' in Hs. cbn in Hs.
           apply app_inv_head in Hs. subst new.
           rewrite Forall_forall in Hnew. destruct (Hnew _ Hin) as [_ Hne].
           apply Hne. reflexivity.
      * cbn in Hs. apply app_inv_head in Hs. subst new.
        apply list_elem_of_singleton in Hin. discriminate.
    + split; [reflexivity|]. intros _. eexists [_]. cbn.
      split; [reflexivity | apply list_elem_of_singleton; reflexivity].
  - split; [reflexivity|]. intros _. eexists [_]. cbn.
    split; [reflexivity | apply list_elem_of_singleton; reflexivity].
Qed.

(** Whether the handler lets a request through to the version check. *)
Lemma handler_cases body st :
  let quality := default "high" (body_quality body) in
  let valid := truthy_opt (body_url body)
               && value_truthy (property qualityFormats quality) in
  if valid
  then exists format,
         property qualityFormats quality = Some format
         /\ handler os body st
            = serve os (default "" (body_url body)) (body_filename body)
                    quality format st
  else exists msg, handler os body st = respond (Json 400 msg None) st.
Proof.
  cbn zeta. unfold handler. destruct (truthy_opt (body_url body)); cbn [negb andb].
  - destruct (property qualityFormats _) as [format|] eqn:E.
    + destruct (value_truthy (Some format)); cbn [negb]; eauto.
    + cbn. eauto.
  - eauto.
Qed.

(** X26. 400 is the answer to the invalid requests and to no other: those
    without a URL or with an empty one, and those whose quality is
    neither a key of the table nor the name of an inherited property; a
    request without quality counts as one for high. An invalid request
    has no effect other than its answer: nothing is spawned and no
    directory is made. *)
Theorem bad_request_iff_invalid body st :
  let st' := handler os body st in
  let valid := truthy_opt (body_url body)
               && value_truthy
                    (property qualityFormats
                              (default "high" (body_quality body))) in
  exists new,
    sent st' = sent st ++ new
    /\ existsb (answered 400) new = negb valid
    /\ (valid = false ->
        length new = 1 /\ processes st' = processes st /\ dirs st' = dirs st).
Proof.
  cbn zeta. pose proof (handler_cases body st) as H. cbn zeta in H.
  destruct (truthy_opt (body_url body) && _).
  - destruct H as (format & _ & ->).
    destruct (serve_effect (default "" (body_url body)) (body_filename body)
                (default "high" (body_quality body)) format st)
      as ((new & Hs & _ & H400) & _).
    exists new. split; [exact Hs|]. split; [exact H400 | discriminate].
  - destruct H as (msg & ->). eexists [_]. cbn. auto.
Qed.

(** X27. The handler runs no program but yt-dlp, and leaves every directory
    alone but the temporary one it makes for the request. *)
Theorem handler_touches_only_its_own_directory body st d :
  mkdtempSync os "ytdl-" <> inl d ->
  (d ∈ dirs (handler os body st) <-> d ∈ dirs st)
  /\ exists cmds,
       processes (handler os body st) = processes st ++ cmds
       /\ Forall (fun c => fst c = "yt-dlp") cmds.
Proof.
  intros Hd. pose proof (handler_cases body st) as H. cbn zeta in H.
  destruct (truthy_opt (body_url body) && _).
  - destruct H as (format & _ & ->).
    destruct (serve_effect (default "" (body_url body)) (body_filename body)
                (default "high" (body_quality body)) format st)
      as (_ & Hp & Hdirs).
    split; [apply Hdirs, Hd | exact Hp].
  - destruct H as (msg & ->). split; [reflexivity|].
    exists []. cbn. rewrite app_nil_r. auto.
Qed.

(** X28. The two routes agree on whether yt-dlp is there. A valid download
    request is answered with the advice to install yt-dlp exactly when
    the health route, asked in the same state of the system, reports
    that yt-dlp is not installed; and then the download route has run
    nothing but the version check. *)
Theorem health_agrees_with_download body st :
  truthy_opt (body_url body)
  && value_truthy (property qualityFormats (default "high" (body_quality body)))
  = true ->
  let advice := Json 500 "yt-dlp is not installed. Please install it with: pip install yt-dlp" None in
  (exists new, sent (handler os body st) = sent st ++ new /\ advice ∈ new)
  <-> fst (health os st) = Some (false, "yt-dlp is not installed").
Proof.
  intros Hvalid. pose proof (handler_cases body st) as H. cbn zeta in H.
  rewrite Hvalid in H. destruct H as (format & _ & ->). cbn zeta.
  apply serve_advice.
Qed.

(** X29. The qualities that the options route offers are the keys of the
    table of formats: each of them passes the validation of the download
    route, and the table has no key that is not offered. *)
Theorem offered_qualities_are_the_table :
  dom qualityFormats = list_to_set qualityOptions
  /\ NoDup qualityOptions
  /\ Forall (fun q => value_truthy (property qualityFormats q) = true)
            qualityOptions.
Proof.
  split; [|split].
  - apply (bool_decide_unpack _). vm_compute. reflexivity.
  - apply (bool_decide_unpack _). vm_compute. reflexivity.
  - repeat constructor.
Qed.
End Requests.

Section RequestRuns.
Import JS Props Facts Fixtures Worlds Server Routes.

(** A download on a healthy system leaves a directory of the host in place. *)
Lemma handler_touches_only_its_own_directory_witness :
  "/srv/data" ∈ dirs (handler healthy (request "https://youtu.be/dQw4w9WgXcQ" "high")
                              (mkState {[ "/srv/data" ]} [] [] [])).
Proof.
  apply (handler_touches_only_its_own_directory healthy
           (request "https://youtu.be/dQw4w9WgXcQ" "high")
           (mkState {[ "/srv/data" ]} [] [] []) "/srv/data").
  - discriminate.
  - exact (proj2 (elem_of_singleton (C := gset string) "/srv/data" "/srv/data") eq_refl).
Defined.

Lemma health_agrees_with_download_witness :
  fst (health not_installed idle) = Some (false, "yt-dlp is not installed").
Proof.
  apply (health_agrees_with_download not_installed
           (request "https://youtu.be/dQw4w9WgXcQ" "high") idle).
  - vm_compute. reflexivity.
  - eexists [_]. split; [vm_compute; reflexivity|].
    apply list_elem_of_singleton. reflexivity.
Defined.
End RequestRuns.

(* ================================================================== *)
(** ** Background images and the completeness of the detection *)
(* ================================================================== *)

Section Greedy.
Import JS Browser Props Facts.

(** Greedy [C*] stops in front of a character outside the class. *)
Lemma star_stop cs pos e b rest c k m :
  forallb cs (chars e) = true -> cs b = false ->
  k (pos + String.length e) (String b rest) c = Some m ->
  star cs pos (e +:+ String b rest) c k = Some m.
Proof.
  revert pos. induction e as [|a e IH]; intros pos Hall Hb Hk.
  - cbn [String.length] in Hk. rewrite Nat.add_0_r in Hk.
    change ("" +:+ String b rest) with (String b rest).
    cbn [star]. rewrite Hb. exact Hk.
  - cbn [chars list_ascii_of_string forallb] in Hall.
    apply andb_true_iff in Hall as [Ha He].
    rewrite append_cons. cbn [star]. rewrite Ha.
    rewrite (IH (S pos) He Hb); [reflexivity|].
    cbn [String.length] in Hk.
    replace (S pos + String.length e) with (pos + S (String.length e)) by lia.
    exact Hk.
Qed.

(** Greedy [C*] gives characters back until the continuation accepts:
    when nothing after [b] lets it accept, it accepts in front of [b]. *)
Lemma star_backtrack cs pos e b tail c k m :
  forallb cs (chars e) = true ->
  (forall p, star cs p tail c k = None) ->
  k (pos + String.length e) (String b tail) c = Some m ->
  star cs pos (e +:+ String b tail) c k = Some m.
Proof.
  revert pos. induction e as [|a e IH]; intros pos Hall Htail Hk.
  - cbn [String.length] in Hk. rewrite Nat.add_0_r in Hk.
    change ("" +:+ String b tail) with (String b tail).
    cbn [star]. rewrite Htail, Hk. destruct (cs b); reflexivity.
  - cbn [chars list_ascii_of_string forallb] in Hall.
    apply andb_true_iff in Hall as [Ha He].
    rewrite append_cons. cbn [star]. rewrite Ha.
    rewrite (IH (S pos) He Htail); [reflexivity|].
    cbn [String.length] in Hk.
    replace (S pos + String.length e) with (pos + S (String.length e)) by lia.
    exact Hk.
Qed.

(** Greedy [C*] fails when the continuation fails on all that is left. *)
Lemma star_fails (P : string -> Prop) cs pos s c (k : cont) :
  (forall a s', P (String a s') -> P s') ->
  (forall p s', P s' -> k p s' c = None) ->
  P s -> star cs pos s c k = None.
Proof.
  intros Htl Hk. revert pos. induction s as [|a s IH]; intros pos Hs; cbn [star].
  - apply Hk, Hs.
  - rewrite (IH _ (Htl _ _ Hs)), (Hk _ _ Hs). destruct (cs a); reflexivity.
Qed.

Lemma literal_cut lit s pos c (k : cont) :
  matches (RLit lit) pos (lit +:+ s) c k = k (pos + String.length lit) s c.
Proof.
  cbn [matches].
  rewrite (prefix_append lit lit s (prefix_refl lit)), substring_drop.
  reflexivity.
Qed.
End Greedy.

Section Backgrounds.
Import JS Browser Props Facts MediaDetectionService.

Lemma matches_seq r1 r2 pos s c (k : cont) :
  matches (RSeq r1 r2) pos s c k
  = matches r1 pos s c (fun pos' s' c' => matches r2 pos' s' c' k).
Proof. reflexivity. Qed.

Lemma matches_opt_skip cs pos a s c (k : cont) :
  cs a = false -> matches (ROpt cs) pos (String a s) c k = k pos (String a s) c.
Proof. intros H. cbn [matches]. rewrite H. reflexivity. Qed.

Lemma matches_opt_take cs pos a s c (k : cont) m :
  cs a = true -> k (S pos) s c = Some m ->
  matches (ROpt cs) pos (String a s) c k = Some m.
Proof. intros H Hk. cbn [matches]. rewrite H, Hk. reflexivity. Qed.

Lemma matches_group_plus n cs pos a s c (k : cont) :
  cs a = true ->
  matches (RGroup n (RPlus cs)) pos (String a s) c k
  = star cs (S pos) s c
         (fun pos' s' c' =>
            k pos' s' (<[n := substring 0 (pos' - pos) (String a s)]> c')).
Proof. intros H. cbn [matches]. rewrite H. reflexivity. Qed.

Lemma quote_free_head a :
  none_of quotes a = true -> one_of quotes a = false.
Proof. unfold none_of. intros H. apply negb_true_iff in H. exact H. Qed.

Lemma capture_prefix a e rest pos :
  substring 0 (S pos + String.length e - pos) (String a (e +:+ rest))
  = String a e.
Proof.
  replace (S pos + String.length e - pos) with (S (String.length e)) by lia.
  cbn [substring]. rewrite substring_prefix. reflexivity.
Qed.

(** The start of the pattern, up to the opening parenthesis. *)
Lemma background_start ws rest m :
  forallb space (chars ws) = true ->
  (forall pos,
     matches (rseq [ROpt (one_of quotes); RGroup 1 (RPlus (none_of quotes));
                    ROpt (one_of quotes); RLit ")"])
             pos rest ∅ accept = Some m) ->
  str_match ("background-image:" +:+ ws +:+ "url(" +:+ rest) background_pattern
  = Some m.
Proof.
  intros Hws Hrest. unfold str_match. apply search_here.
  unfold background_pattern.
  change (rseq (RLit "background-image:" :: ?l))
    with (RSeq (RLit "background-image:") (rseq l)).
  rewrite matches_seq, literal_cut. cbn beta.
  change (rseq (RStar space :: ?l)) with (RSeq (RStar space) (rseq l)).
  rewrite matches_seq.
  change (matches (RStar space)) with (star space).
  change ("url(" +:+ rest) with (String "u" ("rl(" +:+ rest)).
  apply star_stop; [exact Hws | reflexivity |].
  change (String "u" ("rl(" +:+ rest)) with ("url(" +:+ rest).
  change (rseq (RLit "url(" :: ?l)) with (RSeq (RLit "url(") (rseq l)).
  rewrite matches_seq, literal_cut. apply Hrest.
Qed.

Lemma background_tail_fails c p s :
  forallb (none_of (")" +:+ quotes)) (chars s) = true ->
  matches (rseq [ROpt (one_of quotes); RLit ")"]) p s c accept = None.
Proof.
  intros H. destruct s as [|x s]; [reflexivity|].
  cbn [chars list_ascii_of_string forallb] in H.
  apply andb_true_iff in H as [Hx _].
  unfold none_of, one_of in Hx.
  change (chars (")" +:+ quotes)) with (")"%char :: chars quotes) in Hx.
  cbn [existsb] in Hx.
  apply negb_true_iff, orb_false_iff in Hx as [Hp Hq].
  cbn [rseq]. rewrite matches_seq, matches_opt_skip.
  - rewrite matches_seq. cbn [matches]. rewrite prefix_char, Hp. reflexivity.
  - exact Hq.
Qed.

(** An unquoted [url(...)]: the capture runs up to the last closing
    parenthesis of the attribute. *)
Lemma background_unquoted ws body tail :
  forallb space (chars ws) = true ->
  body <> "" ->
  forallb (none_of quotes) (chars body) = true ->
  forallb (none_of (")" +:+ quotes)) (chars tail) = true ->
  str_match ("background-image:" +:+ ws +:+ "url(" +:+ body +:+ ")" +:+ tail)
            background_pattern
  = Some (<[1 := body]> ∅).
Proof.
  intros Hws Hne Hbody Htail. apply background_start; [exact Hws|]. intros pos.
  destruct body as [|a body]; [congruence|].
  cbn [chars list_ascii_of_string forallb] in Hbody.
  apply andb_true_iff in Hbody as [Ha Hbody].
  rewrite append_cons.
  change (rseq (ROpt (one_of quotes) :: ?l))
    with (RSeq (ROpt (one_of quotes)) (rseq l)).
  rewrite matches_seq, matches_opt_skip by (apply quote_free_head, Ha).
  change (rseq (RGroup 1 (RPlus (none_of quotes)) :: ?l))
    with (RSeq (RGroup 1 (RPlus (none_of quotes))) (rseq l)).
  rewrite matches_seq, matches_group_plus by exact Ha.
  change (")" +:+ tail) with (String ")" tail).
  apply star_backtrack; [exact Hbody | |].
  - intros p.
    apply (star_fails
             (fun s => forallb (none_of (")" +:+ quotes)) (chars s) = true));
      [| |exact Htail].
    + intros x s' H. cbn [chars list_ascii_of_string forallb] in H.
      apply andb_true_iff in H as [_ H]. exact H.
    + intros p' s' H. apply background_tail_fails, H.
  - cbn beta. rewrite capture_prefix.
    cbn [rseq]. rewrite matches_seq, matches_opt_skip by reflexivity.
    rewrite matches_seq.
    change (String ")" tail) with (")" +:+ tail). rewrite literal_cut.
    reflexivity.
Qed.

(** A quoted [url(...)]: the capture is what stands between the
    quotes, whatever follows. *)
Lemma background_quoted ws q body q' tail :
  forallb space (chars ws) = true ->
  one_of quotes q = true -> one_of quotes q' = true ->
  body <> "" ->
  forallb (none_of quotes) (chars body) = true ->
  str_match ("background-image:" +:+ ws +:+ "url("
             +:+ String q (body +:+ String q' (")" +:+ tail)))
            background_pattern
  = Some (<[1 := body]> ∅).
Proof.
  intros Hws Hq Hq' Hne Hbody. apply background_start; [exact Hws|]. intros pos.
  destruct body as [|a body]; [congruence|].
  cbn [chars list_ascii_of_string forallb] in Hbody.
  apply andb_true_iff in Hbody as [Ha Hbody].
  rewrite append_cons.
  change (rseq (ROpt (one_of quotes) :: ?l))
    with (RSeq (ROpt (one_of quotes)) (rseq l)).
  rewrite matches_seq. apply matches_opt_take; [exact Hq|].
  change (rseq (RGroup 1 (RPlus (none_of quotes)) :: ?l))
    with (RSeq (RGroup 1 (RPlus (none_of quotes))) (rseq l)).
  rewrite matches_seq, matches_group_plus by exact Ha.
  apply star_stop; [exact Hbody | unfold none_of; rewrite Hq'; reflexivity |].
  cbn beta. rewrite capture_prefix.
  cbn [rseq]. rewrite matches_seq. apply matches_opt_take; [exact Hq'|].
  rewrite matches_seq, literal_cut. reflexivity.
Qed.
End Backgrounds.

Section Completeness.
Import JS Browser Props Facts MediaDetectionService.
Variable env : Env.

Lemma url_in_flat_map {A} (f : A -> list MediaItem) l x u :
  In x l -> u ∈ map url (f x) -> u ∈ map url (flat_map f l).
Proof.
  intros Hx Hu. apply list_elem_of_In, in_map_iff in Hu as (item & <- & Hitem).
  apply list_elem_of_In, in_map. apply in_flat_map. eauto.
Qed.

Lemma css_item_found doc base style body :
  str_match style background_pattern = Some (<[1 := body]> ∅) ->
  In (Some style) (styled doc) ->
  resolveUrl env body base ∈ map url (extractCSSMedia env doc base).
Proof.
  intros Hm Hin. unfold extractCSSMedia.
  eapply url_in_flat_map; [exact Hin|]. cbn [opt_or_else].
  assert (Hs : or_else style "" = style).
  { unfold or_else. destruct (truthy style) eqn:E; [reflexivity|].
    unfold truthy in E. apply negb_false_iff, String.eqb_eq in E. auto. }
  rewrite Hs, Hm. unfold group, captures. rewrite lookup_insert_eq.
  cbn. apply list_elem_of_here.
Qed.

(** X14. A background image whose address is written in quotes is found:
    the address between the quotes, resolved against the page, is among
    the URLs that [extractCSSMedia] returns. *)
Theorem quoted_background_is_found doc base ws q body q' tail :
  forallb space (chars ws) = true ->
  one_of quotes q = true -> one_of quotes q' = true ->
  body <> "" ->
  forallb (none_of quotes) (chars body) = true ->
  In (Some ("background-image:" +:+ ws +:+ "url("
            +:+ String q (body +:+ String q' (")" +:+ tail))))
     (styled doc) ->
  resolveUrl env body base ∈ map url (extractCSSMedia env doc base).
Proof.
  intros Hws Hq Hq' Hne Hbody Hin.
  eapply css_item_found; [|exact Hin].
  apply background_quoted; assumption.
Qed.

(** X15. Without quotes the address that is taken runs up to the LAST
    closing parenthesis of the style attribute: what is returned for
    [url(body)tail] with no parenthesis in [tail] is [body], and [body]
    may itself hold parentheses and further declarations. *)
Theorem unquoted_background_runs_to_last_parenthesis doc base ws body tail :
  forallb space (chars ws) = true ->
  body <> "" ->
  forallb (none_of quotes) (chars body) = true ->
  forallb (none_of (")" +:+ quotes)) (chars tail) = true ->
  In (Some ("background-image:" +:+ ws +:+ "url(" +:+ body +:+ ")" +:+ tail))
     (styled doc) ->
  resolveUrl env body base ∈ map url (extractCSSMedia env doc base).
Proof.
  intros Hws Hne Hbody Htail Hin.
  eapply css_item_found; [|exact Hin].
  apply background_unquoted; assumption.
Qed.



End Completeness.

(* ================================================================== *)
(** ** Plain paths *)
(* ================================================================== *)

Section CompletenessRuns.
Import JS Browser Props Facts Fixtures Worlds MediaDetectionService.

Lemma quoted_background_is_found_witness :
  resolveUrl offline "hero.jpg" "https://site.example/"
  ∈ map url (extractCSSMedia offline
               (styled_page "background-image: url('hero.jpg') no-repeat")
               "https://site.example/").
Proof.
  apply (quoted_background_is_found offline _ _ " " squote "hero.jpg" squote
           " no-repeat"); try reflexivity; try discriminate.
  left. reflexivity.
Defined.

(** The address taken from an unquoted [url(...)] that is followed by
    another declaration with parentheses. *)
Lemma unquoted_background_runs_to_last_parenthesis_witness :
  resolveUrl offline "hero.jpg);clip-path:circle(50%" "https://site.example/"
  ∈ map url (extractCSSMedia offline
               (styled_page "background-image:url(hero.jpg);clip-path:circle(50%)")
               "https://site.example/").
Proof.
  apply (unquoted_background_runs_to_last_parenthesis offline _ _ ""
           "hero.jpg);clip-path:circle(50%" "");
    try reflexivity; try discriminate.
  left. reflexivity.
Defined.


(** An audio element that names its file in a [source] element: nothing
    is detected. *)
Example nested_audio_source_is_lost :
  detectMedia podcast "https://site.example/a/" 0
  = (Fulfilled [],
     [Fetch (page_request "https://site.example/a/")]).
Proof. vm_compute. reflexivity. Qed.
End CompletenessRuns.

Section PlainPaths.
Import JS Browser Props Facts MediaDetectionService.

Lemma split_free c b :
  free_of c b = true -> split b (String c "") = [b].
Proof.
  unfold split. induction b as [|a b IH]; intros H; [reflexivity|].
  rewrite free_of_cons in H. apply andb_true_iff in H as [Ha Hb].
  apply negb_true_iff in Ha. cbn [split_go].
  rewrite prefix_char, Ha, (IH Hb). reflexivity.
Qed.

Lemma split_two c x b :
  exists h h' l, split_go (String c "") 0 (x +:+ String c b) = h :: h' :: l.
Proof.
  induction x as [|a x (h & h' & l & IH)].
  - change ("" +:+ String c b) with (String c b). cbn [split_go].
    rewrite prefix_char, Ascii.eqb_refl. cbn [String.length Nat.sub].
    destruct (split_go (String c "") 0 b) as [|h l] eqn:E.
    + exfalso. eapply split_go_nonempty, E.
    + eexists _, _, _. reflexivity.
  - rewrite append_cons. cbn [split_go String.length Nat.sub].
    rewrite prefix_char, IH.
    destruct (Ascii.eqb a c); eexists _, _, _; reflexivity.
Qed.

(** What follows the last separator is the last piece. *)
Lemma pop_split_after c x b :
  free_of c b = true ->
  pop (split (x +:+ String c b) (String c "")) = b.
Proof.
  intros Hb. unfold split, pop. induction x as [|a x IH].
  - change ("" +:+ String c b) with (String c b). cbn [split_go].
    rewrite prefix_char, Ascii.eqb_refl. cbn [String.length Nat.sub].
    fold (split b (String c "")). rewrite (split_free c b Hb). reflexivity.
  - rewrite append_cons. cbn [split_go String.length Nat.sub].
    rewrite prefix_char.
    destruct (split_two c x b) as (h & h' & l & E). rewrite E in *.
    destruct (Ascii.eqb a c); exact IH.
Qed.

Variable env : Env.

(** X3. A file keeps its name. When the path of a URL ends in a segment
    [name.ext] with one dot, both the stem and the extension are
    recovered, and the names that the extractors build from them are
    [name.ext] again. *)
Theorem plain_path_keeps_its_name u dir name ext reserve reserve' :
  URL_pathname env u = Some (dir +:+ "/" +:+ name +:+ "." +:+ ext) ->
  name <> "" -> ext <> "" ->
  free_of "/" name = true -> free_of "." name = true ->
  free_of "/" ext = true -> free_of "." ext = true ->
  extractFilename env u = name
  /\ getFileExtension env u = Some ext
  /\ or_else (extractFilename env u) reserve +:+ "."
     +:+ opt_or_else (getFileExtension env u) reserve'
     = name +:+ "." +:+ ext.
Proof.
  intros Hpath Hname Hext Hn1 Hn2 He1 He2.
  assert (Htruthy : forall s, s <> "" -> truthy s = true).
  { intros s Hs. unfold truthy. apply negb_true_iff, String.eqb_neq, Hs. }
  assert (Hstem : extractFilename env u = name).
  { unfold extractFilename. rewrite Hpath.
    change ("/" +:+ name +:+ "." +:+ ext) with (String "/" (name +:+ "." +:+ ext)).
    rewrite pop_split_after
      by (rewrite !free_of_append, Hn1, He1; reflexivity).
    change ("." +:+ ext) with (String "." ext).
    rewrite (split_char_cut "." name ext Hn2).
    unfold or_else. rewrite (Htruthy _ Hname). reflexivity. }
  assert (Hsuffix : getFileExtension env u = Some ext).
  { apply (getFileExtension_found env u _ (dir +:+ "/" +:+ name) ext Hpath).
    - rewrite !append_assoc. reflexivity.
    - exact Hext.
    - apply free_of_includes, He2. }
  split; [exact Hstem|]. split; [exact Hsuffix|].
  rewrite Hstem, Hsuffix. cbn [opt_or_else]. unfold or_else.
  rewrite (Htruthy _ Hname), (Htruthy _ Hext). reflexivity.
Qed.
End PlainPaths.

Section PlainPathRuns.
Import JS Browser Props Facts Fixtures Worlds MediaDetectionService.

Lemma plain_path_keeps_its_name_witness :
  extractFilename gallery "https://site.example/a/photo.png" = "photo".
Proof.
  apply (plain_path_keeps_its_name gallery "https://site.example/a/photo.png"
           "/a" "photo" "png" "image" "jpg");
    try reflexivity; discriminate.
Defined.
End PlainPathRuns.

(* ================================================================== *)
(** ** Delivery of a finished download *)
(* ================================================================== *)

Section Delivery.
Import JS Props Facts Server Routes.
Variable os : OS.

(** X30. A download that runs to its end. yt-dlp is there, exits with
    code 0 and has left at least one file, whose size can be read. When
    the name of the answer (the one that the request gave, or the file's
    own name when the request gave none or an empty one) holds only
    characters that a header can carry, the file is read to its end and
    the directory can be removed, then the answer is the first file that
    the directory lists, under that name; the temporary directory is
    gone afterwards, and nothing was thrown. When the name holds a
    character that a header cannot carry, a line feed for one, setting
    the header throws inside the listener: the request gets no answer,
    the temporary directory stays, and the exception is uncaught. Either
    way yt-dlp has been run twice, for its version and for the download,
    with the URL as its last argument. *)
Theorem finished_download_is_sent_and_removed
        u name q format st err0 out0 tempDir err out file0 files size :
  truthy u = true ->
  property qualityFormats q = Some format ->
  value_truthy (Some format) = true ->
  spawn os "yt-dlp" [VStr "--version"] = Child (Close 0 err0 out0) ->
  mkdtempSync os "ytdl-" = inl tempDir ->
  spawn os "yt-dlp"
        (ytDlpArgs format (tempDir +:+ "/" +:+ "%(title)s.%(ext)s") q u)
    = Child (Close 0 err out) ->
  readdirSync os tempDir = inl (file0 :: files) ->
  statSync os (tempDir +:+ "/" +:+ file0) = inl size ->
  let st' := handler os (mkBody (Some u) name (Some q)) st in
  let finalFilename := opt_or_else name file0 in
  (header_value (content_disposition finalFilename) = true ->
   createReadStream os (tempDir +:+ "/" +:+ file0) = End ->
   rmSync os tempDir = None ->
   sent st' = sent st ++ [File finalFilename (tempDir +:+ "/" +:+ file0)]
   /\ (forall d, d ∈ dirs st' <-> d ∈ dirs st /\ d <> tempDir)
   /\ uncaught st' = uncaught st)
  /\ (header_value (content_disposition finalFilename) = false ->
      sent st' = sent st
      /\ tempDir ∈ dirs st'
      /\ uncaught st' = uncaught st ++ ["ERR_INVALID_CHAR"])
  /\ exists args,
       processes st' = processes st
                       ++ [("yt-dlp", [VStr "--version"]); ("yt-dlp", args)]
       /\ last args = Some (VStr u).
Proof.
  intros Hu Hq Hf Hv Hd Hs Hfiles Hstat. cbn zeta.
  rewrite (handler_serves os u name q format st Hu Hq Hf).
  unfold serve, checkYtDlp, download. rewrite Hv. cbn [Nat.eqb].
  rewrite Hd, Hs. cbn [snd].
  unfold emitted, on_close, piped, fs_readdirSync, fs_rmSync, setHeader, json,
    call, effect, pure, and_then.
  cbn [Nat.eqb dirs created started].
  rewrite bool_decide_eq_true_2
    by (apply elem_of_union_l, elem_of_singleton; reflexivity).
  rewrite Hfiles, Hstat. cbn [negb]. split; [|split].
  - intros Hname Hstream Hrm. rewrite Hname, Hstream, Hrm.
    cbn [negb sent dirs uncaught removed respond created started].
    split; [reflexivity|]. split; [|reflexivity].
    intros d. rewrite elem_of_difference, elem_of_union, !elem_of_singleton.
    split; [intros [[->|H] Hn]; [congruence | auto] | intros [H Hn]; auto].
  - intros Hname. rewrite Hname.
    cbn [negb sent dirs uncaught thrown created started].
    split; [reflexivity|]. split; [|reflexivity].
    apply elem_of_union_l, elem_of_singleton. reflexivity.
  - assert (Hargs : exists args,
               ytDlpArgs format (tempDir +:+ "/" +:+ "%(title)s.%(ext)s") q u
               = args /\ last args = Some (VStr u)).
    { eexists. split; [reflexivity|]. unfold ytDlpArgs. apply last_snoc. }
    destruct Hargs as (args & -> & Hlast). exists args. split; [|exact Hlast].
    destruct (negb (header_value _)); [cbn; rewrite <- app_assoc; reflexivity|].
    destruct (createReadStream os _) as [|[]]; destruct (rmSync os tempDir);
      cbn; rewrite <- app_assoc; reflexivity.
Qed.
End Delivery.

Section DeliveryRuns.
Import JS Props Facts Fixtures Worlds Server Routes.

Lemma finished_download_is_sent_and_removed_witness :
  sent (handler healthy (request "https://youtu.be/dQw4w9WgXcQ" "high") idle)
  = [File "video.mp4" "/tmp/ytdl-a1b2c3/video.mp4"].
Proof.
  refine (proj1 (proj1 (finished_download_is_sent_and_removed healthy
           "https://youtu.be/dQw4w9WgXcQ" None "high"
           (VStr "bestvideo[height<=1080][ext=mp4]+bestaudio[ext=m4a]/best[height<=1080][ext=mp4]/bestvideo[height<=1080]+bestaudio/best")
           idle "" "2024.08.06" "/tmp/ytdl-a1b2c3" "" "done" "video.mp4" [] 4096
           _ _ _ _ _ _ _ _) _ _ _));
    reflexivity.
Defined.

(** The same download asked for under a name of two lines: no answer,
    the directory is left, and the server ends on the exception. *)
Example name_with_line_feed_is_not_sent :
  let st := handler healthy
              (mkBody (Some "https://youtu.be/dQw4w9WgXcQ")
                      (Some (String "a" (String "010" "b.mp4")))
                      (Some "high"))
              idle in
  sent st = []
  /\ elements (dirs st) = ["/tmp/ytdl-a1b2c3"]
  /\ uncaught st = ["ERR_INVALID_CHAR"].
Proof. cbn zeta. repeat split; vm_compute; reflexivity. Qed.
End DeliveryRuns.
